(** * CryptoWallet: key encryption, wallet registry and transfer orchestration

    A shallow embedding of [src/utils/security.ts] (SecurityManager), of the
    WalletService class and of the send form of [src/screens/SendScreen.tsx],
    with the properties of the specification stated and proved over it; and
    of their callers AuthService and SwapService ([executeSwap]), with
    further properties of the code (numbered X1, X2, ...).

    Modelling conventions:
    - a JavaScript string is the list of its UTF-16 code units ([jsstring]);
    - a JavaScript [number] that holds an amount is an exact rational ([Q]);
      rounding, NaN and infinities of IEEE doubles are not represented;
    - a thrown [Error] is a value of [JsError]; an [async] method is a state
      transformer over [World] that returns a [Completion];
    - everything the platform decides (random bytes, the clock, the replies of
      the network) is an explicit argument of the operation that asks for it;
      the network and the secure store may fail, the key generators, which
      run on the device, always return;
    - a Wallet is stored and passed as the record it is when the call is
      made; where the source changes a field of an object and then hands the
      object to the registry, the model hands over the changed record;
    - a call runs to its end before the next one starts: two [async] methods
      that interleave at an [await] are not represented. *)

From Stdlib Require Import String Ascii Bool NArith ZArith QArith List Lia.
From Stdlib Require Import Qround DecimalString.
Import ListNotations.

Local Close Scope Q_scope.

(** ** JavaScript strings *)

Definition jsstring := list N.

(** A string literal of the source, as code units. *)
Definition str (s : string) : jsstring :=
  map N_of_ascii (list_ascii_of_string s).

(** [a === b] on strings. *)
Fixpoint streq (a b : jsstring) : bool :=
  match a, b with
  | [], [] => true
  | x :: a', y :: b' => (x =? y)%N && streq a' b'
  | _, _ => false
  end.

(** [String.fromCharCode(n)]: the argument is taken modulo 2^16. *)
Definition fromCharCode (n : N) : N := (n mod 65536)%N.

(** A string all of whose code units are at most 255 (a "binary string"). *)
Definition byte_string (s : jsstring) : Prop := Forall (fun c => (c < 256)%N) s.

Definition is_byte_string (s : jsstring) : bool := forallb (fun c => (c <? 256)%N) s.

(** [Array.prototype.map] with the index argument. *)
Fixpoint mapi_from {A B : Type} (f : A -> nat -> B) (i : nat) (l : list A) : list B :=
  match l with
  | [] => []
  | x :: l' => f x i :: mapi_from f (S i) l'
  end.

Definition mapi {A B : Type} (f : A -> nat -> B) (l : list A) : list B :=
  mapi_from f 0 l.

(** The decimal rendering of a non-negative integer in a template literal. *)
Definition decimal (n : N) : jsstring := str (NilEmpty.string_of_uint (N.to_uint n)).

(** A typed array of bytes stores every element modulo 256. *)
Definition Uint8Array (l : list N) : list N := map (fun b => (b mod 256)%N) l.

Definition hexDigit (d : N) : N := if (d <? 10)%N then (48 + d)%N else (87 + d)%N.

(** [byte.toString(16).padStart(2, '0')] for an element of a [Uint8Array]. *)
Definition hex2 (byte : N) : jsstring := [hexDigit (byte / 16); hexDigit (byte mod 16)].

(** [Array.from(bytes, byte => byte.toString(16).padStart(2, '0')).join('')]. *)
Definition hexOfBytes (bytes : list N) : jsstring := flat_map hex2 bytes.

(** ** Base64: the platform functions [btoa] and [atob]

    These are the functions of the HTML standard ("forgiving-base64"), which
    the source calls as globals. [None] stands for the exception they raise. *)

Module Base64.

Definition code_of_sextet (i : N) : N :=
  (if i <? 26 then 65 + i
   else if i <? 52 then 71 + i
   else if i <? 62 then i - 4
   else if i =? 62 then 43
   else 47)%N.

Definition sextet_of_code (c : N) : option N :=
  (if (65 <=? c) && (c <=? 90) then Some (c - 65)
   else if (97 <=? c) && (c <=? 122) then Some (c - 71)
   else if (48 <=? c) && (c <=? 57) then Some (c + 4)
   else if c =? 43 then Some 62
   else if c =? 47 then Some 63
   else None)%N.

Definition pad : N := 61%N.

Fixpoint sextets_of_bytes (bs : list N) : list N :=
  (match bs with
   | a :: b :: c :: rest =>
       let n := a * 65536 + b * 256 + c in
       n / 262144 :: (n / 4096) mod 64 :: (n / 64) mod 64 :: n mod 64
         :: sextets_of_bytes rest
   | [a; b] =>
       let n := a * 65536 + b * 256 in
       [n / 262144; (n / 4096) mod 64; (n / 64) mod 64]
   | [a] =>
       let n := a * 65536 in
       [n / 262144; (n / 4096) mod 64]
   | [] => []
   end)%N.

Fixpoint padding (bs : list N) : list N :=
  match bs with
  | _ :: _ :: _ :: rest => padding rest
  | [_; _] => [pad]
  | [_] => [pad; pad]
  | [] => []
  end.

Definition btoa (s : jsstring) : option jsstring :=
  if is_byte_string s
  then Some (map code_of_sextet (sextets_of_bytes s) ++ padding s)
  else None.

Definition is_ascii_whitespace (c : N) : bool :=
  ((c =? 9) || (c =? 10) || (c =? 12) || (c =? 13) || (c =? 32))%N.

(** Remove one or two trailing [=] signs. *)
Definition strip_padding (s : jsstring) : jsstring :=
  match rev s with
  | p :: q :: r =>
      if (p =? pad)%N then (if (q =? pad)%N then rev r else rev (q :: r)) else s
  | [p] => if (p =? pad)%N then [] else s
  | [] => s
  end.

Fixpoint sextets_of_codes (s : jsstring) : option (list N) :=
  match s with
  | [] => Some []
  | c :: s' =>
      match sextet_of_code c, sextets_of_codes s' with
      | Some i, Some l => Some (i :: l)
      | _, _ => None
      end
  end.

Fixpoint bytes_of_sextets (sx : list N) : list N :=
  (match sx with
   | a :: b :: c :: d :: rest =>
       let n := ((a * 64 + b) * 64 + c) * 64 + d in
       n / 65536 :: (n / 256) mod 256 :: n mod 256 :: bytes_of_sextets rest
   | [a; b; c] =>
       let n := ((a * 64 + b) * 64 + c) * 64 in
       [n / 65536; (n / 256) mod 256]
   | [a; b] =>
       let n := (a * 64 + b) * 4096 in
       [n / 65536]
   | _ => []
   end)%N.

Definition atob (data : jsstring) : option jsstring :=
  let d := filter (fun c => negb (is_ascii_whitespace c)) data in
  let d := if (length d mod 4 =? 0)%nat then strip_padding d else d in
  if (length d mod 4 =? 1)%nat then None
  else match sextets_of_codes d with
       | Some sx => Some (bytes_of_sextets sx)
       | None => None
       end.

End Base64.

(** ** Errors, completions and the world *)

(** [new Error(message)]; [cause] is the optional second argument, which no
    [throw] of the source supplies. *)
#[local] Set Warnings "-register-all".
Inductive JsError : Type :=
| Error (message : jsstring) (cause : option JsError).

Definition message (e : JsError) : jsstring :=
  match e with Error m _ => m end.

Definition cause (e : JsError) : option JsError :=
  match e with Error _ c => c end.

Inductive Completion (A : Type) : Type :=
| Return (a : A)
| Throw (e : JsError).

Arguments Return {A} a.
Arguments Throw {A} e.


(** [console.error(label, error)] and [console.log(label)]. Of a template
    literal the text before its first interpolated number is kept. *)
Inductive LogLine : Type :=
| ConsoleError (label : jsstring) (error : JsError)
| ConsoleLog (label : jsstring).

(** A request that leaves the device. *)
Inductive NetCall : Type :=
| NetEthGetBalance (address : jsstring)
| NetBtcFetchAddress (address : jsstring)
| NetSolGetBalance (address : jsstring)
| NetEthGetFeeData
| NetEthSendTransaction (to : jsstring) (value : Q) (gasLimit : N) (gasPrice : Q)
| NetEthWait (hash : jsstring).

(** ** [Map<string, V>]: keys in insertion order, one entry per key *)

Module JsMap.

Definition t (V : Type) : Type := list (jsstring * V).

Definition empty {V : Type} : t V := [].

Fixpoint get {V : Type} (k : jsstring) (m : t V) : option V :=
  match m with
  | [] => None
  | (k', v) :: m' => if streq k' k then Some v else get k m'
  end.

(** [set] keeps the position of a key that is already present. *)
Fixpoint set {V : Type} (k : jsstring) (v : V) (m : t V) : t V :=
  match m with
  | [] => [(k, v)]
  | (k', v') :: m' => if streq k' k then (k', v) :: m' else (k', v') :: set k v m'
  end.

Fixpoint delete {V : Type} (k : jsstring) (m : t V) : t V :=
  match m with
  | [] => []
  | (k', v') :: m' => if streq k' k then m' else (k', v') :: delete k m'
  end.

Definition has {V : Type} (k : jsstring) (m : t V) : bool :=
  match get k m with Some _ => true | None => false end.

Definition keys {V : Type} (m : t V) : list jsstring := map fst m.

Definition values {V : Type} (m : t V) : list V := map snd m.

End JsMap.

(** ** The types of [src/types/index.ts] *)

(** [CryptoType] is an enum of strings; at run time any string can arrive
    where one is expected, and the [default:] branches of the source handle
    that case, so the model keeps the string. *)
Module CryptoType.
Definition ETHEREUM : jsstring := str "ethereum".
Definition BITCOIN : jsstring := str "bitcoin".
Definition SOLANA : jsstring := str "solana".
End CryptoType.

Inductive TransactionType : Type := SEND | RECEIVE | SWAP.

Inductive TransactionStatus : Type := PENDING | CONFIRMED | FAILED.

Module Wallet.
Record t : Type := mk {
  id : jsstring;
  userId : jsstring;
  name : jsstring;
  type : jsstring;
  address : jsstring;
  privateKey : jsstring;
  balance : Q;
  symbol : jsstring;
  decimals : N;
  createdAt : N;
  updatedAt : N
}.

(** [wallet.balance = b]. *)
Definition set_balance (b : Q) (w : t) : t :=
  mk (id w) (userId w) (name w) (type w) (address w) (privateKey w) b
     (symbol w) (decimals w) (createdAt w) (updatedAt w).

(** [wallet.updatedAt = d]. *)
Definition set_updatedAt (d : N) (w : t) : t :=
  mk (id w) (userId w) (name w) (type w) (address w) (privateKey w) (balance w)
     (symbol w) (decimals w) (createdAt w) d.
End Wallet.

Abbreviation Wallet := Wallet.t.

Module Transaction.
Record t : Type := mk {
  id : jsstring;
  walletId : jsstring;
  type : TransactionType;
  amount : Q;
  fee : Q;
  fromAddress : jsstring;
  toAddress : jsstring;
  hash : jsstring;
  status : TransactionStatus;
  timestamp : N;
  gasUsed : option Q;
  gasPrice : option Q
}.
End Transaction.

Abbreviation Transaction := Transaction.t.

(** ** The state of the two singletons, and what they have written out *)

Record World : Type := mkWorld {
  wallets : JsMap.t Wallet;          (* WalletService.wallets *)
  encryptionKey : option jsstring;   (* SecurityManager.encryptionKey *)
  console : list LogLine;
  network : list NetCall
}.

(** The state at start-up: [new Map()], [encryptionKey = null]. *)
Definition initialWorld : World := mkWorld JsMap.empty None [] [].

(** An [async] method: it runs in a world and completes normally or throws. *)
Definition M (A : Type) : Type := World -> Completion A * World.

Definition ret {A : Type} (a : A) : M A := fun w => (Return a, w).

Definition throw {A : Type} (e : JsError) : M A := fun w => (Throw e, w).

Definition bind {A B : Type} (m : M A) (k : A -> M B) : M B :=
  fun w =>
    match m w with
    | (Return a, w') => k a w'
    | (Throw e, w') => (Throw e, w')
    end.

(** [try { body } catch (error) { handler }]. *)
Definition try_catch {A : Type} (body : M A) (handler : JsError -> M A) : M A :=
  fun w =>
    match body w with
    | (Return a, w') => (Return a, w')
    | (Throw e, w') => handler e w'
    end.

(** [await] of a reply that the platform has already decided. *)
Definition await {A : Type} (reply : Completion A) : M A := fun w => (reply, w).

Definition get_world : M World := fun w => (Return w, w).

Definition console_error (label : jsstring) (error : JsError) : M unit :=
  fun w => (Return tt,
            mkWorld (wallets w) (encryptionKey w)
                    (console w ++ [ConsoleError label error]) (network w)).

Definition console_log (label : jsstring) : M unit :=
  fun w => (Return tt,
            mkWorld (wallets w) (encryptionKey w)
                    (console w ++ [ConsoleLog label]) (network w)).

Definition net_call (c : NetCall) : M unit :=
  fun w => (Return tt,
            mkWorld (wallets w) (encryptionKey w) (console w) (network w ++ [c])).

Definition set_encryptionKey (k : option jsstring) : M unit :=
  fun w => (Return tt, mkWorld (wallets w) k (console w) (network w)).

(** [this.wallets.set(k, v)]. *)
Definition wallets_set (k : jsstring) (v : Wallet) : M unit :=
  fun w => (Return tt,
            mkWorld (JsMap.set k v (wallets w)) (encryptionKey w) (console w) (network w)).

Declare Scope js_scope.
Delimit Scope js_scope with js.
Notation "x <- m ;; k" := (bind m (fun x => k))
  (at level 61, m at next level, right associativity) : js_scope.
Notation "m ;; k" := (bind m (fun _ => k))
  (at level 61, right associativity) : js_scope.
Open Scope js_scope.

(** The result and the final world of a call. *)
Definition result {A : Type} (m : M A) (w : World) : Completion A := fst (m w).
Definition after {A : Type} (m : M A) (w : World) : World := snd (m w).

(** [x || 0] on a number. *)
Definition or_zero (x : Q) : Q := if Qeq_bool x 0 then 0%Q else x.

(** [x || ...] on an optional number: the value when it is truthy. *)
Definition truthy (x : option Q) : option Q :=
  match x with
  | Some v => if Qeq_bool v 0 then None else Some v
  | None => None
  end.

(** ** SecurityManager ([src/utils/security.ts]) *)

(** The exception of [btoa] and [atob]. *)
Definition InvalidCharacterError : JsError := Error (str "InvalidCharacterError") None.

Definition btoa (s : jsstring) : M jsstring :=
  match Base64.btoa s with
  | Some r => ret r
  | None => throw InvalidCharacterError
  end.

Definition atob (s : jsstring) : M jsstring :=
  match Base64.atob s with
  | Some r => ret r
  | None => throw InvalidCharacterError
  end.

(** What the secure store and the random source answer during [initialize]. *)
Record StoreEnv : Type := {
  getSecureItem : Completion (option jsstring);   (* the item ENCRYPTION_KEY *)
  keyRandomBytes : list N;                        (* Crypto.getRandomBytesAsync(32) *)
  setSecureItem : Completion unit
}.

Definition generateEncryptionKey (env : StoreEnv) : M jsstring :=
  ret (hexOfBytes (Uint8Array (keyRandomBytes env))).

(** [!this.encryptionKey]: [null] and the empty string are falsy. *)
Definition usable_key (k : option jsstring) : option jsstring :=
  match k with
  | Some (c :: k') => Some (c :: k')
  | _ => None
  end.

Definition initialize (env : StoreEnv) : M unit :=
  try_catch
    (stored <- await (getSecureItem env) ;;
     set_encryptionKey stored ;;
     match usable_key stored with
     | Some _ => ret tt
     | None =>
         key <- generateEncryptionKey env ;;
         set_encryptionKey (Some key) ;;
         await (setSecureItem env)
     end)
    (fun error =>
       console_error (str "Failed to initialize security manager:") error ;;
       throw (Error (str "Security initialization failed") None)).

(** The body shared by both directions: every character is XOR-ed with the
    key character at [index % key.length]. *)
Definition xorWithKey (key : jsstring) (text : jsstring) : jsstring :=
  mapi (fun char index =>
          fromCharCode (N.lxor char (nth (index mod length key) key 0%N)))
       text.

Definition encryptPrivateKey (privateKey : jsstring) : M jsstring :=
  w <- get_world ;;
  match usable_key (encryptionKey w) with
  | None => throw (Error (str "Security manager not initialized") None)
  | Some key =>
      try_catch
        (btoa (xorWithKey key privateKey))
        (fun error =>
           console_error (str "Encryption failed:") error ;;
           throw (Error (str "Failed to encrypt private key") None))
  end.

Definition decryptPrivateKey (encryptedPrivateKey : jsstring) : M jsstring :=
  w <- get_world ;;
  match usable_key (encryptionKey w) with
  | None => throw (Error (str "Security manager not initialized") None)
  | Some key =>
      try_catch
        (encrypted <- atob encryptedPrivateKey ;;
         ret (xorWithKey key encrypted))
        (fun error =>
           console_error (str "Decryption failed:") error ;;
           throw (Error (str "Failed to decrypt private key") None))
  end.

(** [hashPassword] and [verifyPassword]; [digestStringAsync] is
    [Crypto.digestStringAsync(SHA256, _)] of expo-crypto. *)
Definition hashPassword (digestStringAsync : jsstring -> Completion jsstring)
  (password : jsstring) : M jsstring :=
  try_catch
    (await (digestStringAsync password))
    (fun error =>
       console_error (str "Failed to hash password:") error ;;
       throw (Error (str "Failed to hash password") None)).

Definition verifyPassword (digestStringAsync : jsstring -> Completion jsstring)
  (password hash : jsstring) : M bool :=
  try_catch
    (passwordHash <- hashPassword digestStringAsync password ;;
     ret (streq passwordHash hash))
    (fun error =>
       console_error (str "Failed to verify password:") error ;;
       ret false).

(** ** Constants of [src/constants/crypto.ts] *)

(** [NETWORKS[cryptoType].symbol]; reading [.symbol] of a missing entry is a
    TypeError. *)
Definition NETWORKS_symbol (cryptoType : jsstring) : M jsstring :=
  if streq cryptoType CryptoType.ETHEREUM then ret (str "ETH")
  else if streq cryptoType CryptoType.BITCOIN then ret (str "BTC")
  else if streq cryptoType CryptoType.SOLANA then ret (str "SOL")
  else throw (Error (str "TypeError: Cannot read properties of undefined") None).

(** [GAS_LIMITS[CryptoType.ETHEREUM].transfer]. *)
Definition GAS_LIMIT_ETHEREUM_transfer : N := 21000%N.

Definition LAMPORTS_PER_SOL : Q := 1000000000%Q.

(** ** WalletService *)

(** What the key generators and the clock return during one [createWallet]. *)
Record KeyGenEnv : Type := {
  ethers_createRandom : jsstring * jsstring;     (* address, privateKey *)
  getRandomBytesAsync : list N;                  (* Crypto.getRandomBytesAsync(32) *)
  Keypair_generate : jsstring * list N;          (* publicKey.toString(), secretKey *)
  id_Date_now : N;                               (* Date.now() in the id *)
  createdAt_Date : N;
  updatedAt_Date : N
}.

Definition getDecimals (cryptoType : jsstring) : N :=
  if streq cryptoType CryptoType.ETHEREUM then 18%N
  else if streq cryptoType CryptoType.BITCOIN then 8%N
  else if streq cryptoType CryptoType.SOLANA then 9%N
  else 18%N.

(** The [switch] of [createWallet]: address and private key for the chain. *)
Definition generateKeys (env : KeyGenEnv) (cryptoType : jsstring) : M (jsstring * jsstring) :=
  if streq cryptoType CryptoType.ETHEREUM then
    ret (ethers_createRandom env)
  else if streq cryptoType CryptoType.BITCOIN then
    let hexString := hexOfBytes (Uint8Array (getRandomBytesAsync env)) in
    ret (str "bc1" ++ firstn 40 hexString, hexString)
  else if streq cryptoType CryptoType.SOLANA then
    let secretKeyArray := Uint8Array (snd (Keypair_generate env)) in
    privateKey <- btoa (map fromCharCode secretKeyArray) ;;
    ret (fst (Keypair_generate env), privateKey)
  else
    throw (Error (str "Unsupported crypto type: " ++ cryptoType) None).

Definition createWallet (env : KeyGenEnv) (userId cryptoType name : jsstring) : M Wallet :=
  try_catch
    (keys <- generateKeys env cryptoType ;;
     encryptedPrivateKey <- encryptPrivateKey (snd keys) ;;
     symbol <- NETWORKS_symbol cryptoType ;;
     let wallet :=
       Wallet.mk (cryptoType ++ str "_" ++ decimal (id_Date_now env))
                 userId name cryptoType (fst keys) encryptedPrivateKey 0%Q
                 symbol (getDecimals cryptoType)
                 (createdAt_Date env) (updatedAt_Date env) in
     wallets_set (Wallet.id wallet) wallet ;;
     ret wallet)
    (fun error =>
       console_error (str "Failed to create wallet:") error ;;
       throw (Error (str "Failed to create wallet") None)).

(** What the Ethereum library, the network and the clock answer during one
    [sendTransaction]. *)
Record SendEnv : Type := {
  ethers_Wallet : jsstring -> Completion unit;   (* new ethers.Wallet(privateKey, provider) *)
  getFeeData : Completion Q;                     (* provider.getFeeData(): gasPrice *)
  parseEther : Q -> Completion Q;                (* ethers.parseEther(amount.toString()) *)
  wallet_sendTransaction :                       (* tx.hash of wallet.sendTransaction(...) *)
    jsstring -> jsstring -> Q -> Q -> Completion jsstring;
  tx_wait : jsstring -> Completion (option Q);   (* receipt?.gasUsed of tx.wait() *)
  hash_Date_now : N;                             (* Date.now() in a simulated hash *)
  Math_random_36 : jsstring;                     (* Math.random().toString(36).substring(2) *)
  tx_Date_now : N;                               (* Date.now() in the transaction id *)
  timestamp_Date : N
}.

(** Loading the configuration and constructing the provider send nothing and
    cannot fail ([configService.getConfig] falls back to the defaults); the
    steps that can fail or reach the network are kept, in their order. *)
Definition sendEthereumTransaction (env : SendEnv)
  (privateKey toAddress : jsstring) (amount : Q) (fee : option Q)
  : M (jsstring * Q * Q) :=
  await (ethers_Wallet env privateKey) ;;
  gasPrice <- match truthy fee with
              | Some f => ret f
              | None => net_call NetEthGetFeeData ;; await (getFeeData env)
              end ;;
  let gasLimit := GAS_LIMIT_ETHEREUM_transfer in
  value <- await (parseEther env amount) ;;
  net_call (NetEthSendTransaction toAddress value gasLimit gasPrice) ;;
  hash <- await (wallet_sendTransaction env privateKey toAddress value gasPrice) ;;
  net_call (NetEthWait hash) ;;
  receiptGasUsed <- await (tx_wait env hash) ;;
  ret (hash,
       match receiptGasUsed with Some g => or_zero g | None => 0%Q end,
       gasPrice).

(** Simulated: a log line, a timer, a made-up hash. *)
Definition sendBitcoinTransaction (env : SendEnv)
  (privateKey toAddress : jsstring) (amount : Q) (fee : option Q) : M jsstring :=
  console_log (str "Simulating Bitcoin transaction") ;;
  ret (str "btc_tx_" ++ decimal (hash_Date_now env) ++ str "_" ++ Math_random_36 env).

Definition sendSolanaTransaction (env : SendEnv)
  (privateKey toAddress : jsstring) (amount : Q) (fee : option Q) : M jsstring :=
  try_catch
    (console_log (str "Simulating Solana transaction") ;;
     ret (str "sol_tx_" ++ decimal (hash_Date_now env) ++ str "_" ++ Math_random_36 env))
    (fun error =>
       console_error (str "Solana transaction failed:") error ;;
       throw (Error (str "Failed to send Solana transaction") None)).

(** The [switch] of [sendTransaction]: hash, gasUsed and gasPrice. *)
Definition adapterStage (env : SendEnv) (walletType : jsstring)
  (privateKey toAddress : jsstring) (amount : Q) (fee : option Q)
  : M (jsstring * option Q * option Q) :=
  if streq walletType CryptoType.ETHEREUM then
    ethResult <- sendEthereumTransaction env privateKey toAddress amount fee ;;
    ret (fst (fst ethResult), Some (snd (fst ethResult)), Some (snd ethResult))
  else if streq walletType CryptoType.BITCOIN then
    txHash <- sendBitcoinTransaction env privateKey toAddress amount fee ;;
    ret (txHash, None, None)
  else if streq walletType CryptoType.SOLANA then
    txHash <- sendSolanaTransaction env privateKey toAddress amount fee ;;
    ret (txHash, None, None)
  else
    throw (Error (str "Unsupported crypto type: " ++ walletType) None).

Definition sendTransaction (env : SendEnv)
  (walletId toAddress : jsstring) (amount : Q) (fee : option Q) : M Transaction :=
  w <- get_world ;;
  match JsMap.get walletId (wallets w) with
  | None => throw (Error (str "Wallet not found") None)
  | Some wallet =>
      try_catch
        (privateKey <- decryptPrivateKey (Wallet.privateKey wallet) ;;
         sent <- adapterStage env (Wallet.type wallet) privateKey toAddress amount fee ;;
         let transaction :=
           Transaction.mk (str "tx_" ++ decimal (tx_Date_now env))
                          walletId SEND amount
                          (match truthy fee with Some f => f | None => 0%Q end)
                          (Wallet.address wallet) toAddress
                          (fst (fst sent)) PENDING (timestamp_Date env)
                          (snd (fst sent)) (snd sent) in
         ret transaction)
        (fun error =>
           console_error (str "Failed to send transaction:") error ;;
           throw (Error (str "Failed to send transaction") None))
  end.

(** What the chain endpoints and the clock answer during one [getBalance]. *)
Record BalanceEnv : Type := {
  provider_getBalance : jsstring -> Completion Q;    (* in ether, after formatEther *)
  fetch_funded_txo_sum : jsstring -> Completion Q;   (* data.chain_stats.funded_txo_sum *)
  new_PublicKey : jsstring -> Completion unit;       (* new PublicKey(address) *)
  connection_getBalance : jsstring -> Completion Q;  (* in lamports *)
  balance_Date : N
}.

(** The three chain helpers: the request, and a [catch] that answers [0]. *)
Definition getEthereumBalance (env : BalanceEnv) (address : jsstring) : M Q :=
  try_catch
    (net_call (NetEthGetBalance address) ;;
     await (provider_getBalance env address))
    (fun error =>
       console_error (str "Failed to get Ethereum balance:") error ;;
       ret 0%Q).

Definition getBitcoinBalance (env : BalanceEnv) (address : jsstring) : M Q :=
  try_catch
    (net_call (NetBtcFetchAddress address) ;;
     funded <- await (fetch_funded_txo_sum env address) ;;
     ret (funded / 100000000)%Q)
    (fun error =>
       console_error (str "Failed to get Bitcoin balance:") error ;;
       ret 0%Q).

Definition getSolanaBalance (env : BalanceEnv) (address : jsstring) : M Q :=
  try_catch
    (await (new_PublicKey env address) ;;
     net_call (NetSolGetBalance address) ;;
     balance <- await (connection_getBalance env address) ;;
     ret (balance / LAMPORTS_PER_SOL)%Q)
    (fun error =>
       console_error (str "Failed to get Solana balance:") error ;;
       ret 0%Q).

(** The [switch] of [getBalance]. *)
Definition queryBalance (env : BalanceEnv) (wallet : Wallet) : M Q :=
  if streq (Wallet.type wallet) CryptoType.ETHEREUM then
    getEthereumBalance env (Wallet.address wallet)
  else if streq (Wallet.type wallet) CryptoType.BITCOIN then
    getBitcoinBalance env (Wallet.address wallet)
  else if streq (Wallet.type wallet) CryptoType.SOLANA then
    getSolanaBalance env (Wallet.address wallet)
  else
    ret (or_zero (Wallet.balance wallet)).

Definition getBalance (env : BalanceEnv) (walletId : jsstring) : M Q :=
  w <- get_world ;;
  match JsMap.get walletId (wallets w) with
  | None => throw (Error (str "Wallet not found") None)
  | Some wallet =>
      try_catch
        (balance <- queryBalance env wallet ;;
         wallets_set walletId
           (Wallet.set_updatedAt (balance_Date env) (Wallet.set_balance balance wallet)) ;;
         ret balance)
        (fun error =>
           console_error (str "Failed to get balance for " ++ Wallet.type wallet ++ str ":") error ;;
           ret (or_zero (Wallet.balance wallet)))
  end.

Definition getWallet (walletId : jsstring) (w : World) : option Wallet :=
  JsMap.get walletId (wallets w).

Definition getWalletsByUserId (userId : jsstring) (w : World) : list Wallet :=
  filter (fun wallet => streq (Wallet.userId wallet) userId) (JsMap.values (wallets w)).

Definition updateWallet (now : N) (wallet : Wallet) : M unit :=
  wallets_set (Wallet.id wallet) (Wallet.set_updatedAt now wallet).

Definition deleteWallet (walletId : jsstring) : M bool :=
  fun w => (Return (JsMap.has walletId (wallets w)),
            mkWorld (JsMap.delete walletId (wallets w)) (encryptionKey w)
                    (console w) (network w)).

(** The demo wallets. [Math_random i] and [update_Date i] are what
    [Math.random()] and [new Date()] return while [forEach] handles its
    [i]-th wallet. *)
Record DemoEnv : Type := {
  eth_env : KeyGenEnv;
  btc_env : KeyGenEnv;
  sol_env : KeyGenEnv;
  Math_random : nat -> Q;
  update_Date : nat -> N
}.

(** [parseFloat(x.toFixed(6))]: [x] rounded to six decimals. *)
Definition toFixed6 (x : Q) : Q :=
  Qmake (Qfloor (x * 1000000 + (1 # 2))%Q) 1000000.

Definition demoBalance (random : Q) (walletType : jsstring) : Q :=
  if streq walletType CryptoType.ETHEREUM then ((1 # 10) + random * (49 # 10))%Q
  else if streq walletType CryptoType.BITCOIN then ((1 # 1000) + random * (99 # 1000))%Q
  else if streq walletType CryptoType.SOLANA then (5 + random * 95)%Q
  else 0%Q.

(** [array.forEach(callback)]. *)
Fixpoint forEach_from {A : Type} (callback : A -> nat -> M unit) (i : nat) (l : list A)
  : M unit :=
  match l with
  | [] => ret tt
  | x :: l' => callback x i ;; forEach_from callback (S i) l'
  end.

Definition forEach {A : Type} (callback : A -> nat -> M unit) (l : list A) : M unit :=
  forEach_from callback 0 l.

Definition initializeDemoWallets (env : DemoEnv) (userId : jsstring) : M unit :=
  w <- get_world ;;
  let existingWallets := getWalletsByUserId userId w in
  if (0 <? length existingWallets)%nat then ret tt
  else
    try_catch
      (createWallet (eth_env env) userId CryptoType.ETHEREUM (str "My ETH Wallet") ;;
       createWallet (btc_env env) userId CryptoType.BITCOIN (str "My BTC Wallet") ;;
       createWallet (sol_env env) userId CryptoType.SOLANA (str "My SOL Wallet") ;;
       w' <- get_world ;;
       let userWallets := getWalletsByUserId userId w' in
       forEach
         (fun wallet i =>
            let balance := demoBalance (Math_random env i) (Wallet.type wallet) in
            updateWallet (update_Date env i)
                         (Wallet.set_balance (toFixed6 balance) wallet))
         userWallets ;;
       console_log (str "Demo wallets initialized for user:"))
      (fun error =>
         console_error (str "Failed to initialize demo wallets:") error).

(** ** The send form of [src/screens/SendScreen.tsx] *)

(** White space and line terminators of ECMAScript, as [trim] removes them. *)
Definition is_js_whitespace (c : N) : bool :=
  ((9 <=? c) && (c <=? 13) || (c =? 32) || (c =? 160) || (c =? 5760)
   || (8192 <=? c) && (c <=? 8202) || (c =? 8232) || (c =? 8233) || (c =? 8239)
   || (c =? 8287) || (c =? 12288) || (c =? 65279))%N.

(** [!s.trim()]. *)
Definition trim_is_empty (s : jsstring) : bool := forallb is_js_whitespace s.

Record SendForm : Type := {
  recipientAddress : jsstring;
  amount : jsstring;
  selectedWallet : option Wallet
}.

Record FormErrors : Type := {
  address_error : option jsstring;
  amount_error : option jsstring
}.

(** The object [newErrors] of [validateForm]. [parseFloat] is the platform
    function; [None] is NaN. *)
Definition newErrors (parseFloat : jsstring -> option Q) (form : SendForm) : FormErrors :=
  {| address_error :=
       if trim_is_empty (recipientAddress form) then
         Some (str "Recipient address is required")
       else if (length (recipientAddress form) <? 20)%nat then
         Some (str "Please enter a valid wallet address")
       else None;
     amount_error :=
       if trim_is_empty (amount form) then Some (str "Amount is required")
       else match parseFloat (amount form) with
            | None => Some (str "Please enter a valid amount")
            | Some a =>
                if Qle_bool a 0 then Some (str "Please enter a valid amount")
                else match selectedWallet form with
                     | Some wallet =>
                         if negb (Qle_bool a (Wallet.balance wallet))
                         then Some (str "Insufficient balance")
                         else None
                     | None => None
                     end
            end |}.

(** [Object.keys(newErrors).length === 0]. *)
Definition validateForm (parseFloat : jsstring -> option Q) (form : SendForm) : bool :=
  match address_error (newErrors parseFloat form), amount_error (newErrors parseFloat form) with
  | None, None => true
  | _, _ => false
  end.

Inductive SendOutcome : Type :=
| NotSubmitted (errors : FormErrors)        (* handleSend returned at its guard *)
| TransactionSent (result : Transaction)    (* the alert 'Transaction Sent' *)
| TransactionFailed (text : jsstring).      (* the alert 'Transaction Failed' *)

Definition handleSend (parseFloat : jsstring -> option Q) (env : SendEnv)
  (form : SendForm) : World -> SendOutcome * World :=
  fun w =>
    if negb (validateForm parseFloat form) then (NotSubmitted (newErrors parseFloat form), w)
    else
      match selectedWallet form, parseFloat (amount form) with
      | Some wallet, Some a =>
          match sendTransaction env (Wallet.id wallet) (recipientAddress form) a None w with
          | (Return result, w') => (TransactionSent result, w')
          | (Throw error, w') => (TransactionFailed (message error), w')
          end
      | _, _ => (NotSubmitted (newErrors parseFloat form), w)
      end.

(** ** SHA-256 and UTF-8: what [Crypto.digestStringAsync] computes

    expo-crypto hashes the UTF-8 bytes of the string and returns the digest
    in lower-case hexadecimal. The functions follow FIPS 180-4. *)

Module SHA256.

Definition add32 (x y : N) : N := ((x + y) mod 4294967296)%N.

Definition rotr (n x : N) : N :=
  N.lor (N.shiftr x n) ((N.shiftl x (32 - n)) mod 4294967296)%N.

Definition Ch (x y z : N) : N :=
  N.lxor (N.land x y) (N.land (N.lxor x 0xffffffff) z).

Definition Maj (x y z : N) : N :=
  N.lxor (N.lxor (N.land x y) (N.land x z)) (N.land y z).

Definition Sigma0 (x : N) : N := N.lxor (N.lxor (rotr 2 x) (rotr 13 x)) (rotr 22 x).
Definition Sigma1 (x : N) : N := N.lxor (N.lxor (rotr 6 x) (rotr 11 x)) (rotr 25 x).
Definition sigma0 (x : N) : N := N.lxor (N.lxor (rotr 7 x) (rotr 18 x)) (N.shiftr x 3).
Definition sigma1 (x : N) : N := N.lxor (N.lxor (rotr 17 x) (rotr 19 x)) (N.shiftr x 10).

Definition primes64 : list N :=
  [2; 3; 5; 7; 11; 13; 17; 19; 23; 29; 31; 37; 41; 43; 47; 53; 59; 61; 67; 71; 73; 79;
   83; 89; 97; 101; 103; 107; 109; 113; 127; 131; 137; 139; 149; 151; 157; 163; 167;
   173; 179; 181; 191; 193; 197; 199; 211; 223; 227; 229; 233; 239; 241; 251; 257; 263;
   269; 271; 277; 281; 283; 293; 307; 311]%N.

(** The integer cube root, found bit by bit from [2^bits] down. *)
Fixpoint cube_root (bits : nat) (n acc : N) : N :=
  match bits with
  | O => acc
  | S bits' =>
      let candidate := (acc + 2 ^ N.of_nat bits')%N in
      if (candidate * candidate * candidate <=? n)%N
      then cube_root bits' n candidate
      else cube_root bits' n acc
  end.

(** The round constants: the first 32 bits of the fractional parts of the
    cube roots of the first 64 primes. *)
Definition K : list N :=
  Eval vm_compute in
    map (fun p => (cube_root 36 (p * 2 ^ 96) 0 mod 4294967296)%N) primes64.

(** The initial hash value: the same of the square roots of the first 8. *)
Definition H0 : list N :=
  Eval vm_compute in
    map (fun p => (N.sqrt (p * 2 ^ 64) mod 4294967296)%N) (firstn 8 primes64).

(** The [n] low bytes of [x], most significant first. *)
Fixpoint big_endian (n : nat) (x : N) : list N :=
  match n with
  | O => []
  | S n' => big_endian n' (x / 256)%N ++ [(x mod 256)%N]
  end.

Definition pad_message (msg : list N) : list N :=
  let zeros := ((64 - (length msg + 9) mod 64) mod 64)%nat in
  msg ++ [0x80%N] ++ repeat 0%N zeros ++ big_endian 8 (8 * N.of_nat (length msg))%N.

Fixpoint words (bytes : list N) : list N :=
  match bytes with
  | a :: b :: c :: d :: rest => (((a * 256 + b) * 256 + c) * 256 + d)%N :: words rest
  | _ => []
  end.

Fixpoint schedule (steps : nat) (W : list N) : list N :=
  match steps with
  | O => W
  | S steps' =>
      let t := length W in
      let w := add32 (add32 (sigma1 (nth (t - 2) W 0%N)) (nth (t - 7) W 0%N))
                     (add32 (sigma0 (nth (t - 15) W 0%N)) (nth (t - 16) W 0%N)) in
      schedule steps' (W ++ [w])
  end.

Definition round (state : list N) (kw : N * N) : list N :=
  match state with
  | [a; b; c; d; e; f; g; h] =>
      let T1 := add32 (add32 (add32 (add32 h (Sigma1 e)) (Ch e f g)) (fst kw)) (snd kw) in
      let T2 := add32 (Sigma0 a) (Maj a b c) in
      [add32 T1 T2; a; b; c; add32 d T1; e; f; g]
  | _ => state
  end.

Definition compress (H : list N) (block : list N) : list N :=
  let W := schedule 48 (words block) in
  map (fun p => add32 (fst p) (snd p)) (combine H (fold_left round (combine K W) H)).

Fixpoint blocks (count : nat) (bytes : list N) : list (list N) :=
  match count with
  | O => []
  | S count' => firstn 64 bytes :: blocks count' (skipn 64 bytes)
  end.

Definition sha256 (msg : list N) : list N :=
  let padded := pad_message msg in
  flat_map (big_endian 4) (fold_left compress (blocks (length padded / 64) padded) H0).

(** The UTF-8 bytes of a string; an unpaired surrogate becomes U+FFFD. *)
Fixpoint utf8 (s : jsstring) : list N :=
  (match s with
   | [] => []
   | c :: s' =>
       if c <? 0x80 then c :: utf8 s'
       else if c <? 0x800 then 0xC0 + c / 64 :: 0x80 + c mod 64 :: utf8 s'
       else if (0xD800 <=? c) && (c <? 0xDC00) then
         match s' with
         | d :: s'' =>
             if (0xDC00 <=? d) && (d <? 0xE000) then
               let cp := 0x10000 + (c - 0xD800) * 1024 + (d - 0xDC00) in
               0xF0 + cp / 262144 :: 0x80 + (cp / 4096) mod 64
                 :: 0x80 + (cp / 64) mod 64 :: 0x80 + cp mod 64 :: utf8 s''
             else 0xEF :: 0xBF :: 0xBD :: utf8 s'
         | [] => [0xEF; 0xBF; 0xBD]
         end
       else if (0xDC00 <=? c) && (c <? 0xE000) then 0xEF :: 0xBF :: 0xBD :: utf8 s'
       else 0xE0 + c / 4096 :: 0x80 + (c / 64) mod 64 :: 0x80 + c mod 64 :: utf8 s'
   end)%N.

End SHA256.

(** [Crypto.digestStringAsync(Crypto.CryptoDigestAlgorithm.SHA256, data)]. *)
Definition digestStringAsync_SHA256 (data : jsstring) : Completion jsstring :=
  Return (hexOfBytes (SHA256.sha256 (SHA256.utf8 data))).

(** ** Compositions and runs named by the properties *)

(** [decryptPrivateKey(await encryptPrivateKey(k))]. *)
Definition encryptThenDecrypt (privateKey : jsstring) : M jsstring :=
  encrypted <- encryptPrivateKey privateKey ;;
  decryptPrivateKey encrypted.

(** [verifyPassword(q, await hashPassword(p))]. *)
Definition hashThenVerify (digestStringAsync : jsstring -> Completion jsstring)
  (p q : jsstring) : M bool :=
  digest <- hashPassword digestStringAsync p ;;
  verifyPassword digestStringAsync q digest.

(** The error that the [default:] branch of [createWallet] creates. *)
Definition UnsupportedChainError (cryptoType : jsstring) : JsError :=
  Error (str "Unsupported crypto type: " ++ cryptoType) None.

(** A chain value outside the three of [CryptoType]. *)
Definition unsupported (cryptoType : jsstring) : Prop :=
  cryptoType <> CryptoType.ETHEREUM
  /\ cryptoType <> CryptoType.BITCOIN
  /\ cryptoType <> CryptoType.SOLANA.

(** A method that leaves one component of the world as it found it. *)
Definition keeps {X A : Type} (proj : World -> X) (m : M A) : Prop :=
  forall w, proj (snd (m w)) = proj w.

(** The balance query of the wallet's chain fails: the request sent for the
    wallet's address throws. *)
Definition chainQueryFails (env : BalanceEnv) (wallet : Wallet) : Prop :=
  (Wallet.type wallet = CryptoType.ETHEREUM
   /\ exists e, provider_getBalance env (Wallet.address wallet) = Throw e)
  \/ (Wallet.type wallet = CryptoType.BITCOIN
      /\ exists e, fetch_funded_txo_sum env (Wallet.address wallet) = Throw e)
  \/ (Wallet.type wallet = CryptoType.SOLANA
      /\ new_PublicKey env (Wallet.address wallet) = Return tt
      /\ exists e, connection_getBalance env (Wallet.address wallet) = Throw e).

(** The operations of the registry, each with what the platform answers. *)
Inductive RegistryOp : Type :=
| OpCreateWallet (env : KeyGenEnv) (userId cryptoType name : jsstring)
| OpUpdateWallet (now : N) (wallet : Wallet)
| OpDeleteWallet (walletId : jsstring)
| OpGetBalance (env : BalanceEnv) (walletId : jsstring).

Definition step (w : World) (op : RegistryOp) : World :=
  match op with
  | OpCreateWallet env userId cryptoType name =>
      after (createWallet env userId cryptoType name) w
  | OpUpdateWallet now wallet => after (updateWallet now wallet) w
  | OpDeleteWallet walletId => after (deleteWallet walletId) w
  | OpGetBalance env walletId => after (getBalance env walletId) w
  end.

Definition run (ops : list RegistryOp) (w : World) : World := fold_left step ops w.

(** One record per wallet id: no id occurs twice among the keys, and every
    record is stored under its own id. *)
Definition one_record_per_id (w : World) : Prop :=
  NoDup (JsMap.keys (wallets w))
  /\ Forall (fun entry => Wallet.id (snd entry) = fst entry) (wallets w).

(** Every id that is in the registry before and after has the same address. *)
Definition addresses_kept (w w' : World) : Prop :=
  forall walletId wallet wallet',
    JsMap.get walletId (wallets w) = Some wallet ->
    JsMap.get walletId (wallets w') = Some wallet' ->
    Wallet.address wallet' = Wallet.address wallet.

(** The operations that cannot replace a recorded address: every deletion and
    balance refresh, an update that carries the recorded address, a creation
    whose generated id is not in the registry yet. *)
Definition address_preserving (w : World) (op : RegistryOp) : Prop :=
  match op with
  | OpCreateWallet env _ cryptoType _ =>
      JsMap.get (cryptoType ++ str "_" ++ decimal (id_Date_now env)) (wallets w) = None
  | OpUpdateWallet _ wallet =>
      forall stored,
        JsMap.get (Wallet.id wallet) (wallets w) = Some stored ->
        Wallet.address wallet = Wallet.address stored
  | OpDeleteWallet _ => True
  | OpGetBalance _ _ => True
  end.

(** The two fields that are the state proper of the singletons. *)
Definition registry (w : World) : JsMap.t Wallet * option jsstring :=
  (wallets w, encryptionKey w).

(** A caller's copy of a record with another address: [{ ...wallet, address }]. *)
Definition readdressed (address : jsstring) (w : Wallet) : Wallet :=
  Wallet.mk (Wallet.id w) (Wallet.userId w) (Wallet.name w) (Wallet.type w) address
            (Wallet.privateKey w) (Wallet.balance w) (Wallet.symbol w)
            (Wallet.decimals w) (Wallet.createdAt w) (Wallet.updatedAt w).

(** The private key of [ethers.Wallet.createRandom()] is "0x" and 64
    hexadecimal digits: a binary string of 66 characters. *)
Definition ethereum_key_format (env : KeyGenEnv) : Prop :=
  byte_string (snd (ethers_createRandom env))
  /\ length (snd (ethers_createRandom env)) = 66.

(** [encryptPrivateKey] can succeed: there is a key, and [btoa] accepts the
    XOR-ed text. *)
Definition encryptable (w : World) (privateKey : jsstring) : bool :=
  match usable_key (encryptionKey w) with
  | Some key => is_byte_string (xorWithKey key privateKey)
  | None => false
  end.

(** The user has at least one wallet in the map. *)
Definition owns (userId : jsstring) (m : JsMap.t Wallet) : Prop :=
  exists entry, In entry m /\ Wallet.userId (snd entry) = userId.

(** A method that maintains a property of the registry map. *)
Definition stable {A : Type} (I : JsMap.t Wallet -> Prop) (m : M A) : Prop :=
  forall w, I (wallets w) -> I (wallets (snd (m w))).

(** ** Sample environments and worlds, for the examples *)

Definition keyGenEnv0 : KeyGenEnv :=
  {| ethers_createRandom :=
       (str "0x90F8bf6A479f320ead074411a4B0e7944Ea8c9C1",
        str "0x4f3edf983ac636a65a842ce7c78d9aa706d3b113bce9c46f30d7d21715b23b1d");
     getRandomBytesAsync :=
       [1; 35; 69; 103; 137; 171; 205; 239; 16; 50; 84; 118; 152; 186; 220; 254;
        0; 17; 34; 51; 68; 85; 102; 119; 136; 153; 170; 187; 204; 221; 238; 255]%N;
     Keypair_generate := (str "7EcDhSYGxXyscszYEp35KHN8vvw3svAuLKTzXwCFLtV", repeat 7%N 64);
     id_Date_now := 1700000000000%N;
     createdAt_Date := 1700000000000%N;
     updatedAt_Date := 1700000000000%N |}.

Definition demoKey : jsstring := str "00112233445566778899aabbccddeeff".

Definition worldWithKey : World := mkWorld JsMap.empty (Some demoKey) [] [].

(** One wallet per chain for "user_1", created at three different instants. *)
Definition keyGenEnv1 : KeyGenEnv :=
  {| ethers_createRandom := ethers_createRandom keyGenEnv0;
     getRandomBytesAsync := getRandomBytesAsync keyGenEnv0;
     Keypair_generate := Keypair_generate keyGenEnv0;
     id_Date_now := 1700000000001%N;
     createdAt_Date := 1700000000001%N;
     updatedAt_Date := 1700000000001%N |}.

Definition keyGenEnv2 : KeyGenEnv :=
  {| ethers_createRandom := ethers_createRandom keyGenEnv0;
     getRandomBytesAsync := getRandomBytesAsync keyGenEnv0;
     Keypair_generate := Keypair_generate keyGenEnv0;
     id_Date_now := 1700000000002%N;
     createdAt_Date := 1700000000002%N;
     updatedAt_Date := 1700000000002%N |}.

Definition worldWithWallets : World :=
  after (createWallet keyGenEnv2 (str "user_1") CryptoType.SOLANA (str "My SOL Wallet"))
    (after (createWallet keyGenEnv1 (str "user_1") CryptoType.BITCOIN (str "My BTC Wallet"))
       (after (createWallet keyGenEnv0 (str "user_1") CryptoType.ETHEREUM (str "My ETH Wallet"))
          worldWithKey)).

Definition ethWalletId : jsstring := str "ethereum_1700000000000".
Definition btcWalletId : jsstring := str "bitcoin_1700000000001".
Definition solWalletId : jsstring := str "solana_1700000000002".

(** A network that answers every Ethereum request. *)
Definition sendEnvOnline : SendEnv :=
  {| ethers_Wallet := fun _ => Return tt;
     getFeeData := Return 20000000000%Q;
     parseEther := fun a => Return (a * 1000000000000000000)%Q;
     wallet_sendTransaction :=
       fun _ _ _ _ =>
         Return (str "0x88df016429689c079f3b2f6ad39fa052532c56795b733da78a91ebe6a713944b");
     tx_wait := fun _ => Return (Some 21000%Q);
     hash_Date_now := 1700000001000%N;
     Math_random_36 := str "k3x9q2m7p1";
     tx_Date_now := 1700000002000%N;
     timestamp_Date := 1700000002000%N |}.

(** A network that cannot be reached. *)
Definition networkDown : JsError := Error (str "could not detect network") None.

Definition sendEnvOffline : SendEnv :=
  {| ethers_Wallet := fun _ => Return tt;
     getFeeData := Throw networkDown;
     parseEther := fun a => Return (a * 1000000000000000000)%Q;
     wallet_sendTransaction := fun _ _ _ _ => Throw networkDown;
     tx_wait := fun _ => Throw networkDown;
     hash_Date_now := 1700000001000%N;
     Math_random_36 := str "k3x9q2m7p1";
     tx_Date_now := 1700000002000%N;
     timestamp_Date := 1700000002000%N |}.

(** The wallets above after a deposit was recorded on the Bitcoin one. *)
Definition worldFunded : World :=
  match getWallet btcWalletId worldWithWallets with
  | Some wallet =>
      after (updateWallet 1700000000500%N (Wallet.set_balance (1 # 20)%Q wallet))
            worldWithWallets
  | None => worldWithWallets
  end.

(** [parseFloat] on an unsigned decimal literal: digits, then optionally a
    point and digits. Enough of the platform function for the examples. *)
Fixpoint readDigits (s : jsstring) (acc : N) : N * jsstring :=
  match s with
  | c :: s' =>
      if ((48 <=? c) && (c <=? 57))%N then readDigits s' (10 * acc + (c - 48))%N
      else (acc, s)
  | [] => (acc, [])
  end.

Definition parseFloatDecimal (s : jsstring) : option Q :=
  match s with
  | c :: _ =>
      if ((48 <=? c) && (c <=? 57))%N then
        let (whole, rest) := readDigits s 0%N in
        match rest with
        | 46%N :: fraction =>
            let (numerator, rest') := readDigits fraction 0%N in
            let digits := (length fraction - length rest')%nat in
            Some (inject_Z (Z.of_N whole)
                  + Qmake (Z.of_N numerator) (Pos.pow 10 (Pos.of_nat digits)))%Q
        | _ => Some (inject_Z (Z.of_N whole))
        end
      else None
  | [] => None
  end.

(** The send form filled in for the Bitcoin wallet: more than it holds ... *)
Definition formOverBalance : SendForm :=
  {| recipientAddress := str "bc1qar0srrr7xfkvy5l643lydnw9re59gtzzwf5mdq";
     amount := str "5";
     selectedWallet := getWallet btcWalletId worldFunded |}.

(** ... and a destination that is no address. *)
Definition formBadAddress : SendForm :=
  {| recipientAddress := str "not-an-address";
     amount := str "0.01";
     selectedWallet := getWallet btcWalletId worldFunded |}.

(** The Ethereum wallet after a deposit of 1.5 was recorded. *)
Definition worldEthFunded : World :=
  match getWallet ethWalletId worldWithWallets with
  | Some wallet =>
      after (updateWallet 1700000000500%N (Wallet.set_balance (3 # 2)%Q wallet))
            worldWithWallets
  | None => worldWithWallets
  end.

(** Chain endpoints that cannot be reached. *)
Definition balanceEnvOffline : BalanceEnv :=
  {| provider_getBalance := fun _ => Throw networkDown;
     fetch_funded_txo_sum := fun _ => Throw networkDown;
     new_PublicKey := fun _ => Return tt;
     connection_getBalance := fun _ => Throw networkDown;
     balance_Date := 1700000003000%N |}.

(** Two runs of the demo initialisation, with different random draws. *)
Definition demoEnvA : DemoEnv :=
  {| eth_env := keyGenEnv0;
     btc_env := keyGenEnv1;
     sol_env := keyGenEnv2;
     Math_random := fun _ => (1 # 2)%Q;
     update_Date := fun _ => 1700000000003%N |}.

Definition keyGenEnv3 : KeyGenEnv :=
  {| ethers_createRandom :=
       (str "0xFFcf8FDEE72ac11b5c542428B35EEF5769C409f0",
        str "0x6cbed15c793ce57650b9877cf6fa156fbef513c4e6134f022a85b1ffdd59b2a1");
     getRandomBytesAsync := repeat 171%N 32;
     Keypair_generate := (str "4Nd1mBQtrMJVYVfKf2PJy9NZUZdTAsp7D4xWLs4gDB4T", repeat 9%N 64);
     id_Date_now := 1700000100000%N;
     createdAt_Date := 1700000100000%N;
     updatedAt_Date := 1700000100000%N |}.

Definition demoEnvB : DemoEnv :=
  {| eth_env := keyGenEnv3;
     btc_env := keyGenEnv3;
     sol_env := keyGenEnv3;
     Math_random := fun _ => (1 # 4)%Q;
     update_Date := fun _ => 1700000100003%N |}.

(** ** SecurityManager: mnemonic and password generation *)





(** The string [chars] of [generateSecurePassword]. *)
Definition passwordChars : jsstring :=
  str "ABCDEFGHIJKLMNOPQRSTUVWXYZabcdefghijklmnopqrstuvwxyz0123456789!@#$%^&*".

(** [chars[randomBytes[i] % chars.length]] as it is appended to the password:
    past the end of [randomBytes] it is [undefined], appended as that word. *)
Definition passwordChar (randomBytes : list N) (i : nat) : jsstring :=
  match nth_error randomBytes i with
  | Some byte =>
      [nth (N.to_nat (byte mod N.of_nat (length passwordChars))) passwordChars 0%N]
  | None => str "undefined"
  end.

(** [randomBytesReply] is what [Crypto.getRandomBytesAsync(32)] returns. *)
Definition generateSecurePassword (randomBytesReply : list N) : M jsstring :=
  try_catch
    (let randomBytes := Uint8Array randomBytesReply in
     ret (concat (map (passwordChar randomBytes) (seq 0 16))))
    (fun error =>
       console_error (str "Failed to generate password:") error ;;
       throw (Error (str "Failed to generate password") None)).


(** The world with another engine key. *)
Definition with_encryptionKey (k : option jsstring) (w : World) : World :=
  mkWorld (wallets w) k (console w) (network w).

(** A store that holds no key, and one that cannot be written. *)
Definition storeEnvFresh : StoreEnv :=
  {| getSecureItem := Return None;
     keyRandomBytes := getRandomBytesAsync keyGenEnv0;
     setSecureItem := Return tt |}.

Definition storeUnavailable : JsError := Error (str "Could not encrypt the value for SecureStore") None.

Definition storeEnvReadOnly : StoreEnv :=
  {| getSecureItem := Return None;
     keyRandomBytes := getRandomBytesAsync keyGenEnv0;
     setSecureItem := Throw storeUnavailable |}.

Definition storeEnvHolding (key : jsstring) : StoreEnv :=
  {| getSecureItem := Return (Some key);
     keyRandomBytes := getRandomBytesAsync keyGenEnv0;
     setSecureItem := Throw storeUnavailable |}.

(** ** Notions for the further properties of WalletService *)

(** One of the three chains of [CryptoType]. *)
Definition supported (cryptoType : jsstring) : Prop :=
  cryptoType = CryptoType.ETHEREUM
  \/ cryptoType = CryptoType.BITCOIN
  \/ cryptoType = CryptoType.SOLANA.

(** An environment in which the Ethereum library and the network answer a
    send: the replies to the requests that [sendEthereumTransaction] makes
    for [privateKey], [toAddress] and [amount] at gas price [gasPrice]. *)
Definition ethereumSendAnswered (env : SendEnv) (privateKey toAddress : jsstring)
  (amount value gasPrice : Q) (hash : jsstring) (receiptGasUsed : option Q) : Prop :=
  ethers_Wallet env privateKey = Return tt
  /\ parseEther env amount = Return value
  /\ wallet_sendTransaction env privateKey toAddress value gasPrice = Return hash
  /\ tx_wait env hash = Return receiptGasUsed.

(** The gas price of an Ethereum send: the [fee] passed when it is truthy,
    else what the fee oracle answers. *)
Definition gasPriceOf (fee : option Q) (oracle : Q) : Q :=
  match truthy fee with Some f => f | None => oracle end.


(** Chain endpoints that answer: 2.5 ether, 150000000 satoshi received,
    3000000000 lamports. *)
Definition balanceEnvOnline : BalanceEnv :=
  {| provider_getBalance := fun _ => Return (5 # 2)%Q;
     fetch_funded_txo_sum := fun _ => Return 150000000%Q;
     new_PublicKey := fun _ => Return tt;
     connection_getBalance := fun _ => Return 3000000000%Q;
     balance_Date := 1700000004000%N |}.

(** A network whose fee oracle cannot be reached, and that answers the rest. *)
Definition sendEnvNoOracle : SendEnv :=
  {| ethers_Wallet := ethers_Wallet sendEnvOnline;
     getFeeData := Throw networkDown;
     parseEther := parseEther sendEnvOnline;
     wallet_sendTransaction := wallet_sendTransaction sendEnvOnline;
     tx_wait := tx_wait sendEnvOnline;
     hash_Date_now := hash_Date_now sendEnvOnline;
     Math_random_36 := Math_random_36 sendEnvOnline;
     tx_Date_now := tx_Date_now sendEnvOnline;
     timestamp_Date := timestamp_Date sendEnvOnline |}.

(** ** AuthService ([src/services/authService.ts])

    The service keeps the signed-in user in two fields and everything else
    in three AsyncStorage items, each written with [JSON.stringify] and read
    back with [JSON.parse]. The model keeps, for each item, the value that
    was stringified ([None] is a missing item); a [Date] is kept as its
    instant. The hashing and the password generator are those of
    SecurityManager, run on the world they share (its console). *)

Module Auth.

Module User.
Record t : Type := mk {
  id : jsstring;
  email : jsstring;
  username : jsstring;
  createdAt : N;
  updatedAt : N
}.
End User.

(** [{ ...user, password }]: an element of the item 'users'. *)
Module StoredUser.
Record t : Type := mk {
  id : jsstring;
  email : jsstring;
  username : jsstring;
  createdAt : N;
  updatedAt : N;
  password : jsstring
}.

Definition set_password (p : jsstring) (u : t) : t :=
  mk (id u) (email u) (username u) (createdAt u) (updatedAt u) p.

Definition set_updatedAt (d : N) (u : t) : t :=
  mk (id u) (email u) (username u) (createdAt u) d (password u).
End StoredUser.

Module Session.
Record t : Type := mk {
  userId : jsstring;
  expiresAt : N
}.
End Session.

(** The items: 'users', SESSION_STORAGE_KEY and USER_STORAGE_KEY. *)
Inductive StorageKey : Type := USERS | SESSION_STORAGE_KEY | USER_STORAGE_KEY.

Record State : Type := mkState {
  world : World;                               (* the console, shared *)
  currentUser : option User.t;                 (* AuthService.currentUser *)
  isAuthenticated : bool;
  users_item : option (list StoredUser.t);
  session_item : option Session.t;
  user_item : option User.t
}.

Definition initialState : State := mkState initialWorld None false None None None.

(** What the platform answers during one call: for each storage request
    whether it fails, the digest, the random bytes and the clock. *)
Record Env : Type := {
  getItem_fault : StorageKey -> option JsError;
  setItem_fault : StorageKey -> option JsError;
  removeItem_fault : StorageKey -> option JsError;
  digestStringAsync : jsstring -> Completion jsstring;
  passwordRandomBytes : list N;      (* Crypto.getRandomBytesAsync(32) *)
  user_Date_now : N;                 (* Date.now() in the id of a new user *)
  user_createdAt : N;
  user_updatedAt : N;                (* new Date() where updatedAt is assigned *)
  session_Date_now : N               (* Date.now() of createSession and initialize *)
}.

(** An [async] method of the service. *)
Definition St (A : Type) : Type := State -> Completion A * State.

Definition pure {A : Type} (a : A) : St A := fun s => (Return a, s).

Definition raise {A : Type} (e : JsError) : St A := fun s => (Throw e, s).

Definition andThen {A B : Type} (m : St A) (k : A -> St B) : St B :=
  fun s =>
    match m s with
    | (Return a, s') => k a s'
    | (Throw e, s') => (Throw e, s')
    end.

Definition attempt {A : Type} (body : St A) (handler : JsError -> St A) : St A :=
  fun s =>
    match body s with
    | (Return a, s') => (Return a, s')
    | (Throw e, s') => handler e s'
    end.

Definition get : St State := fun s => (Return s, s).

(** A method of SecurityManager, or a write to the console. *)
Definition lift {A : Type} (m : M A) : St A :=
  fun s =>
    (fst (m (world s)),
     mkState (snd (m (world s))) (currentUser s) (isAuthenticated s)
             (users_item s) (session_item s) (user_item s)).

Definition set_currentUser (u : option User.t) : St unit :=
  fun s => (Return tt,
            mkState (world s) u (isAuthenticated s)
                    (users_item s) (session_item s) (user_item s)).

Definition set_isAuthenticated (b : bool) : St unit :=
  fun s => (Return tt,
            mkState (world s) (currentUser s) b
                    (users_item s) (session_item s) (user_item s)).

(** A request to AsyncStorage: it fails, or it runs. *)
Definition request {A : Type} (fault : option JsError) (run : State -> A * State) : St A :=
  fun s =>
    match fault with
    | Some e => (Throw e, s)
    | None => (Return (fst (run s)), snd (run s))
    end.

Definition getItem_users (env : Env) : St (option (list StoredUser.t)) :=
  request (getItem_fault env USERS) (fun s => (users_item s, s)).

Definition getItem_session (env : Env) : St (option Session.t) :=
  request (getItem_fault env SESSION_STORAGE_KEY) (fun s => (session_item s, s)).

Definition getItem_user (env : Env) : St (option User.t) :=
  request (getItem_fault env USER_STORAGE_KEY) (fun s => (user_item s, s)).

Definition setItem_users (env : Env) (users : list StoredUser.t) : St unit :=
  request (setItem_fault env USERS)
    (fun s => (tt, mkState (world s) (currentUser s) (isAuthenticated s)
                           (Some users) (session_item s) (user_item s))).

Definition setItem_session (env : Env) (session : Session.t) : St unit :=
  request (setItem_fault env SESSION_STORAGE_KEY)
    (fun s => (tt, mkState (world s) (currentUser s) (isAuthenticated s)
                           (users_item s) (Some session) (user_item s))).

Definition setItem_user (env : Env) (user : User.t) : St unit :=
  request (setItem_fault env USER_STORAGE_KEY)
    (fun s => (tt, mkState (world s) (currentUser s) (isAuthenticated s)
                           (users_item s) (session_item s) (Some user))).

Definition removeItem_session (env : Env) : St unit :=
  request (removeItem_fault env SESSION_STORAGE_KEY)
    (fun s => (tt, mkState (world s) (currentUser s) (isAuthenticated s)
                           (users_item s) None (user_item s))).

Definition removeItem_user (env : Env) : St unit :=
  request (removeItem_fault env USER_STORAGE_KEY)
    (fun s => (tt, mkState (world s) (currentUser s) (isAuthenticated s)
                           (users_item s) (session_item s) None)).

Declare Scope auth_scope.
Delimit Scope auth_scope with auth.
Notation "x <- m ;; k" := (andThen m (fun x => k))
  (at level 61, m at next level, right associativity) : auth_scope.
Notation "m ;; k" := (andThen m (fun _ => k))
  (at level 61, right associativity) : auth_scope.
Local Open Scope auth_scope.

(** [array.findIndex(f)]; [None] is -1. *)
Fixpoint findIndex {A : Type} (f : A -> bool) (l : list A) : option nat :=
  match l with
  | [] => None
  | x :: l' => if f x then Some 0%nat else option_map S (findIndex f l')
  end.

(** The assignments to the fields of [array[i]]. *)
Fixpoint update {A : Type} (i : nat) (f : A -> A) (l : list A) : list A :=
  match l, i with
  | [], _ => []
  | x :: l', O => f x :: l'
  | x :: l', S i' => x :: update i' f l'
  end.

(** Reading a field of [undefined]. *)
Definition TypeError : JsError :=
  Error (str "TypeError: Cannot set properties of undefined") None.

(** Seven days, in milliseconds. *)
Definition sessionLifetime : N := (7 * 24 * 60 * 60 * 1000)%N.

Definition createSession (env : Env) (user : User.t) : St unit :=
  let session := Session.mk (User.id user) (session_Date_now env + sessionLifetime)%N in
  setItem_session env session ;;
  setItem_user env user.

Definition clearSession (env : Env) : St unit :=
  removeItem_session env ;;
  removeItem_user env.

Definition getStoredUsers (env : Env) : St (list StoredUser.t) :=
  attempt
    (usersData <- getItem_users env ;;
     pure (match usersData with Some users => users | None => [] end))
    (fun error =>
       lift (console_error (str "Failed to get stored users:") error) ;;
       pure []).

Definition initialize (env : Env) : St unit :=
  attempt
    (sessionData <- getItem_session env ;;
     match sessionData with
     | Some session =>
         if (session_Date_now env <? Session.expiresAt session)%N then
           userData <- getItem_user env ;;
           match userData with
           | Some user => set_currentUser (Some user) ;; set_isAuthenticated true
           | None => pure tt
           end
         else clearSession env
     | None => pure tt
     end)
    (fun error =>
       lift (console_error (str "Failed to initialize auth service:") error) ;;
       clearSession env).

Definition register (env : Env) (email username password : jsstring) : St User.t :=
  attempt
    (existingUsers <- getStoredUsers env ;;
     match find (fun user => streq (StoredUser.email user) email
                             || streq (StoredUser.username user) username)
                existingUsers with
     | Some _ =>
         raise (Error (str "User with this email or username already exists") None)
     | None =>
         hashedPassword <- lift (hashPassword (digestStringAsync env) password) ;;
         let user := User.mk (str "user_" ++ decimal (user_Date_now env)) email username
                             (user_createdAt env) (user_updatedAt env) in
         let userWithPassword :=
           StoredUser.mk (User.id user) (User.email user) (User.username user)
                         (User.createdAt user) (User.updatedAt user) hashedPassword in
         setItem_users env (existingUsers ++ [userWithPassword]) ;;
         createSession env user ;;
         set_currentUser (Some user) ;;
         set_isAuthenticated true ;;
         pure user
     end)
    (fun error =>
       lift (console_error (str "Registration failed:") error) ;;
       raise error).

Definition login (env : Env) (email password : jsstring) : St User.t :=
  attempt
    (users <- getStoredUsers env ;;
     match find (fun user => streq (StoredUser.email user) email) users with
     | None => raise (Error (str "Invalid email or password") None)
     | Some userWithPassword =>
         isValidPassword <- lift (verifyPassword (digestStringAsync env) password
                                    (StoredUser.password userWithPassword)) ;;
         if negb isValidPassword then
           raise (Error (str "Invalid email or password") None)
         else
           let user := User.mk (StoredUser.id userWithPassword)
                               (StoredUser.email userWithPassword)
                               (StoredUser.username userWithPassword)
                               (StoredUser.createdAt userWithPassword)
                               (StoredUser.updatedAt userWithPassword) in
           createSession env user ;;
           set_currentUser (Some user) ;;
           set_isAuthenticated true ;;
           pure user
     end)
    (fun error =>
       lift (console_error (str "Login failed:") error) ;;
       raise error).

Definition logout (env : Env) : St unit :=
  attempt
    (clearSession env ;;
     set_currentUser None ;;
     set_isAuthenticated false)
    (fun error =>
       lift (console_error (str "Logout failed:") error) ;;
       raise error).

Definition changePassword (env : Env) (currentPassword newPassword : jsstring) : St unit :=
  attempt
    (s <- get ;;
     match currentUser s with
     | None => raise (Error (str "User not authenticated") None)
     | Some current =>
         users <- getStoredUsers env ;;
         match findIndex (fun user => streq (StoredUser.id user) (User.id current)) users with
         | None => raise (Error (str "User not found") None)
         | Some userIndex =>
             match nth_error users userIndex with
             | None => raise TypeError
             | Some user =>
                 isValidPassword <- lift (verifyPassword (digestStringAsync env)
                                            currentPassword (StoredUser.password user)) ;;
                 if negb isValidPassword then
                   raise (Error (str "Current password is incorrect") None)
                 else
                   hashedNewPassword <- lift (hashPassword (digestStringAsync env)
                                                newPassword) ;;
                   setItem_users env
                     (update userIndex
                        (fun u => StoredUser.set_updatedAt (user_updatedAt env)
                                    (StoredUser.set_password hashedNewPassword u))
                        users)
             end
         end
     end)
    (fun error =>
       lift (console_error (str "Password change failed:") error) ;;
       raise error).

(** [console.log(a, b)] writes [a] and [b] with a space between them. *)
Definition resetPassword (env : Env) (email : jsstring) : St unit :=
  attempt
    (users <- getStoredUsers env ;;
     match find (fun u => streq (StoredUser.email u) email) users with
     | None => raise (Error (str "User not found") None)
     | Some user =>
         newPassword <- lift (generateSecurePassword (passwordRandomBytes env)) ;;
         hashedPassword <- lift (hashPassword (digestStringAsync env) newPassword) ;;
         match findIndex (fun u => streq (StoredUser.id u) (StoredUser.id user)) users with
         | None => raise TypeError
         | Some userIndex =>
             setItem_users env
               (update userIndex
                  (fun u => StoredUser.set_updatedAt (user_updatedAt env)
                              (StoredUser.set_password hashedPassword u))
                  users) ;;
             lift (console_log (str "New password generated: " ++ newPassword))
         end
     end)
    (fun error =>
       lift (console_error (str "Password reset failed:") error) ;;
       raise error).

Definition getCurrentUser (s : State) : option User.t := currentUser s.

Definition isUserAuthenticated (s : State) : bool := isAuthenticated s.

(** ** Notions for the properties of AuthService *)

(** What [getStoredUsers] reads from a store that answers. *)
Definition stored (s : State) : list StoredUser.t :=
  match users_item s with Some users => users | None => [] end.

(** A store that answers every request. *)
Definition storageWorks (env : Env) : Prop :=
  forall k, getItem_fault env k = None
            /\ setItem_fault env k = None
            /\ removeItem_fault env k = None.

(** No two stored accounts share an email or a username. *)
Definition unique_accounts (users : list StoredUser.t) : Prop :=
  NoDup (map StoredUser.email users) /\ NoDup (map StoredUser.username users).

(** The public part of a stored account. *)
Definition account (u : StoredUser.t) : User.t :=
  User.mk (StoredUser.id u) (StoredUser.email u) (StoredUser.username u)
          (StoredUser.createdAt u) (StoredUser.updatedAt u).

(** The service as a new process finds it: the storage as it is, nobody
    signed in. *)
Definition restarted (s : State) : State :=
  mkState (world s) None false (users_item s) (session_item s) (user_item s).

(** The result and the state after a call. *)
Definition outcome {A : Type} (m : St A) (s : State) : Completion A := fst (m s).
Definition next {A : Type} (m : St A) (s : State) : State := snd (m s).

(** A platform whose storage answers, at a given instant. *)
Definition envAt (now : N) : Env :=
  {| getItem_fault := fun _ => None;
     setItem_fault := fun _ => None;
     removeItem_fault := fun _ => None;
     digestStringAsync := digestStringAsync_SHA256;
     passwordRandomBytes := map N.of_nat (seq 60 32);
     user_Date_now := now;
     user_createdAt := now;
     user_updatedAt := now;
     session_Date_now := now |}.

(** The same, with one kind of request failing. *)
Definition storageDown : JsError := Error (str "AsyncStorage is unavailable") None.

Definition envUnreadable (now : N) : Env :=
  {| getItem_fault := fun _ => Some storageDown;
     setItem_fault := fun _ => None;
     removeItem_fault := fun _ => None;
     digestStringAsync := digestStringAsync_SHA256;
     passwordRandomBytes := map N.of_nat (seq 60 32);
     user_Date_now := now;
     user_createdAt := now;
     user_updatedAt := now;
     session_Date_now := now |}.

Definition envSessionUnwritable (now : N) : Env :=
  {| getItem_fault := fun _ => None;
     setItem_fault := fun k => match k with
                               | SESSION_STORAGE_KEY => Some storageDown
                               | _ => None
                               end;
     removeItem_fault := fun _ => None;
     digestStringAsync := digestStringAsync_SHA256;
     passwordRandomBytes := map N.of_nat (seq 60 32);
     user_Date_now := now;
     user_createdAt := now;
     user_updatedAt := now;
     session_Date_now := now |}.

Definition envUnremovable (now : N) : Env :=
  {| getItem_fault := fun _ => None;
     setItem_fault := fun _ => None;
     removeItem_fault := fun _ => Some storageDown;
     digestStringAsync := digestStringAsync_SHA256;
     passwordRandomBytes := map N.of_nat (seq 60 32);
     user_Date_now := now;
     user_createdAt := now;
     user_updatedAt := now;
     session_Date_now := now |}.

(** Alice registers, then Bob. *)
Definition aliceRegistered : State :=
  next (register (envAt 1700000000000) (str "alice@example.com") (str "alice")
          (str "correct horse")) initialState.

Definition bobRegistered : State :=
  next (register (envAt 1700000005000) (str "bob@example.com") (str "bob")
          (str "battery staple")) aliceRegistered.

End Auth.

(** What [getStoredUsers] returns: the stored accounts, or no account at all
    when the item cannot be read. *)
Definition readable (env : Auth.Env) (s : Auth.State) : list Auth.StoredUser.t :=
  match Auth.getItem_fault env Auth.USERS with
  | Some _ => []
  | None => Auth.stored s
  end.

(** Nothing but the console differs. *)
Definition unchanged_but_console (s s' : Auth.State) : Prop :=
  Auth.currentUser s' = Auth.currentUser s
  /\ Auth.isAuthenticated s' = Auth.isAuthenticated s
  /\ Auth.users_item s' = Auth.users_item s
  /\ Auth.session_item s' = Auth.session_item s
  /\ Auth.user_item s' = Auth.user_item s.

(** The account that [register] appends. *)
Definition newAccount (env : Auth.Env) (email username hashedPassword : jsstring)
  : Auth.StoredUser.t :=
  Auth.StoredUser.mk (str "user_" ++ decimal (Auth.user_Date_now env)) email username
                     (Auth.user_createdAt env) (Auth.user_updatedAt env) hashedPassword.

(** The assignments of [changePassword] and [resetPassword] to a record. *)
Definition rehashed (env : Auth.Env) (hashedPassword : jsstring) (u : Auth.StoredUser.t)
  : Auth.StoredUser.t :=
  Auth.StoredUser.set_updatedAt (Auth.user_updatedAt env)
    (Auth.StoredUser.set_password hashedPassword u).

(** The password that [generateSecurePassword] makes of the random bytes. *)
Definition generatedPassword (randomBytes : list N) : jsstring :=
  concat (map (passwordChar (Uint8Array randomBytes)) (seq 0 16)).

(** The calls of the service that a client can make, each with what the
    platform answers during the call. *)
Inductive AuthCall : Type :=
| CallInitialize (env : Auth.Env)
| CallRegister (env : Auth.Env) (email username password : jsstring)
| CallLogin (env : Auth.Env) (email password : jsstring)
| CallLogout (env : Auth.Env)
| CallChangePassword (env : Auth.Env) (currentPassword newPassword : jsstring)
| CallResetPassword (env : Auth.Env) (email : jsstring).

Definition perform (s : Auth.State) (call : AuthCall) : Auth.State :=
  match call with
  | CallInitialize env => Auth.next (Auth.initialize env) s
  | CallRegister env email username password =>
      Auth.next (Auth.register env email username password) s
  | CallLogin env email password => Auth.next (Auth.login env email password) s
  | CallLogout env => Auth.next (Auth.logout env) s
  | CallChangePassword env currentPassword newPassword =>
      Auth.next (Auth.changePassword env currentPassword newPassword) s
  | CallResetPassword env email => Auth.next (Auth.resetPassword env email) s
  end.

Definition performAll (calls : list AuthCall) (s : Auth.State) : Auth.State :=
  fold_left perform calls s.

(** A call that leaves a component of the state as it was. *)
Definition preserves {X A : Type} (proj : Auth.State -> X) (m : Auth.St A) : Prop :=
  forall s, proj (snd (m s)) = proj s.

(** ** SwapService ([src/services/swapService.ts])

    The service keeps its swaps in a map of its own and works on the
    wallets of WalletService. A wallet that the source changes in place
    ([fromWallet.balance -= ...]) is the object stored in the registry: the
    model writes the change to the registry entry it was read from, and
    reads an entry again where the source uses an object that may have been
    changed in between. *)

Module Swap.

Inductive SwapStatus : Type := PENDING | COMPLETED | FAILED.

Module SwapTransaction.
Record t : Type := mk {
  id : jsstring;
  userId : jsstring;
  fromWalletId : jsstring;
  toWalletId : jsstring;
  fromAmount : Q;
  toAmount : Q;
  fromSymbol : jsstring;
  toSymbol : jsstring;
  status : SwapStatus;
  timestamp : N;
  txHash : option jsstring
}.

Definition set_status (st : SwapStatus) (x : t) : t :=
  mk (id x) (userId x) (fromWalletId x) (toWalletId x) (fromAmount x) (toAmount x)
     (fromSymbol x) (toSymbol x) st (timestamp x) (txHash x).

Definition set_txHash (h : jsstring) (x : t) : t :=
  mk (id x) (userId x) (fromWalletId x) (toWalletId x) (fromAmount x) (toAmount x)
     (fromSymbol x) (toSymbol x) (status x) (timestamp x) (Some h).
End SwapTransaction.

Record State : Type := mkState {
  world : World;                                     (* WalletService and the console *)
  swapTransactions : JsMap.t SwapTransaction.t
}.

(** What the platform answers during one [executeSwap]. *)
Record Env : Type := {
  balanceEnv : BalanceEnv;           (* the chain, asked by walletService.getBalance *)
  toUpperCase : jsstring -> jsstring;
  swap_Date_now : N;                 (* Date.now() in the id of the swap *)
  swap_timestamp : N;
  Math_random : Q;                   (* the draw that decides the simulated outcome *)
  txHash_Date_now : N;
  txHash_random_36 : jsstring;
  from_updatedAt : N;                (* new Date() of the two updateWallet calls *)
  to_updatedAt : N
}.

Definition St (A : Type) : Type := State -> Completion A * State.

Definition pure {A : Type} (a : A) : St A := fun s => (Return a, s).

Definition raise {A : Type} (e : JsError) : St A := fun s => (Throw e, s).

Definition andThen {A B : Type} (m : St A) (k : A -> St B) : St B :=
  fun s =>
    match m s with
    | (Return a, s') => k a s'
    | (Throw e, s') => (Throw e, s')
    end.

Definition attempt {A : Type} (body : St A) (handler : JsError -> St A) : St A :=
  fun s =>
    match body s with
    | (Return a, s') => (Return a, s')
    | (Throw e, s') => handler e s'
    end.

Definition get : St State := fun s => (Return s, s).

(** A method of WalletService, or a write to the console. *)
Definition lift {A : Type} (m : M A) : St A :=
  fun s => (fst (m (world s)), mkState (snd (m (world s))) (swapTransactions s)).

(** [this.swapTransactions.set(k, v)]. *)
Definition swaps_set (k : jsstring) (v : SwapTransaction.t) : St unit :=
  fun s => (Return tt, mkState (world s) (JsMap.set k v (swapTransactions s))).

Declare Scope swap_scope.
Delimit Scope swap_scope with swap.
Notation "x <- m ;; k" := (andThen m (fun x => k))
  (at level 61, m at next level, right associativity) : swap_scope.
Notation "m ;; k" := (andThen m (fun _ => k))
  (at level 61, right associativity) : swap_scope.
Local Open Scope swap_scope.

(** [SUPPORTED_CRYPTOS.find(c => c.type === cryptoType)?.symbol
    || cryptoType.toUpperCase()]. *)
Definition getCryptoSymbol (env : Env) (cryptoType : jsstring) : jsstring :=
  if streq cryptoType CryptoType.ETHEREUM then str "ETH"
  else if streq cryptoType CryptoType.BITCOIN then str "BTC"
  else if streq cryptoType CryptoType.SOLANA then str "SOL"
  else toUpperCase env cryptoType.

(** [wallet.balance = b] on the wallet stored under [walletId]. *)
Definition assign_balance (walletId : jsstring) (b : Wallet -> Q) : St unit :=
  s <- get ;;
  match getWallet walletId (world s) with
  | Some wallet => lift (wallets_set walletId (Wallet.set_balance (b wallet) wallet))
  | None => pure tt
  end.

(** [walletService.updateWallet(wallet)] on the wallet stored under
    [walletId]. *)
Definition update_stored (now : N) (walletId : jsstring) : St unit :=
  s <- get ;;
  match getWallet walletId (world s) with
  | Some wallet => lift (updateWallet now wallet)
  | None => pure tt
  end.

(** The swap is the object already stored in the map: what is returned is
    its final state, which is also what the map holds. *)
Definition simulateSwapExecution (env : Env) (swapTransaction : SwapTransaction.t)
  : St SwapTransaction.t :=
  attempt
    (let isSuccess := negb (Qle_bool (Math_random env) (1 # 10)) in
     if isSuccess then
       let completed :=
         SwapTransaction.set_txHash
           (str "swap_tx_" ++ decimal (txHash_Date_now env) ++ str "_"
            ++ txHash_random_36 env)
           (SwapTransaction.set_status COMPLETED swapTransaction) in
       s <- get ;;
       match getWallet (SwapTransaction.fromWalletId completed) (world s),
             getWallet (SwapTransaction.toWalletId completed) (world s) with
       | Some _, Some _ =>
           assign_balance (SwapTransaction.fromWalletId completed)
             (fun fromWallet =>
                (Wallet.balance fromWallet - SwapTransaction.fromAmount completed)%Q) ;;
           assign_balance (SwapTransaction.toWalletId completed)
             (fun toWallet =>
                (Wallet.balance toWallet + SwapTransaction.toAmount completed)%Q) ;;
           update_stored (from_updatedAt env) (SwapTransaction.fromWalletId completed) ;;
           update_stored (to_updatedAt env) (SwapTransaction.toWalletId completed)
       | _, _ => pure tt
       end ;;
       swaps_set (SwapTransaction.id completed) completed ;;
       pure completed
     else
       let failed := SwapTransaction.set_status FAILED swapTransaction in
       swaps_set (SwapTransaction.id failed) failed ;;
       pure failed)
    (fun error =>
       lift (console_error (str "Swap execution failed:") error) ;;
       let failed := SwapTransaction.set_status FAILED swapTransaction in
       swaps_set (SwapTransaction.id failed) failed ;;
       pure failed).

Definition executeSwap (env : Env) (fromWalletId toWalletId : jsstring)
  (fromAmount toAmount : Q) : St SwapTransaction.t :=
  attempt
    (s <- get ;;
     match getWallet fromWalletId (world s), getWallet toWalletId (world s) with
     | Some fromWallet, Some toWallet =>
         if negb (streq (Wallet.userId fromWallet) (Wallet.userId toWallet)) then
           raise (Error (str "Can only swap between your own wallets") None)
         else
           currentBalance <- lift (getBalance (balanceEnv env) fromWalletId) ;;
           if negb (Qle_bool fromAmount currentBalance) then
             raise (Error (str "Insufficient balance") None)
           else
             let swapTransaction :=
               SwapTransaction.mk (str "swap_" ++ decimal (swap_Date_now env))
                 (Wallet.userId fromWallet) fromWalletId toWalletId fromAmount toAmount
                 (getCryptoSymbol env (Wallet.type fromWallet))
                 (getCryptoSymbol env (Wallet.type toWallet))
                 PENDING (swap_timestamp env) None in
             swaps_set (SwapTransaction.id swapTransaction) swapTransaction ;;
             simulateSwapExecution env swapTransaction
     | _, _ => raise (Error (str "Invalid wallet") None)
     end)
    (fun error =>
       lift (console_error (str "Failed to execute swap:") error) ;;
       raise (Error (str "Failed to execute swap") None)).

Definition getSwapTransaction (swapId : jsstring) (s : State) : option SwapTransaction.t :=
  JsMap.get swapId (swapTransactions s).

(** The result and the state after a call. *)
Definition outcome {A : Type} (m : St A) (s : State) : Completion A := fst (m s).
Definition next {A : Type} (m : St A) (s : State) : State := snd (m s).

(** A platform for the examples: the chain answers (or not), and the draw. *)
Definition envWith (chain : BalanceEnv) (draw : Q) : Env :=
  {| balanceEnv := chain;
     toUpperCase := fun s => s;
     swap_Date_now := 1700000100000;
     swap_timestamp := 1700000100000;
     Math_random := draw;
     txHash_Date_now := 1700000102000;
     txHash_random_36 := str "k3x9q2m7p1";
     from_updatedAt := 1700000102000;
     to_updatedAt := 1700000102000 |}.

End Swap.

(** The wallets of "user_1" and one Ethereum wallet of "user_2". *)
Definition worldTwoUsers : World :=
  after (createWallet keyGenEnv3 (str "user_2") CryptoType.ETHEREUM (str "Other"))
        worldWithWallets.

Definition otherWalletId : jsstring := str "ethereum_1700000100000".

(** * Properties *)

Example sha256_abc :
  digestStringAsync_SHA256 (str "abc")
  = Return (str "ba7816bf8f01cfea414140de5dae2223b00361a396177a9cb410ff61f20015ad").
Proof. vm_compute. reflexivity. Qed.

Example sha256_empty :
  digestStringAsync_SHA256 []
  = Return (str "e3b0c44298fc1c149afbf4c8996fb92427ae41e4649b934ca495991b7852b855").
Proof. vm_compute. reflexivity. Qed.

Example sha256_two_blocks :
  digestStringAsync_SHA256
    (str "abcdbcdecdefdefgefghfghighijhijkijkljklmklmnlmnomnopnopq")
  = Return (str "248d6a61d20638b8e5c026930c3e6039a33ce45964ff2167f6ecedd419db06c1").
Proof. vm_compute. reflexivity. Qed.

(** ** The embedding at work *)

Example encryptPrivateKey_abc :
  result (encryptPrivateKey (str "abc")) worldWithKey = Return (str "UVJS").
Proof. vm_compute. reflexivity. Qed.

Example decryptPrivateKey_abc :
  result (decryptPrivateKey (str "UVJS")) worldWithKey = Return (str "abc").
Proof. vm_compute. reflexivity. Qed.

Example decryptPrivateKey_malformed :
  result (decryptPrivateKey (str "UVJS!")) worldWithKey
  = Throw (Error (str "Failed to decrypt private key") None).
Proof. vm_compute. reflexivity. Qed.

Example createWallet_bitcoin :
  match getWallet btcWalletId worldWithWallets with
  | Some wallet =>
      Wallet.address wallet = str "bc10123456789abcdef1032547698badcfe00112233"
      /\ Wallet.symbol wallet = str "BTC"
      /\ Wallet.decimals wallet = 8%N
      /\ Wallet.balance wallet = 0%Q
  | None => False
  end.
Proof. vm_compute. auto. Qed.

(** Before [initialize] has run nothing can be encrypted, so the demo
    initialisation creates nothing and reports it on the console. *)
Example initializeDemoWallets_uninitialized :
  wallets (after (initializeDemoWallets demoEnvA (str "user_1")) initialWorld) = []
  /\ console (after (initializeDemoWallets demoEnvA (str "user_1")) initialWorld)
     = [ConsoleError (str "Failed to create wallet:")
                     (Error (str "Security manager not initialized") None);
        ConsoleError (str "Failed to initialize demo wallets:")
                     (Error (str "Failed to create wallet") None)].
Proof. vm_compute. auto. Qed.

Example initializeDemoWallets_balances :
  map (fun wallet => (Wallet.symbol wallet, Wallet.balance wallet))
      (getWalletsByUserId (str "user_1")
         (after (initializeDemoWallets demoEnvA (str "user_1")) worldWithKey))
  = [(str "ETH", (2550000 # 1000000)%Q);
     (str "BTC", (50500 # 1000000)%Q);
     (str "SOL", (52500000 # 1000000)%Q)].
Proof. vm_compute. reflexivity. Qed.

Example getBalance_unknown_wallet :
  result (getBalance balanceEnvOffline (str "ethereum_0")) worldWithWallets
  = Throw (Error (str "Wallet not found") None).
Proof. vm_compute. reflexivity. Qed.

(** ** Strings and bit operations *)

Lemma streq_refl (a : jsstring) : streq a a = true.
Proof.
  induction a as [|x a IH]; simpl; [reflexivity|].
  now rewrite N.eqb_refl, IH.
Qed.

Lemma streq_eq (a b : jsstring) : streq a b = true <-> a = b.
Proof.
  split; [|intros ->; apply streq_refl].
  revert b; induction a as [|x a IH]; intros [|y b]; simpl; try discriminate; auto.
  intros H; apply andb_prop in H as [Hx Hab].
  apply N.eqb_eq in Hx; subst y. f_equal; auto.
Qed.

Lemma streq_neq (a b : jsstring) : streq a b = false <-> a <> b.
Proof.
  split.
  - intros H E. apply streq_eq in E. congruence.
  - intros H. destruct (streq a b) eqn:E; [|reflexivity].
    apply streq_eq in E. contradiction.
Qed.

Lemma is_byte_string_spec (s : jsstring) : is_byte_string s = true <-> byte_string s.
Proof.
  unfold is_byte_string, byte_string. rewrite forallb_forall, Forall_forall.
  split; intros H c Hc; specialize (H c Hc); now apply N.ltb_lt.
Qed.

Lemma lxor_lt_pow2 (n a b : N) :
  (a < 2 ^ n -> b < 2 ^ n -> N.lxor a b < 2 ^ n)%N.
Proof.
  intros Ha Hb.
  destruct (N.eq_dec (N.lxor a b) 0) as [E|E].
  - rewrite E. apply N.neq_0_lt_0. apply N.pow_nonzero. discriminate.
  - apply N.log2_lt_pow2; [lia|].
    eapply N.le_lt_trans; [apply N.log2_lxor|].
    apply N.max_lub_lt.
    + destruct (N.eq_dec a 0) as [->|Ha0].
      * simpl. destruct (N.eq_dec n 0) as [->|]; [|lia].
        simpl in Ha, Hb. assert (b = 0%N) by lia. subst b. now simpl in E.
      * apply N.log2_lt_pow2; [lia|assumption].
    + destruct (N.eq_dec b 0) as [->|Hb0].
      * simpl. destruct (N.eq_dec n 0) as [->|]; [|lia].
        simpl in Ha. assert (a = 0%N) by lia. subst a. now simpl in E.
      * apply N.log2_lt_pow2; [lia|assumption].
Qed.

Lemma lxor_byte (a b : N) : (a < 256 -> b < 256 -> N.lxor a b < 256)%N.
Proof. apply (lxor_lt_pow2 8). Qed.

Lemma lxor_cancel (a b : N) : N.lxor (N.lxor a b) b = a.
Proof. now rewrite N.lxor_assoc, N.lxor_nilpotent, N.lxor_0_r. Qed.

Lemma fromCharCode_small (n : N) : (n < 65536)%N -> fromCharCode n = n.
Proof. intros H. unfold fromCharCode. now apply N.mod_small. Qed.

(** A key character read at any index is a byte when the key is a byte string
    (the default of [nth] covers the empty key). *)
Lemma key_char_byte (key : jsstring) (i : nat) :
  byte_string key -> (nth i key 0 < 256)%N.
Proof.
  intros Hk. destruct (Nat.lt_ge_cases i (length key)) as [Hi|Hi].
  - unfold byte_string in Hk. rewrite Forall_forall in Hk. apply Hk. now apply nth_In.
  - rewrite nth_overflow by assumption. lia.
Qed.

Lemma mapi_from_length {A B : Type} (f : A -> nat -> B) (i : nat) (l : list A) :
  length (mapi_from f i l) = length l.
Proof. revert i; induction l; intros i; simpl; auto. Qed.

Lemma xorWithKey_length (key text : jsstring) :
  length (xorWithKey key text) = length text.
Proof. apply mapi_from_length. Qed.

Lemma xor_from_byte (key : jsstring) (i : nat) (text : jsstring) :
  byte_string key -> byte_string text ->
  byte_string
    (mapi_from (fun char index =>
                  fromCharCode (N.lxor char (nth (index mod length key) key 0%N)))
               i text).
Proof.
  intros Hk Ht. revert i. induction Ht as [|c text Hc Ht IH]; intros i; simpl.
  - constructor.
  - constructor; [|apply IH].
    pose proof (key_char_byte key (i mod length key) Hk) as Hn.
    pose proof (lxor_byte _ _ Hc Hn) as Hx.
    rewrite fromCharCode_small by lia. exact Hx.
Qed.

Lemma xorWithKey_byte (key text : jsstring) :
  byte_string key -> byte_string text -> byte_string (xorWithKey key text).
Proof. apply xor_from_byte. Qed.

Lemma xor_from_involutive (key : jsstring) (i : nat) (text : jsstring) :
  byte_string key -> byte_string text ->
  mapi_from (fun char index =>
               fromCharCode (N.lxor char (nth (index mod length key) key 0%N)))
            i
            (mapi_from (fun char index =>
                          fromCharCode (N.lxor char (nth (index mod length key) key 0%N)))
                       i text)
  = text.
Proof.
  intros Hk Ht. revert i. induction Ht as [|c text Hc Ht IH]; intros i; simpl.
  - reflexivity.
  - rewrite IH. f_equal.
    pose proof (key_char_byte key (i mod length key) Hk) as Hn.
    pose proof (lxor_byte _ _ Hc Hn) as Hx.
    rewrite (fromCharCode_small (N.lxor c _)) by lia.
    rewrite lxor_cancel. apply fromCharCode_small. lia.
Qed.

Lemma xorWithKey_involutive (key text : jsstring) :
  byte_string key -> byte_string text ->
  xorWithKey key (xorWithKey key text) = text.
Proof. apply xor_from_involutive. Qed.

(** ** Base64: decoding inverts encoding *)

Ltac euclid := zify; Z.to_euclidean_division_equations; lia.

Lemma list_ind3 (A : Type) (P : list A -> Prop) :
  P [] -> (forall a, P [a]) -> (forall a b, P [a; b]) ->
  (forall a b c l, P l -> P (a :: b :: c :: l)) ->
  forall l, P l.
Proof.
  intros H0 H1 H2 H3.
  fix IH 1. intros [|a [|b [|c l]]].
  - exact H0.
  - apply H1.
  - apply H2.
  - apply H3, IH.
Qed.

Lemma forall_lt_64 (P : N -> bool) :
  forallb P (map N.of_nat (seq 0 64)) = true ->
  forall i, (i < 64)%N -> P i = true.
Proof.
  intros H i Hi. rewrite forallb_forall in H. apply H.
  apply in_map_iff. exists (N.to_nat i). split; [apply N2Nat.id|].
  apply in_seq. lia.
Qed.

Lemma sextet_of_code_of_sextet (i : N) :
  (i < 64)%N -> Base64.sextet_of_code (Base64.code_of_sextet i) = Some i.
Proof.
  intros Hi.
  pose proof (forall_lt_64
    (fun i => match Base64.sextet_of_code (Base64.code_of_sextet i) with
              | Some j => (j =? i)%N
              | None => false
              end) eq_refl i Hi) as H.
  cbv beta in H.
  destruct (Base64.sextet_of_code (Base64.code_of_sextet i)); [|discriminate].
  apply N.eqb_eq in H. now subst.
Qed.

Lemma code_of_sextet_not_pad (i : N) :
  (i < 64)%N -> Base64.code_of_sextet i <> Base64.pad.
Proof.
  intros Hi.
  apply N.eqb_neq, negb_true_iff.
  exact (forall_lt_64
           (fun i => negb (Base64.code_of_sextet i =? Base64.pad)%N) eq_refl i Hi).
Qed.

Lemma code_of_sextet_not_space (i : N) :
  (i < 64)%N -> Base64.is_ascii_whitespace (Base64.code_of_sextet i) = false.
Proof.
  intros Hi. apply negb_true_iff.
  exact (forall_lt_64
           (fun i => negb (Base64.is_ascii_whitespace (Base64.code_of_sextet i)))
           eq_refl i Hi).
Qed.

Lemma sextets_lt_64 (s : list N) :
  byte_string s -> Forall (fun i => (i < 64)%N) (Base64.sextets_of_bytes s).
Proof.
  unfold byte_string.
  induction s as [| a | a b | a b c l IH] using list_ind3; intros Hs; simpl.
  - apply Forall_nil.
  - inversion_clear Hs as [|? ? Ha _].
    repeat (apply Forall_cons; [euclid|]). apply Forall_nil.
  - inversion_clear Hs as [|? ? Ha Hs']. inversion_clear Hs' as [|? ? Hb _].
    repeat (apply Forall_cons; [euclid|]). apply Forall_nil.
  - inversion_clear Hs as [|? ? Ha Hs']. inversion_clear Hs' as [|? ? Hb Hs''].
    inversion_clear Hs'' as [|? ? Hc Hl].
    repeat (apply Forall_cons; [euclid|]). exact (IH Hl).
Qed.

Lemma sextets_of_codes_map (sx : list N) :
  Forall (fun i => (i < 64)%N) sx ->
  Base64.sextets_of_codes (map Base64.code_of_sextet sx) = Some sx.
Proof.
  induction 1 as [|i sx Hi _ IH]; simpl; [reflexivity|].
  now rewrite sextet_of_code_of_sextet, IH.
Qed.

Lemma recompose24 (n : N) :
  (((n / 262144 * 64 + (n / 4096) mod 64) * 64 + (n / 64) mod 64) * 64 + n mod 64 = n)%N.
Proof. euclid. Qed.

Lemma split24 (a b c : N) :
  (a < 256 -> b < 256 -> c < 256 ->
   (a * 65536 + b * 256 + c) / 65536 = a
   /\ ((a * 65536 + b * 256 + c) / 256) mod 256 = b
   /\ (a * 65536 + b * 256 + c) mod 256 = c)%N.
Proof. intros. euclid. Qed.

Lemma bytes_of_sextets_of_bytes (s : list N) :
  byte_string s -> Base64.bytes_of_sextets (Base64.sextets_of_bytes s) = s.
Proof.
  unfold byte_string.
  induction s as [| a | a b | a b c l IH] using list_ind3; intros Hs.
  - reflexivity.
  - inversion_clear Hs as [|? ? Ha _]. simpl. f_equal. euclid.
  - inversion_clear Hs as [|? ? Ha Hs']. inversion_clear Hs' as [|? ? Hb _].
    simpl. f_equal; [euclid|]. f_equal. euclid.
  - inversion_clear Hs as [|? ? Ha Hs']. inversion_clear Hs' as [|? ? Hb Hs''].
    inversion_clear Hs'' as [|? ? Hc Hl].
    cbn [Base64.sextets_of_bytes Base64.bytes_of_sextets].
    cbv zeta. rewrite recompose24.
    destruct (split24 a b c Ha Hb Hc) as (E1 & E2 & E3).
    rewrite E1, E2, E3, (IH Hl). reflexivity.
Qed.

Lemma padding_cases (s : list N) :
  Base64.padding s = [] \/ Base64.padding s = [Base64.pad]
  \/ Base64.padding s = [Base64.pad; Base64.pad].
Proof. induction s using list_ind3; simpl; auto. Qed.

Lemma encoded_length_mod4 (s : list N) :
  (length (Base64.sextets_of_bytes s) + length (Base64.padding s)) mod 4 = 0.
Proof.
  induction s as [| a | a b | a b c l IH] using list_ind3; try reflexivity.
  cbn [Base64.sextets_of_bytes Base64.padding length].
  replace (S (S (S (S (length (Base64.sextets_of_bytes l))))) + length (Base64.padding l))
    with ((length (Base64.sextets_of_bytes l) + length (Base64.padding l)) + 1 * 4) by lia.
  now rewrite Nat.Div0.mod_add.
Qed.

Lemma sextets_length_mod4 (s : list N) :
  length (Base64.sextets_of_bytes s) mod 4 <> 1.
Proof.
  induction s as [| a | a b | a b c l IH] using list_ind3; try (simpl; lia).
  cbn [Base64.sextets_of_bytes length].
  replace (S (S (S (S (length (Base64.sextets_of_bytes l))))))
    with (length (Base64.sextets_of_bytes l) + 1 * 4) by lia.
  now rewrite Nat.Div0.mod_add.
Qed.

Lemma rev_head_not_pad (body : jsstring) :
  Forall (fun c => c <> Base64.pad) body ->
  match rev body with
  | p :: _ => (p =? Base64.pad)%N = false
  | [] => True
  end.
Proof.
  intros H. apply Forall_rev in H. destruct (rev body) as [|p r]; [exact I|].
  inversion_clear H. now apply N.eqb_neq.
Qed.

Lemma strip_padding_none (body : jsstring) :
  Forall (fun c => c <> Base64.pad) body -> Base64.strip_padding body = body.
Proof.
  intros H. pose proof (rev_head_not_pad body H) as Hp.
  unfold Base64.strip_padding. destruct (rev body) as [|p [|q r]]; auto; now rewrite Hp.
Qed.

Lemma strip_padding_one (body : jsstring) :
  Forall (fun c => c <> Base64.pad) body ->
  Base64.strip_padding (body ++ [Base64.pad]) = body.
Proof.
  intros H. pose proof (rev_head_not_pad body H) as Hp.
  unfold Base64.strip_padding. rewrite rev_app_distr.
  change (rev [Base64.pad] ++ rev body) with (Base64.pad :: rev body).
  destruct (rev body) as [|q r] eqn:E.
  - apply (f_equal (@rev N)) in E. rewrite rev_involutive in E.
    rewrite N.eqb_refl. now subst body.
  - rewrite N.eqb_refl, Hp, <- E. apply rev_involutive.
Qed.

Lemma strip_padding_two (body : jsstring) :
  Base64.strip_padding (body ++ [Base64.pad; Base64.pad]) = body.
Proof.
  unfold Base64.strip_padding. rewrite rev_app_distr.
  change (rev [Base64.pad; Base64.pad] ++ rev body)
    with (Base64.pad :: Base64.pad :: rev body).
  cbv iota. rewrite N.eqb_refl. apply rev_involutive.
Qed.

Lemma strip_padding_encoded (s : list N) :
  byte_string s ->
  Base64.strip_padding (map Base64.code_of_sextet (Base64.sextets_of_bytes s) ++ Base64.padding s)
  = map Base64.code_of_sextet (Base64.sextets_of_bytes s).
Proof.
  intros Hs.
  assert (H : Forall (fun c => c <> Base64.pad)
                     (map Base64.code_of_sextet (Base64.sextets_of_bytes s))).
  { apply Forall_forall. intros c Hc. apply in_map_iff in Hc as (i & <- & Hi).
    apply code_of_sextet_not_pad.
    pose proof (sextets_lt_64 s Hs) as Hlt. rewrite Forall_forall in Hlt. auto. }
  destruct (padding_cases s) as [E|[E|E]]; rewrite E.
  - rewrite app_nil_r. now apply strip_padding_none.
  - now apply strip_padding_one.
  - apply strip_padding_two.
Qed.

Lemma filter_whitespace_encoded (s : list N) :
  byte_string s ->
  filter (fun c => negb (Base64.is_ascii_whitespace c))
         (map Base64.code_of_sextet (Base64.sextets_of_bytes s) ++ Base64.padding s)
  = map Base64.code_of_sextet (Base64.sextets_of_bytes s) ++ Base64.padding s.
Proof.
  intros Hs. apply forallb_filter_id. apply forallb_forall. intros c Hc.
  apply in_app_or in Hc as [Hc|Hc].
  - apply in_map_iff in Hc as (i & <- & Hi).
    pose proof (sextets_lt_64 s Hs) as Hlt. rewrite Forall_forall in Hlt.
    rewrite code_of_sextet_not_space; auto.
  - destruct (padding_cases s) as [E|[E|E]]; rewrite E in Hc; simpl in Hc;
      intuition (subst; reflexivity).
Qed.

(** [atob(btoa(s)) = s] for every binary string [s]. *)
Lemma atob_btoa (s encoded : jsstring) :
  Base64.btoa s = Some encoded -> Base64.atob encoded = Some s.
Proof.
  unfold Base64.btoa. destruct (is_byte_string s) eqn:Hb; [|discriminate].
  intros E; injection E as <-. apply is_byte_string_spec in Hb.
  unfold Base64.atob. rewrite filter_whitespace_encoded by assumption.
  rewrite length_app, length_map, encoded_length_mod4. simpl (0 =? 0).
  cbv iota. rewrite strip_padding_encoded by assumption. rewrite length_map.
  destruct (Nat.eqb_spec (length (Base64.sextets_of_bytes s) mod 4) 1) as [E|_].
  - now apply sextets_length_mod4 in E.
  - rewrite sextets_of_codes_map by now apply sextets_lt_64.
    now rewrite bytes_of_sextets_of_bytes.
Qed.

Lemma btoa_defined (s : jsstring) :
  byte_string s -> exists encoded, Base64.btoa s = Some encoded.
Proof.
  intros H. apply is_byte_string_spec in H. unfold Base64.btoa. rewrite H. eauto.
Qed.

Lemma btoa_undefined (s : jsstring) :
  ~ byte_string s -> Base64.btoa s = None.
Proof.
  intros H. unfold Base64.btoa. destruct (is_byte_string s) eqn:E; [|reflexivity].
  apply is_byte_string_spec in E. contradiction.
Qed.

(** ** The monad *)

Lemma bind_return {A B : Type} (m : M A) (k : A -> M B) (w w' : World) (a : A) :
  m w = (Return a, w') -> bind m k w = k a w'.
Proof. intros H. unfold bind. now rewrite H. Qed.

Lemma bind_throw {A B : Type} (m : M A) (k : A -> M B) (w w' : World) (e : JsError) :
  m w = (Throw e, w') -> bind m k w = (Throw e, w').
Proof. intros H. unfold bind. now rewrite H. Qed.

Lemma try_return {A : Type} (m : M A) (h : JsError -> M A) (w w' : World) (a : A) :
  m w = (Return a, w') -> try_catch m h w = (Return a, w').
Proof. intros H. unfold try_catch. now rewrite H. Qed.

Lemma try_throw {A : Type} (m : M A) (h : JsError -> M A) (w w' : World) (e : JsError) :
  m w = (Throw e, w') -> try_catch m h w = h e w'.
Proof. intros H. unfold try_catch. now rewrite H. Qed.

(** ** Encryption engine *)

Lemma encryptPrivateKey_ok (w : World) (key k encrypted : jsstring) :
  usable_key (encryptionKey w) = Some key ->
  Base64.btoa (xorWithKey key k) = Some encrypted ->
  encryptPrivateKey k w = (Return encrypted, w).
Proof.
  intros Hk He. unfold encryptPrivateKey, bind, get_world. rewrite Hk.
  unfold try_catch, btoa. now rewrite He.
Qed.

Lemma decryptPrivateKey_ok (w : World) (key c decoded : jsstring) :
  usable_key (encryptionKey w) = Some key ->
  Base64.atob c = Some decoded ->
  decryptPrivateKey c w = (Return (xorWithKey key decoded), w).
Proof.
  intros Hk Hd. unfold decryptPrivateKey, bind, get_world. rewrite Hk.
  unfold try_catch, bind, atob. now rewrite Hd.
Qed.

Lemma encryptPrivateKey_uninitialized (w : World) (k : jsstring) :
  usable_key (encryptionKey w) = None ->
  encryptPrivateKey k w
  = (Throw (Error (str "Security manager not initialized") None), w).
Proof.
  intros Hk. unfold encryptPrivateKey, bind, get_world. now rewrite Hk.
Qed.

Lemma hexDigit_byte (d : N) : (d < 16)%N -> (hexDigit d < 256)%N.
Proof. intros H. unfold hexDigit. destruct (d <? 10)%N; lia. Qed.

Lemma hexOfBytes_byte_string (bytes : list N) :
  byte_string (hexOfBytes (Uint8Array bytes)).
Proof.
  unfold byte_string, hexOfBytes, Uint8Array.
  induction bytes as [|b bytes IH]; simpl; [constructor|].
  repeat (apply Forall_cons; [apply hexDigit_byte; euclid|]). exact IH.
Qed.

Lemma hexOfBytes_length (bytes : list N) :
  length (hexOfBytes bytes) = 2 * length bytes.
Proof.
  unfold hexOfBytes. induction bytes as [|b bytes IH]; simpl; [reflexivity|].
  rewrite IH. lia.
Qed.

(** On a device whose store holds no key yet, [initialize] leaves the engine
    with a key that is a non-empty binary string: the hexadecimal rendering of
    the random bytes. *)
Lemma initialize_fresh (env : StoreEnv) (w : World) :
  getSecureItem env = Return None ->
  setSecureItem env = Return tt ->
  keyRandomBytes env <> [] ->
  exists key,
    result (initialize env) w = Return tt
    /\ usable_key (encryptionKey (after (initialize env) w)) = Some key
    /\ byte_string key.
Proof.
  intros Hget Hset Hne.
  exists (hexOfBytes (Uint8Array (keyRandomBytes env))).
  unfold result, after, initialize, try_catch, bind, await, generateEncryptionKey,
    set_encryptionKey, ret.
  rewrite Hget, Hset. simpl. repeat split.
  - destruct (keyRandomBytes env) as [|b bytes]; [contradiction|reflexivity].
  - apply hexOfBytes_byte_string.
Qed.

(** C1, as amended: for every private key that is a binary string (every
    code unit at most 255), the empty string included, and an engine whose
    key is a non-empty binary string, decrypting the encryption gives the key
    back, and nothing else in the world changes. *)
Theorem C1_roundtrip_binary_strings (w : World) (key k : jsstring) :
  usable_key (encryptionKey w) = Some key ->
  byte_string key ->
  byte_string k ->
  encryptThenDecrypt k w = (Return k, w).
Proof.
  intros Hk Hkey Hb.
  destruct (btoa_defined _ (xorWithKey_byte key k Hkey Hb)) as [encrypted He].
  unfold encryptThenDecrypt, bind.
  rewrite (encryptPrivateKey_ok w key k encrypted Hk He).
  rewrite (decryptPrivateKey_ok w key encrypted _ Hk (atob_btoa _ _ He)).
  now rewrite xorWithKey_involutive.
Qed.

(** An engine with a generated key and an Ethereum-style private key. *)
Lemma C1_roundtrip_witness :
  let w := mkWorld JsMap.empty (Some (str "00112233445566778899aabbccddeeff")) [] [] in
  let k := str "0x4c0883a69102937d6231471b5dbb6204fe5129617082792ae468d01a3f362318" in
  encryptThenDecrypt k w = (Return k, w) /\ encryptThenDecrypt [] w = (Return [], w).
Proof.
  split.
  - apply (C1_roundtrip_binary_strings _ (str "00112233445566778899aabbccddeeff")).
    + reflexivity.
    + apply is_byte_string_spec. reflexivity.
    + apply is_byte_string_spec. reflexivity.
  - apply (C1_roundtrip_binary_strings _ (str "00112233445566778899aabbccddeeff")).
    + reflexivity.
    + apply is_byte_string_spec. reflexivity.
    + constructor.
Defined.

(** C1, as stated, fails: the one-character string with code unit 8364 (the
    euro sign) cannot be encrypted, because [btoa] rejects the XOR-ed text. *)
Lemma C1_counterexample :
  let w := mkWorld JsMap.empty (Some (str "00112233445566778899aabbccddeeff")) [] [] in
  result (encryptPrivateKey [8364%N]) w
  = Throw (Error (str "Failed to encrypt private key") None)
  /\ result (encryptThenDecrypt [8364%N]) w <> Return [8364%N].
Proof.
  split.
  - vm_compute. reflexivity.
  - vm_compute. discriminate.
Qed.

(** The same on a device that has just generated its key. *)
Lemma roundtrip_after_initialize (env : StoreEnv) (w : World) (k : jsstring) :
  getSecureItem env = Return None ->
  setSecureItem env = Return tt ->
  keyRandomBytes env <> [] ->
  byte_string k ->
  result (encryptThenDecrypt k) (after (initialize env) w) = Return k.
Proof.
  intros Hget Hset Hne Hb.
  destruct (initialize_fresh env w Hget Hset Hne) as (key & _ & Hk & Hkey).
  destruct (btoa_defined _ (xorWithKey_byte key k Hkey Hb)) as [encrypted He].
  unfold result, encryptThenDecrypt, bind.
  rewrite (encryptPrivateKey_ok _ key k encrypted Hk He).
  rewrite (decryptPrivateKey_ok _ key encrypted _ Hk (atob_btoa _ _ He)).
  simpl. now rewrite xorWithKey_involutive.
Qed.

(** ** Password hashing *)

Lemma hashPassword_spec (d : jsstring -> Completion jsstring) (p : jsstring) (w : World) :
  result (hashPassword d p) w
  = match d p with
    | Return digest => Return digest
    | Throw _ => Throw (Error (str "Failed to hash password") None)
    end.
Proof.
  unfold result, hashPassword, try_catch, await. destruct (d p); reflexivity.
Qed.

Lemma verifyPassword_spec (d : jsstring -> Completion jsstring) (q hash : jsstring)
  (w : World) :
  result (verifyPassword d q hash) w
  = Return (match d q with
            | Return digest => streq digest hash
            | Throw _ => false
            end).
Proof.
  unfold result, verifyPassword, hashPassword, try_catch, bind, await.
  destruct (d q); reflexivity.
Qed.

Lemma hashThenVerify_spec (d : jsstring -> Completion jsstring) (p q digest : jsstring)
  (w : World) :
  d p = Return digest ->
  result (hashThenVerify d p q) w
  = Return (match d q with
            | Return digest' => streq digest' digest
            | Throw _ => false
            end).
Proof.
  intros Hp. unfold result, hashThenVerify, bind.
  unfold hashPassword at 1. unfold try_catch at 1. unfold await. rewrite Hp.
  apply verifyPassword_spec.
Qed.

(** C9: a password verifies against its own hash; a password whose digest
    differs does not; in particular "wrong" does not verify against the hash
    of "secret". *)
Theorem C9_password_verification (p q : jsstring) (w : World) :
  result (hashThenVerify digestStringAsync_SHA256 p p) w = Return true
  /\ (digestStringAsync_SHA256 q <> digestStringAsync_SHA256 p ->
      result (hashThenVerify digestStringAsync_SHA256 p q) w = Return false)
  /\ result (hashThenVerify digestStringAsync_SHA256 (str "secret") (str "wrong")) w
     = Return false.
Proof.
  assert (Hneq : forall a b : jsstring,
             digestStringAsync_SHA256 b <> digestStringAsync_SHA256 a ->
             result (hashThenVerify digestStringAsync_SHA256 a b) w = Return false).
  { intros a b Hd.
    rewrite (hashThenVerify_spec digestStringAsync_SHA256 a b _ w eq_refl).
    unfold digestStringAsync_SHA256 in *. f_equal.
    apply streq_neq. intros E. apply Hd. now rewrite E. }
  split; [|split].
  - rewrite (hashThenVerify_spec digestStringAsync_SHA256 p p _ w eq_refl).
    unfold digestStringAsync_SHA256. now rewrite streq_refl.
  - apply Hneq.
  - apply Hneq. vm_compute. discriminate.
Qed.

Lemma C9_password_verification_witness :
  result (hashThenVerify digestStringAsync_SHA256 (str "hunter2") (str "hunter2")) initialWorld
  = Return true
  /\ result (hashThenVerify digestStringAsync_SHA256 (str "hunter2") (str "Hunter2")) initialWorld
     = Return false.
Proof.
  destruct (C9_password_verification (str "hunter2") (str "Hunter2") initialWorld)
    as (Hsame & Hdiff & _).
  split; [exact Hsame|].
  apply Hdiff. vm_compute. discriminate.
Defined.

(** ** createWallet *)

Lemma unsupported_tests (cryptoType : jsstring) :
  unsupported cryptoType ->
  streq cryptoType CryptoType.ETHEREUM = false
  /\ streq cryptoType CryptoType.BITCOIN = false
  /\ streq cryptoType CryptoType.SOLANA = false.
Proof. intros (H1 & H2 & H3). repeat split; now apply streq_neq. Qed.

Lemma generateKeys_unsupported (env : KeyGenEnv) (cryptoType : jsstring) (w : World) :
  unsupported cryptoType ->
  generateKeys env cryptoType w = (Throw (UnsupportedChainError cryptoType), w).
Proof.
  intros H. apply unsupported_tests in H as (H1 & H2 & H3).
  unfold generateKeys. now rewrite H1, H2, H3.
Qed.

(** C7, as amended: for a chain value outside the three, [createWallet]
    fails, the error that reaches the caller is the generic
    [Error('Failed to create wallet')] (the unsupported-chain error is only
    written to the console), and the registry is unchanged. *)
Theorem C7_unsupported_chain_rejected (env : KeyGenEnv)
  (userId cryptoType name : jsstring) (w : World) :
  unsupported cryptoType ->
  result (createWallet env userId cryptoType name) w
  = Throw (Error (str "Failed to create wallet") None)
  /\ wallets (after (createWallet env userId cryptoType name) w) = wallets w
  /\ console (after (createWallet env userId cryptoType name) w)
     = console w ++ [ConsoleError (str "Failed to create wallet:")
                                  (UnsupportedChainError cryptoType)].
Proof.
  intros H. unfold result, after, createWallet, try_catch, bind.
  rewrite (generateKeys_unsupported env cryptoType w H). simpl. auto.
Qed.

Lemma C7_unsupported_chain_rejected_witness :
  result (createWallet keyGenEnv0 (str "user_1") (str "dogecoin") (str "Doge")) initialWorld
  = Throw (Error (str "Failed to create wallet") None)
  /\ wallets (after (createWallet keyGenEnv0 (str "user_1") (str "dogecoin") (str "Doge"))
                    initialWorld) = []
  /\ console (after (createWallet keyGenEnv0 (str "user_1") (str "dogecoin") (str "Doge"))
                    initialWorld)
     = [ConsoleError (str "Failed to create wallet:") (UnsupportedChainError (str "dogecoin"))].
Proof.
  apply (C7_unsupported_chain_rejected keyGenEnv0 (str "user_1") (str "dogecoin") (str "Doge")
           initialWorld).
  repeat split; discriminate.
Defined.

(** C7, as stated, fails: what the caller of [createWallet] catches for the
    chain "dogecoin" is not the unsupported-chain error, and carries no cause. *)
Lemma C7_counterexample :
  exists thrown,
    result (createWallet keyGenEnv0 (str "user_1") (str "dogecoin") (str "Doge")) initialWorld
    = Throw thrown
    /\ thrown <> UnsupportedChainError (str "dogecoin")
    /\ message thrown = str "Failed to create wallet"
    /\ cause thrown = None.
Proof.
  exists (Error (str "Failed to create wallet") None).
  repeat split. discriminate.
Qed.

(** ** What a call leaves untouched *)

Lemma keeps_ret {X A : Type} (proj : World -> X) (a : A) : keeps proj (ret a).
Proof. intros w. reflexivity. Qed.

Lemma keeps_throw {X A : Type} (proj : World -> X) (e : JsError) :
  keeps proj (@throw A e).
Proof. intros w. reflexivity. Qed.

Lemma keeps_await {X A : Type} (proj : World -> X) (reply : Completion A) :
  keeps proj (await reply).
Proof. intros w. reflexivity. Qed.

Lemma keeps_get_world {X : Type} (proj : World -> X) : keeps proj get_world.
Proof. intros w. reflexivity. Qed.

Lemma keeps_bind {X A B : Type} (proj : World -> X) (m : M A) (k : A -> M B) :
  keeps proj m -> (forall a, keeps proj (k a)) -> keeps proj (bind m k).
Proof.
  intros Hm Hk w. unfold bind. specialize (Hm w).
  destruct (m w) as [[a|e] w']; simpl in Hm.
  - now rewrite Hk.
  - exact Hm.
Qed.

Lemma keeps_try {X A : Type} (proj : World -> X) (m : M A) (h : JsError -> M A) :
  keeps proj m -> (forall e, keeps proj (h e)) -> keeps proj (try_catch m h).
Proof.
  intros Hm Hh w. unfold try_catch. specialize (Hm w).
  destruct (m w) as [[a|e] w']; simpl in Hm.
  - exact Hm.
  - now rewrite Hh.
Qed.

Ltac keeps_step :=
  match goal with
  | |- keeps _ (bind _ _) => apply keeps_bind; [|intro]
  | |- keeps _ (try_catch _ _) => apply keeps_try; [|intro]
  | |- keeps _ (ret _) => apply keeps_ret
  | |- keeps _ (throw _) => apply keeps_throw
  | |- keeps _ (await _) => apply keeps_await
  | |- keeps _ get_world => apply keeps_get_world
  | |- keeps _ (console_error _ _) => intro; reflexivity
  | |- keeps _ (console_log _) => intro; reflexivity
  | |- keeps _ (net_call _) => intro; reflexivity
  | |- keeps _ (match ?x with _ => _ end) => destruct x
  end.

Ltac keeps_tac := repeat keeps_step.

Lemma decryptPrivateKey_keeps_wallets (c : jsstring) :
  keeps wallets (decryptPrivateKey c).
Proof. unfold decryptPrivateKey, atob. keeps_tac. Qed.

Lemma encryptPrivateKey_keeps_wallets (k : jsstring) :
  keeps wallets (encryptPrivateKey k).
Proof. unfold encryptPrivateKey, btoa. keeps_tac. Qed.

Lemma adapterStage_keeps_wallets (env : SendEnv) (walletType privateKey toAddress : jsstring)
  (amount : Q) (fee : option Q) :
  keeps wallets (adapterStage env walletType privateKey toAddress amount fee).
Proof.
  unfold adapterStage, sendEthereumTransaction, sendBitcoinTransaction,
    sendSolanaTransaction.
  keeps_tac.
Qed.

Lemma decryptPrivateKey_keeps_registry (c : jsstring) :
  keeps registry (decryptPrivateKey c).
Proof. unfold decryptPrivateKey, atob. keeps_tac. Qed.

Lemma adapterStage_keeps_registry (env : SendEnv) (walletType privateKey toAddress : jsstring)
  (amount : Q) (fee : option Q) :
  keeps registry (adapterStage env walletType privateKey toAddress amount fee).
Proof.
  unfold adapterStage, sendEthereumTransaction, sendBitcoinTransaction,
    sendSolanaTransaction.
  keeps_tac.
Qed.

(** [sendTransaction] writes neither to the registry nor to the engine: all
    it leaves behind are lines on the console and requests on the network. *)
Lemma sendTransaction_keeps_registry (env : SendEnv) (walletId toAddress : jsstring)
  (amount : Q) (fee : option Q) :
  keeps registry (sendTransaction env walletId toAddress amount fee).
Proof.
  unfold sendTransaction.
  apply keeps_bind; [apply keeps_get_world|intro w0].
  destruct (JsMap.get walletId (wallets w0)); [|apply keeps_throw].
  apply keeps_try; [|intro; keeps_tac].
  apply keeps_bind; [apply decryptPrivateKey_keeps_registry|intro].
  apply keeps_bind; [apply adapterStage_keeps_registry|intro].
  apply keeps_ret.
Qed.

(** [sendTransaction] never writes to the registry. *)
Lemma sendTransaction_keeps_wallets (env : SendEnv) (walletId toAddress : jsstring)
  (amount : Q) (fee : option Q) :
  keeps wallets (sendTransaction env walletId toAddress amount fee).
Proof.
  unfold sendTransaction.
  apply keeps_bind; [apply keeps_get_world|intro w0].
  destruct (JsMap.get walletId (wallets w0)); [|apply keeps_throw].
  apply keeps_try; [|intro; keeps_tac].
  apply keeps_bind; [apply decryptPrivateKey_keeps_wallets|intro].
  apply keeps_bind; [apply adapterStage_keeps_wallets|intro].
  apply keeps_ret.
Qed.

Lemma decryptPrivateKey_pure (c pk : jsstring) (w w' : World) :
  decryptPrivateKey c w = (Return pk, w') -> w' = w.
Proof.
  unfold decryptPrivateKey, bind, get_world.
  destruct (usable_key (encryptionKey w)) as [key|]; [|discriminate].
  unfold try_catch, bind, atob.
  destruct (Base64.atob c); simpl; intros H; now inversion H.
Qed.

Lemma decryptPrivateKey_result (c pk : jsstring) (w : World) :
  result (decryptPrivateKey c) w = Return pk ->
  decryptPrivateKey c w = (Return pk, w).
Proof.
  unfold result. destruct (decryptPrivateKey c w) as [r w'] eqn:E. simpl.
  intros ->. now rewrite (decryptPrivateKey_pure c pk w w' E).
Qed.

(** The simulated chains: no request leaves the device, and nothing fails. *)
Lemma adapterStage_bitcoin (env : SendEnv) (privateKey toAddress : jsstring)
  (amount : Q) (fee : option Q) (w : World) :
  adapterStage env CryptoType.BITCOIN privateKey toAddress amount fee w
  = (Return (str "btc_tx_" ++ decimal (hash_Date_now env) ++ str "_" ++ Math_random_36 env,
             None, None),
     mkWorld (wallets w) (encryptionKey w)
             (console w ++ [ConsoleLog (str "Simulating Bitcoin transaction")])
             (network w)).
Proof. reflexivity. Qed.

Lemma adapterStage_solana (env : SendEnv) (privateKey toAddress : jsstring)
  (amount : Q) (fee : option Q) (w : World) :
  adapterStage env CryptoType.SOLANA privateKey toAddress amount fee w
  = (Return (str "sol_tx_" ++ decimal (hash_Date_now env) ++ str "_" ++ Math_random_36 env,
             None, None),
     mkWorld (wallets w) (encryptionKey w)
             (console w ++ [ConsoleLog (str "Simulating Solana transaction")])
             (network w)).
Proof. reflexivity. Qed.

(** The two ways out of [sendTransaction] once the wallet is found and its
    key decrypted. *)
Lemma sendTransaction_returns (env : SendEnv) (walletId toAddress : jsstring)
  (amount : Q) (fee : option Q) (w w' : World) (wallet : Wallet) (pk : jsstring)
  (sent : jsstring * option Q * option Q) :
  JsMap.get walletId (wallets w) = Some wallet ->
  result (decryptPrivateKey (Wallet.privateKey wallet)) w = Return pk ->
  adapterStage env (Wallet.type wallet) pk toAddress amount fee w = (Return sent, w') ->
  sendTransaction env walletId toAddress amount fee w
  = (Return (Transaction.mk (str "tx_" ++ decimal (tx_Date_now env))
                            walletId SEND amount
                            (match truthy fee with Some f => f | None => 0%Q end)
                            (Wallet.address wallet) toAddress
                            (fst (fst sent)) PENDING (timestamp_Date env)
                            (snd (fst sent)) (snd sent)),
     w').
Proof.
  intros Hget Hdec Hsend. apply decryptPrivateKey_result in Hdec.
  unfold sendTransaction, bind at 1, get_world. rewrite Hget.
  unfold try_catch, bind. now rewrite Hdec, Hsend.
Qed.

Lemma sendTransaction_throws (env : SendEnv) (walletId toAddress : jsstring)
  (amount : Q) (fee : option Q) (w w' : World) (wallet : Wallet) (pk : jsstring)
  (underlying : JsError) :
  JsMap.get walletId (wallets w) = Some wallet ->
  result (decryptPrivateKey (Wallet.privateKey wallet)) w = Return pk ->
  adapterStage env (Wallet.type wallet) pk toAddress amount fee w = (Throw underlying, w') ->
  sendTransaction env walletId toAddress amount fee w
  = (Throw (Error (str "Failed to send transaction") None),
     mkWorld (wallets w') (encryptionKey w')
             (console w' ++ [ConsoleError (str "Failed to send transaction:") underlying])
             (network w')).
Proof.
  intros Hget Hdec Hsend. apply decryptPrivateKey_result in Hdec.
  unfold sendTransaction, bind at 1, get_world. rewrite Hget.
  unfold try_catch, bind. now rewrite Hdec, Hsend.
Qed.

Example worldWithWallets_ids :
  JsMap.keys (wallets worldWithWallets) = [ethWalletId; btcWalletId; solWalletId].
Proof. vm_compute. reflexivity. Qed.

Example parseFloatDecimal_examples :
  parseFloatDecimal (str "5") = Some 5%Q
  /\ Qeq_bool (match parseFloatDecimal (str "0.25") with Some a => a | None => 0%Q end)
              (1 # 4)%Q = true
  /\ parseFloatDecimal (str "abc") = None.
Proof. vm_compute. auto. Qed.

(** ** sendTransaction *)

(** Evaluate the three facts a concrete send needs (the wallet found, its key
    decrypted, the outcome of the adapter stage) and hand them to [lemma]. *)
Ltac run_send lemma env walletId toAddress amount fee w :=
  let g := eval vm_compute in (JsMap.get walletId (wallets w)) in
  match g with
  | Some ?wallet =>
      let d := eval vm_compute in (result (decryptPrivateKey (Wallet.privateKey wallet)) w) in
      match d with
      | Return ?pk =>
          let a := eval vm_compute in
                     (adapterStage env (Wallet.type wallet) pk toAddress amount fee w) in
          match a with
          | (Return (?h, ?gu, ?gp), ?w') =>
              apply (lemma env walletId toAddress amount fee w w' wallet pk h gu gp);
              vm_compute; reflexivity
          | (Throw ?e, ?w') =>
              apply (lemma env walletId toAddress amount fee w w' wallet pk e);
              vm_compute; reflexivity
          end
      end
  end.

(** C6: when the adapter stage succeeds, [sendTransaction] returns a pending
    Transaction with the adapter's hash, the wallet's address as sender, and
    the amount and destination that were passed. *)
Theorem C6_successful_send (env : SendEnv) (walletId toAddress : jsstring)
  (amount : Q) (fee : option Q) (w w' : World) (wallet : Wallet) (pk hash : jsstring)
  (gasUsed gasPrice : option Q) :
  JsMap.get walletId (wallets w) = Some wallet ->
  result (decryptPrivateKey (Wallet.privateKey wallet)) w = Return pk ->
  adapterStage env (Wallet.type wallet) pk toAddress amount fee w
  = (Return (hash, gasUsed, gasPrice), w') ->
  exists tx,
    result (sendTransaction env walletId toAddress amount fee) w = Return tx
    /\ Transaction.status tx = PENDING
    /\ Transaction.hash tx = hash
    /\ Transaction.fromAddress tx = Wallet.address wallet
    /\ Transaction.amount tx = amount
    /\ Transaction.toAddress tx = toAddress.
Proof.
  intros Hget Hdec Hsend. unfold result.
  rewrite (sendTransaction_returns env walletId toAddress amount fee w w' wallet pk
             (hash, gasUsed, gasPrice) Hget Hdec Hsend).
  eexists. split; [reflexivity|]. simpl. auto.
Qed.

Lemma C6_successful_send_witness :
  exists tx,
    result (sendTransaction sendEnvOnline ethWalletId
              (str "0xFFcf8FDEE72ac11b5c542428B35EEF5769C409f0") (1 # 2)%Q None)
           worldWithWallets = Return tx
    /\ Transaction.status tx = PENDING
    /\ Transaction.hash tx
       = str "0x88df016429689c079f3b2f6ad39fa052532c56795b733da78a91ebe6a713944b"
    /\ Transaction.fromAddress tx = str "0x90F8bf6A479f320ead074411a4B0e7944Ea8c9C1"
    /\ Transaction.amount tx = (1 # 2)%Q
    /\ Transaction.toAddress tx = str "0xFFcf8FDEE72ac11b5c542428B35EEF5769C409f0".
Proof.
  run_send C6_successful_send sendEnvOnline ethWalletId
    (str "0xFFcf8FDEE72ac11b5c542428B35EEF5769C409f0") (1 # 2)%Q (@None Q) worldWithWallets.
Defined.

(** C4, as amended: when the adapter stage fails, [sendTransaction] throws
    the generic [Error('Failed to send transaction')], which carries no
    cause; the underlying error is written to the console; no Transaction is
    returned, and the state of the service (it has no store of Transactions,
    only the registry and the engine key) is unchanged, stored balances
    included. *)
Theorem C4_adapter_failure (env : SendEnv) (walletId toAddress : jsstring)
  (amount : Q) (fee : option Q) (w w' : World) (wallet : Wallet) (pk : jsstring)
  (underlying : JsError) :
  JsMap.get walletId (wallets w) = Some wallet ->
  result (decryptPrivateKey (Wallet.privateKey wallet)) w = Return pk ->
  adapterStage env (Wallet.type wallet) pk toAddress amount fee w = (Throw underlying, w') ->
  result (sendTransaction env walletId toAddress amount fee) w
  = Throw (Error (str "Failed to send transaction") None)
  /\ registry (after (sendTransaction env walletId toAddress amount fee) w) = registry w
  /\ console (after (sendTransaction env walletId toAddress amount fee) w)
     = console w' ++ [ConsoleError (str "Failed to send transaction:") underlying].
Proof.
  intros Hget Hdec Hsend. split; [|split].
  - unfold result.
    now rewrite (sendTransaction_throws env walletId toAddress amount fee w w' wallet pk
                   underlying Hget Hdec Hsend).
  - apply (sendTransaction_keeps_registry env walletId toAddress amount fee w).
  - unfold after.
    now rewrite (sendTransaction_throws env walletId toAddress amount fee w w' wallet pk
                   underlying Hget Hdec Hsend).
Qed.

Lemma C4_adapter_failure_witness :
  result (sendTransaction sendEnvOffline ethWalletId
            (str "0xFFcf8FDEE72ac11b5c542428B35EEF5769C409f0") (1 # 2)%Q None)
         worldWithWallets
  = Throw (Error (str "Failed to send transaction") None)
  /\ registry (after (sendTransaction sendEnvOffline ethWalletId
                        (str "0xFFcf8FDEE72ac11b5c542428B35EEF5769C409f0") (1 # 2)%Q None)
                     worldWithWallets)
     = registry worldWithWallets
  /\ console (after (sendTransaction sendEnvOffline ethWalletId
                       (str "0xFFcf8FDEE72ac11b5c542428B35EEF5769C409f0") (1 # 2)%Q None)
                    worldWithWallets)
     = [ConsoleError (str "Failed to send transaction:") networkDown].
Proof.
  run_send C4_adapter_failure sendEnvOffline ethWalletId
    (str "0xFFcf8FDEE72ac11b5c542428B35EEF5769C409f0") (1 # 2)%Q (@None Q) worldWithWallets.
Defined.

(** C4, as stated, fails: with the network down the adapter stage of an
    Ethereum send fails with [networkDown], and the error that
    [sendTransaction] throws neither is that error nor has it as its cause. *)
Lemma C4_counterexample :
  exists thrown,
    result (adapterStage sendEnvOffline CryptoType.ETHEREUM
              (snd (ethers_createRandom keyGenEnv0))
              (str "0xFFcf8FDEE72ac11b5c542428B35EEF5769C409f0") (1 # 2)%Q None)
           worldWithWallets
    = Throw networkDown
    /\ result (sendTransaction sendEnvOffline ethWalletId
                 (str "0xFFcf8FDEE72ac11b5c542428B35EEF5769C409f0") (1 # 2)%Q None)
              worldWithWallets
       = Throw thrown
    /\ cause thrown <> Some networkDown
    /\ thrown <> networkDown.
Proof.
  exists (Error (str "Failed to send transaction") None).
  split; [vm_compute; reflexivity|].
  split; [vm_compute; reflexivity|].
  split; discriminate.
Qed.

(** ** The send form *)

Lemma handleSend_rejected (parseFloat : jsstring -> option Q) (env : SendEnv)
  (form : SendForm) (w : World) :
  validateForm parseFloat form = false ->
  handleSend parseFloat env form w = (NotSubmitted (newErrors parseFloat form), w).
Proof. intros H. unfold handleSend. now rewrite H. Qed.

Lemma validateForm_amount_error (parseFloat : jsstring -> option Q) (form : SendForm) :
  amount_error (newErrors parseFloat form) <> None ->
  validateForm parseFloat form = false.
Proof.
  intros H. unfold validateForm.
  destruct (address_error (newErrors parseFloat form)); [reflexivity|].
  destruct (amount_error (newErrors parseFloat form)); [reflexivity|contradiction].
Qed.

Lemma validateForm_address_error (parseFloat : jsstring -> option Q) (form : SendForm) :
  address_error (newErrors parseFloat form) <> None ->
  validateForm parseFloat form = false.
Proof.
  intros H. unfold validateForm.
  destruct (address_error (newErrors parseFloat form)); [reflexivity|contradiction].
Qed.

Lemma Qle_bool_false (a b : Q) : (b < a)%Q -> Qle_bool a b = false.
Proof.
  intros H. destruct (Qle_bool a b) eqn:E; [|reflexivity].
  apply Qle_bool_iff in E. exfalso. exact (Qlt_not_le _ _ H E).
Qed.

Lemma amount_error_over_balance (parseFloat : jsstring -> option Q) (form : SendForm)
  (wallet : Wallet) (a : Q) :
  selectedWallet form = Some wallet ->
  parseFloat (amount form) = Some a ->
  (Wallet.balance wallet < a)%Q ->
  amount_error (newErrors parseFloat form) <> None
  /\ (trim_is_empty (amount form) = false -> (0 < a)%Q ->
      amount_error (newErrors parseFloat form) = Some (str "Insufficient balance")).
Proof.
  intros Hw Ha Hlt. unfold newErrors. simpl. rewrite Ha, Hw.
  rewrite (Qle_bool_false a (Wallet.balance wallet) Hlt). simpl.
  split.
  - destruct (trim_is_empty (amount form)); [discriminate|].
    destruct (Qle_bool a 0); discriminate.
  - intros Ht Hpos. rewrite Ht. now rewrite (Qle_bool_false a 0 Hpos).
Qed.

Lemma decryptPrivateKey_keeps_network (c : jsstring) :
  keeps network (decryptPrivateKey c).
Proof. unfold decryptPrivateKey, atob. keeps_tac. Qed.

(** A send from a Bitcoin or Solana wallet is simulated: with the key
    decrypted it cannot fail, whatever the amount and the destination. *)
Lemma sendTransaction_simulated (env : SendEnv) (walletId toAddress : jsstring)
  (amount : Q) (fee : option Q) (w : World) (wallet : Wallet) (pk : jsstring) :
  JsMap.get walletId (wallets w) = Some wallet ->
  Wallet.type wallet = CryptoType.BITCOIN \/ Wallet.type wallet = CryptoType.SOLANA ->
  result (decryptPrivateKey (Wallet.privateKey wallet)) w = Return pk ->
  exists tx,
    result (sendTransaction env walletId toAddress amount fee) w = Return tx
    /\ Transaction.amount tx = amount
    /\ Transaction.toAddress tx = toAddress
    /\ Transaction.status tx = PENDING.
Proof.
  intros Hget Htype Hdec. unfold result. destruct Htype as [Ht|Ht].
  - pose proof (adapterStage_bitcoin env pk toAddress amount fee w) as Hsend.
    rewrite <- Ht in Hsend.
    rewrite (sendTransaction_returns env walletId toAddress amount fee w _ wallet pk _
               Hget Hdec Hsend).
    eexists. repeat split.
  - pose proof (adapterStage_solana env pk toAddress amount fee w) as Hsend.
    rewrite <- Ht in Hsend.
    rewrite (sendTransaction_returns env walletId toAddress amount fee w _ wallet pk _
               Hget Hdec Hsend).
    eexists. repeat split.
Qed.

(** ... and nothing is sent to the network, whether the key decrypts or not. *)
Lemma sendTransaction_simulated_offline (env : SendEnv) (walletId toAddress : jsstring)
  (amount : Q) (fee : option Q) (w : World) (wallet : Wallet) :
  JsMap.get walletId (wallets w) = Some wallet ->
  Wallet.type wallet = CryptoType.BITCOIN \/ Wallet.type wallet = CryptoType.SOLANA ->
  network (after (sendTransaction env walletId toAddress amount fee) w) = network w.
Proof.
  intros Hget Htype. unfold after, sendTransaction, bind at 1, get_world. rewrite Hget.
  unfold try_catch, bind at 1.
  pose proof (decryptPrivateKey_keeps_network (Wallet.privateKey wallet) w) as Hnet.
  destruct (decryptPrivateKey (Wallet.privateKey wallet) w) as [[pk|e] w1]; simpl in Hnet.
  - unfold bind.
    destruct Htype as [Ht|Ht]; rewrite Ht;
      [rewrite adapterStage_bitcoin|rewrite adapterStage_solana]; simpl; exact Hnet.
  - simpl. exact Hnet.
Qed.

(** C2, as amended: [sendTransaction] makes no balance check and never
    changes the registry, so the stored balance is the same after every call,
    failed or not; from a Bitcoin or Solana wallet whose key decrypts any
    amount, also one above the stored balance, is sent. The check is in the
    send form: when the amount typed parses to more than the selected
    wallet's balance, [handleSend] returns without calling [sendTransaction]
    (the world is untouched), and for a positive amount the form shows
    'Insufficient balance'. *)
Theorem C2_balance_check_is_in_the_form :
  (forall (env : SendEnv) (walletId toAddress : jsstring) (amount : Q) (fee : option Q)
          (w : World),
      wallets (after (sendTransaction env walletId toAddress amount fee) w) = wallets w)
  /\ (forall (env : SendEnv) (walletId toAddress : jsstring) (amount : Q) (fee : option Q)
             (w : World) (wallet : Wallet) (pk : jsstring),
         JsMap.get walletId (wallets w) = Some wallet ->
         Wallet.type wallet = CryptoType.BITCOIN \/ Wallet.type wallet = CryptoType.SOLANA ->
         result (decryptPrivateKey (Wallet.privateKey wallet)) w = Return pk ->
         exists tx,
           result (sendTransaction env walletId toAddress amount fee) w = Return tx
           /\ Transaction.amount tx = amount
           /\ Transaction.status tx = PENDING)
  /\ (forall (parseFloat : jsstring -> option Q) (env : SendEnv) (form : SendForm)
             (w : World) (wallet : Wallet) (a : Q),
         selectedWallet form = Some wallet ->
         parseFloat (amount form) = Some a ->
         (Wallet.balance wallet < a)%Q ->
         handleSend parseFloat env form w = (NotSubmitted (newErrors parseFloat form), w)
         /\ (trim_is_empty (amount form) = false -> (0 < a)%Q ->
             amount_error (newErrors parseFloat form) = Some (str "Insufficient balance"))).
Proof.
  split; [|split].
  - intros. apply sendTransaction_keeps_wallets.
  - intros env walletId toAddress amount fee w wallet pk Hget Htype Hdec.
    destruct (sendTransaction_simulated env walletId toAddress amount fee w wallet pk
                Hget Htype Hdec) as (tx & Hres & Hamount & _ & Hstatus).
    exists tx. auto.
  - intros parseFloat env form w wallet a Hw Ha Hlt.
    destruct (amount_error_over_balance parseFloat form wallet a Hw Ha Hlt) as [Hne Hmsg].
    split; [|exact Hmsg].
    apply handleSend_rejected. now apply validateForm_amount_error.
Qed.

Lemma C2_balance_check_is_in_the_form_witness :
  wallets (after (sendTransaction sendEnvOnline btcWalletId
                    (str "bc1qar0srrr7xfkvy5l643lydnw9re59gtzzwf5mdq") 5%Q None)
                 worldFunded)
  = wallets worldFunded
  /\ (exists tx,
         result (sendTransaction sendEnvOnline btcWalletId
                   (str "bc1qar0srrr7xfkvy5l643lydnw9re59gtzzwf5mdq") 5%Q None)
                worldFunded = Return tx
         /\ Transaction.amount tx = 5%Q
         /\ Transaction.status tx = PENDING)
  /\ handleSend parseFloatDecimal sendEnvOnline formOverBalance worldFunded
     = (NotSubmitted (newErrors parseFloatDecimal formOverBalance), worldFunded)
  /\ amount_error (newErrors parseFloatDecimal formOverBalance)
     = Some (str "Insufficient balance").
Proof.
  destruct C2_balance_check_is_in_the_form as (Hkeeps & Hsim & Hform).
  split; [apply Hkeeps|]. split.
  - let g := eval vm_compute in (JsMap.get btcWalletId (wallets worldFunded)) in
    match g with
    | Some ?wallet =>
        let d := eval vm_compute in
                   (result (decryptPrivateKey (Wallet.privateKey wallet)) worldFunded) in
        match d with
        | Return ?pk =>
            apply (Hsim sendEnvOnline btcWalletId
                     (str "bc1qar0srrr7xfkvy5l643lydnw9re59gtzzwf5mdq") 5%Q None
                     worldFunded wallet pk)
        end
    end.
    + vm_compute. reflexivity.
    + left. vm_compute. reflexivity.
    + vm_compute. reflexivity.
  - let g := eval vm_compute in (selectedWallet formOverBalance) in
    match g with
    | Some ?wallet =>
        destruct (Hform parseFloatDecimal sendEnvOnline formOverBalance worldFunded wallet 5%Q)
          as [Hsend Hmsg]
    end.
    + vm_compute. reflexivity.
    + vm_compute. reflexivity.
    + vm_compute. reflexivity.
    + split; [exact Hsend|]. apply Hmsg; vm_compute; reflexivity.
Defined.

(** C2, as stated, fails: the Bitcoin wallet holds 0.05 and a send of 5 from
    it completes with a pending Transaction. *)
Lemma C2_counterexample :
  exists wallet tx,
    getWallet btcWalletId worldFunded = Some wallet
    /\ (Wallet.balance wallet < 5)%Q
    /\ result (sendTransaction sendEnvOnline btcWalletId
                 (str "bc1qar0srrr7xfkvy5l643lydnw9re59gtzzwf5mdq") 5%Q None)
              worldFunded
       = Return tx
    /\ Transaction.status tx = PENDING
    /\ Transaction.amount tx = 5%Q.
Proof.
  destruct (getWallet btcWalletId worldFunded) as [wallet|] eqn:Hget;
    [|vm_compute in Hget; discriminate].
  destruct (result (sendTransaction sendEnvOnline btcWalletId
                      (str "bc1qar0srrr7xfkvy5l643lydnw9re59gtzzwf5mdq") 5%Q None)
                   worldFunded) as [tx|e] eqn:Hsend;
    [|vm_compute in Hsend; discriminate].
  exists wallet, tx. split; [reflexivity|].
  vm_compute in Hget. injection Hget as <-.
  vm_compute in Hsend. injection Hsend as <-.
  repeat split.
Qed.

Lemma address_error_malformed (parseFloat : jsstring -> option Q) (form : SendForm) :
  trim_is_empty (recipientAddress form) = true \/ length (recipientAddress form) < 20 ->
  address_error (newErrors parseFloat form) <> None.
Proof.
  intros H. unfold newErrors. simpl.
  destruct (trim_is_empty (recipientAddress form)); [discriminate|].
  destruct H as [H|H]; [discriminate|].
  apply Nat.ltb_lt in H. rewrite H. discriminate.
Qed.

(** C3, as amended: [sendTransaction] does not examine the destination. For
    a registered Bitcoin or Solana wallet it performs no call to the network
    layer, and when the wallet's key decrypts it returns a pending
    Transaction to any string. The address check is in the send form: a
    destination that is blank or shorter than 20 characters (such as
    "not-an-address") makes [handleSend] return without calling
    [sendTransaction], so the world, network included, is untouched. *)
Theorem C3_address_check_is_in_the_form :
  (forall (env : SendEnv) (walletId toAddress : jsstring) (amount : Q) (fee : option Q)
          (w : World) (wallet : Wallet),
      JsMap.get walletId (wallets w) = Some wallet ->
      Wallet.type wallet = CryptoType.BITCOIN \/ Wallet.type wallet = CryptoType.SOLANA ->
      network (after (sendTransaction env walletId toAddress amount fee) w) = network w
      /\ (forall pk,
             result (decryptPrivateKey (Wallet.privateKey wallet)) w = Return pk ->
             exists tx,
               result (sendTransaction env walletId toAddress amount fee) w = Return tx
               /\ Transaction.toAddress tx = toAddress
               /\ Transaction.status tx = PENDING))
  /\ (forall (parseFloat : jsstring -> option Q) (env : SendEnv) (form : SendForm)
             (w : World),
         trim_is_empty (recipientAddress form) = true
         \/ length (recipientAddress form) < 20 ->
         handleSend parseFloat env form w = (NotSubmitted (newErrors parseFloat form), w)
         /\ address_error (newErrors parseFloat form) <> None).
Proof.
  split.
  - intros env walletId toAddress amount fee w wallet Hget Htype. split.
    + now apply (sendTransaction_simulated_offline env walletId toAddress amount fee w wallet).
    + intros pk Hdec.
      destruct (sendTransaction_simulated env walletId toAddress amount fee w wallet pk
                  Hget Htype Hdec) as (tx & Hres & _ & Hto & Hstatus).
      exists tx. auto.
  - intros parseFloat env form w H.
    pose proof (address_error_malformed parseFloat form H) as Hne.
    split; [|exact Hne].
    apply handleSend_rejected. now apply validateForm_address_error.
Qed.

Lemma C3_address_check_is_in_the_form_witness :
  network (after (sendTransaction sendEnvOnline solWalletId (str "anything at all") 1%Q None)
                 worldWithWallets) = network worldWithWallets
  /\ (exists tx,
         result (sendTransaction sendEnvOnline solWalletId (str "anything at all") 1%Q None)
                worldWithWallets = Return tx
         /\ Transaction.toAddress tx = str "anything at all"
         /\ Transaction.status tx = PENDING)
  /\ handleSend parseFloatDecimal sendEnvOnline formBadAddress worldFunded
     = (NotSubmitted (newErrors parseFloatDecimal formBadAddress), worldFunded)
  /\ address_error (newErrors parseFloatDecimal formBadAddress)
     = Some (str "Please enter a valid wallet address").
Proof.
  destruct C3_address_check_is_in_the_form as [Hsim Hform].
  assert (Hsol : network (after (sendTransaction sendEnvOnline solWalletId
                                   (str "anything at all") 1%Q None) worldWithWallets)
                 = network worldWithWallets
                 /\ exists tx,
                      result (sendTransaction sendEnvOnline solWalletId
                                (str "anything at all") 1%Q None) worldWithWallets
                      = Return tx
                      /\ Transaction.toAddress tx = str "anything at all"
                      /\ Transaction.status tx = PENDING).
  { let g := eval vm_compute in (JsMap.get solWalletId (wallets worldWithWallets)) in
    match g with
    | Some ?wallet =>
        let d := eval vm_compute in
                   (result (decryptPrivateKey (Wallet.privateKey wallet)) worldWithWallets) in
        match d with
        | Return ?pk =>
            destruct (Hsim sendEnvOnline solWalletId (str "anything at all") 1%Q None
                        worldWithWallets wallet) as [Hnet Hsend];
            [vm_compute; reflexivity | right; vm_compute; reflexivity |];
            split; [exact Hnet|]; apply (Hsend pk); vm_compute; reflexivity
        end
    end. }
  destruct Hsol as [Hnet Hsend].
  split; [exact Hnet|]. split; [exact Hsend|].
  destruct (Hform parseFloatDecimal sendEnvOnline formBadAddress worldFunded) as [Hrej _].
  - right. vm_compute. lia.
  - split; [exact Hrej|]. vm_compute. reflexivity.
Defined.

(** C3, as stated, fails: a send from the Bitcoin wallet to "not-an-address"
    does not fail at all. *)
Lemma C3_counterexample :
  exists tx,
    result (sendTransaction sendEnvOnline btcWalletId (str "not-an-address") (1 # 100)%Q None)
           worldFunded
    = Return tx
    /\ Transaction.toAddress tx = str "not-an-address"
    /\ Transaction.status tx = PENDING.
Proof.
  destruct (result (sendTransaction sendEnvOnline btcWalletId (str "not-an-address")
                      (1 # 100)%Q None) worldFunded) as [tx|e] eqn:Hsend;
    [|vm_compute in Hsend; discriminate].
  exists tx. split; [reflexivity|].
  vm_compute in Hsend. injection Hsend as <-. split; reflexivity.
Qed.

Example sha256_constants :
  nth 0 SHA256.K 0%N = 0x428a2f98%N /\ nth 63 SHA256.K 0%N = 0xc67178f2%N
  /\ nth 0 SHA256.H0 0%N = 0x6a09e667%N /\ nth 7 SHA256.H0 0%N = 0x5be0cd19%N.
Proof. vm_compute. auto. Qed.

(** ** The map of the registry *)

Lemma get_set (V : Type) (k k' : jsstring) (v : V) (m : JsMap.t V) :
  JsMap.get k' (JsMap.set k v m) = if streq k k' then Some v else JsMap.get k' m.
Proof.
  induction m as [|[k0 v0] m IH]; simpl.
  - reflexivity.
  - destruct (streq k0 k) eqn:E0; simpl.
    + apply streq_eq in E0. subst k0. destruct (streq k k'); reflexivity.
    + rewrite IH. destruct (streq k0 k') eqn:E1; [|reflexivity].
      apply streq_eq in E1. subst k0.
      destruct (streq k k') eqn:E2; [|reflexivity].
      apply streq_eq in E2. subst k'. rewrite streq_refl in E0. discriminate.
Qed.

Lemma get_set_same (V : Type) (k : jsstring) (v : V) (m : JsMap.t V) :
  JsMap.get k (JsMap.set k v m) = Some v.
Proof. rewrite get_set. now rewrite streq_refl. Qed.

Lemma get_In (V : Type) (k : jsstring) (v : V) (m : JsMap.t V) :
  JsMap.get k m = Some v -> In (k, v) m.
Proof.
  induction m as [|[k0 v0] m IH]; simpl; [discriminate|].
  destruct (streq k0 k) eqn:E.
  - apply streq_eq in E. subst k0. intros H. injection H as ->. now left.
  - intros H. right. auto.
Qed.

Lemma get_None_keys (V : Type) (k : jsstring) (m : JsMap.t V) :
  JsMap.get k m = None <-> ~ In k (JsMap.keys m).
Proof.
  induction m as [|[k0 v0] m IH]; simpl.
  - tauto.
  - destruct (streq k0 k) eqn:E.
    + apply streq_eq in E. split; [discriminate|]. intros H. exfalso. auto.
    + apply streq_neq in E. rewrite IH. tauto.
Qed.

Lemma keys_set (V : Type) (k : jsstring) (v : V) (m : JsMap.t V) :
  JsMap.keys (JsMap.set k v m)
  = if JsMap.has k m then JsMap.keys m else JsMap.keys m ++ [k].
Proof.
  unfold JsMap.has. induction m as [|[k0 v0] m IH]; simpl.
  - reflexivity.
  - destruct (streq k0 k) eqn:E; simpl; [reflexivity|].
    rewrite IH. destruct (JsMap.get k m); reflexivity.
Qed.

Lemma NoDup_keys_set (V : Type) (k : jsstring) (v : V) (m : JsMap.t V) :
  NoDup (JsMap.keys m) -> NoDup (JsMap.keys (JsMap.set k v m)).
Proof.
  intros H. rewrite keys_set. unfold JsMap.has.
  destruct (JsMap.get k m) eqn:E; [exact H|].
  apply get_None_keys in E.
  apply NoDup_app; [exact H|apply NoDup_cons; [tauto|apply NoDup_nil]|].
  intros x Hx [<-|[]]. contradiction.
Qed.

Lemma In_set (V : Type) (k : jsstring) (v : V) (m : JsMap.t V) (entry : jsstring * V) :
  In entry (JsMap.set k v m) -> entry = (k, v) \/ In entry m.
Proof.
  induction m as [|[k0 v0] m IH]; simpl.
  - intros [<-|[]]. now left.
  - destruct (streq k0 k) eqn:E; simpl.
    + apply streq_eq in E. subst k0. intros [<-|H]; auto.
    + intros [<-|H]; auto. destruct (IH H); auto.
Qed.

Lemma set_In (V : Type) (k : jsstring) (v : V) (m : JsMap.t V) :
  In (k, v) (JsMap.set k v m).
Proof. apply get_In, get_set_same. Qed.

Lemma In_delete (V : Type) (k : jsstring) (m : JsMap.t V) (entry : jsstring * V) :
  In entry (JsMap.delete k m) -> In entry m.
Proof.
  induction m as [|[k0 v0] m IH]; simpl; [tauto|].
  destruct (streq k0 k); simpl; [tauto|]. intros [<-|H]; auto.
Qed.

Lemma NoDup_keys_delete (V : Type) (k : jsstring) (m : JsMap.t V) :
  NoDup (JsMap.keys m) -> NoDup (JsMap.keys (JsMap.delete k m)).
Proof.
  induction m as [|[k0 v0] m IH]; simpl; [auto|].
  intros H. inversion_clear H as [|? ? Hnotin Hm].
  destruct (streq k0 k); simpl; [exact Hm|].
  apply NoDup_cons; [|auto].
  intros Hin. apply Hnotin. unfold JsMap.keys in *.
  apply in_map_iff in Hin as ([k1 v1] & <- & Hin).
  apply in_map_iff. exists (k1, v1). split; [reflexivity|].
  now apply In_delete in Hin.
Qed.

Lemma get_delete (V : Type) (k k' : jsstring) (m : JsMap.t V) :
  NoDup (JsMap.keys m) ->
  JsMap.get k' (JsMap.delete k m) = if streq k k' then None else JsMap.get k' m.
Proof.
  induction m as [|[k0 v0] m IH]; simpl; intros H.
  - destruct (streq k k'); reflexivity.
  - inversion_clear H as [|? ? Hnotin Hm].
    destruct (streq k0 k) eqn:E0.
    + apply streq_eq in E0. subst k0.
      destruct (streq k k') eqn:E1; [|reflexivity].
      apply streq_eq in E1. subst k'. now apply get_None_keys.
    + simpl. rewrite (IH Hm). destruct (streq k0 k') eqn:E1; [|reflexivity].
      apply streq_eq in E1. subst k0.
      destruct (streq k k') eqn:E2; [|reflexivity].
      apply streq_eq in E2. subst k'. rewrite streq_refl in E0. discriminate.
Qed.

(** ** getBalance *)

Lemma queryBalance_keeps_wallets (env : BalanceEnv) (wallet : Wallet) :
  keeps wallets (queryBalance env wallet).
Proof.
  unfold queryBalance, getEthereumBalance, getBitcoinBalance, getSolanaBalance.
  keeps_tac.
Qed.

(** A helper that catches everything and answers [0] cannot throw. *)
Lemma swallowed (body : M Q) (label : jsstring) (w : World) :
  exists b,
    result (try_catch body (fun error => console_error label error ;; ret 0%Q)) w
    = Return b.
Proof.
  unfold result, try_catch. destruct (body w) as [[b|e] w']; simpl; eauto.
Qed.

(** The chain helpers swallow every failure, so the [switch] of [getBalance]
    always yields a number and the [catch] of [getBalance] is never entered. *)
Lemma queryBalance_never_throws (env : BalanceEnv) (wallet : Wallet) (w : World) :
  exists b, result (queryBalance env wallet) w = Return b.
Proof.
  unfold queryBalance.
  destruct (streq (Wallet.type wallet) CryptoType.ETHEREUM); [apply swallowed|].
  destruct (streq (Wallet.type wallet) CryptoType.BITCOIN); [apply swallowed|].
  destruct (streq (Wallet.type wallet) CryptoType.SOLANA); [apply swallowed|].
  eexists. reflexivity.
Qed.

Lemma getBalance_run (env : BalanceEnv) (walletId : jsstring) (w w1 : World)
  (wallet : Wallet) (b : Q) :
  JsMap.get walletId (wallets w) = Some wallet ->
  queryBalance env wallet w = (Return b, w1) ->
  getBalance env walletId w
  = (Return b,
     mkWorld (JsMap.set walletId
                (Wallet.set_updatedAt (balance_Date env) (Wallet.set_balance b wallet))
                (wallets w1))
             (encryptionKey w1) (console w1) (network w1)).
Proof.
  intros Hget Hq. unfold getBalance, bind at 1, get_world. rewrite Hget.
  unfold try_catch, bind. now rewrite Hq.
Qed.

Lemma getBalance_found (env : BalanceEnv) (walletId : jsstring) (w : World)
  (wallet : Wallet) :
  JsMap.get walletId (wallets w) = Some wallet ->
  exists b,
    result (queryBalance env wallet) w = Return b
    /\ result (getBalance env walletId) w = Return b
    /\ wallets (after (getBalance env walletId) w)
       = JsMap.set walletId
           (Wallet.set_updatedAt (balance_Date env) (Wallet.set_balance b wallet))
           (wallets w).
Proof.
  intros Hget.
  destruct (queryBalance_never_throws env wallet w) as [b Hb].
  pose proof (queryBalance_keeps_wallets env wallet w) as Hkeep.
  exists b. split; [exact Hb|].
  unfold result in Hb. unfold result, after.
  destruct (queryBalance env wallet w) as [r w1] eqn:Hq. simpl in Hb, Hkeep. subst r.
  rewrite (getBalance_run env walletId w w1 wallet b Hget Hq). simpl.
  now rewrite Hkeep.
Qed.

Lemma getBalance_missing (env : BalanceEnv) (walletId : jsstring) (w : World) :
  JsMap.get walletId (wallets w) = None ->
  getBalance env walletId w = (Throw (Error (str "Wallet not found") None), w).
Proof.
  intros Hget. unfold getBalance, bind, get_world. now rewrite Hget.
Qed.

Lemma queryBalance_failed (env : BalanceEnv) (wallet : Wallet) (w : World) :
  chainQueryFails env wallet ->
  result (queryBalance env wallet) w = Return 0%Q.
Proof.
  unfold result, queryBalance.
  intros [(Ht & e & He)|[(Ht & e & He)|(Ht & Hpk & e & He)]]; rewrite Ht.
  - change (streq CryptoType.ETHEREUM CryptoType.ETHEREUM) with true. cbv iota.
    unfold getEthereumBalance, try_catch, bind, net_call, await. now rewrite He.
  - change (streq CryptoType.BITCOIN CryptoType.ETHEREUM) with false.
    change (streq CryptoType.BITCOIN CryptoType.BITCOIN) with true. cbv iota.
    unfold getBitcoinBalance, try_catch, bind, net_call, await. now rewrite He.
  - change (streq CryptoType.SOLANA CryptoType.ETHEREUM) with false.
    change (streq CryptoType.SOLANA CryptoType.BITCOIN) with false.
    change (streq CryptoType.SOLANA CryptoType.SOLANA) with true. cbv iota.
    unfold getSolanaBalance, try_catch, bind, net_call, await. now rewrite Hpk, He.
Qed.

(** C5, what the code does instead: when the balance query of a registered
    wallet fails, [getBalance] does not throw, but it returns [0] and records
    [0] as the wallet's balance; the balance stored before is lost. *)
Theorem C5_failed_query_returns_zero (env : BalanceEnv) (walletId : jsstring)
  (w : World) (wallet : Wallet) :
  JsMap.get walletId (wallets w) = Some wallet ->
  chainQueryFails env wallet ->
  result (getBalance env walletId) w = Return 0%Q
  /\ JsMap.get walletId (wallets (after (getBalance env walletId) w))
     = Some (Wallet.set_updatedAt (balance_Date env) (Wallet.set_balance 0%Q wallet)).
Proof.
  intros Hget Hfail.
  destruct (getBalance_found env walletId w wallet Hget) as (b & Hb & Hres & Hset).
  rewrite (queryBalance_failed env wallet w Hfail) in Hb. injection Hb as <-.
  split; [exact Hres|]. rewrite Hset. apply get_set_same.
Qed.

Lemma C5_failed_query_returns_zero_witness :
  exists wallet,
    getWallet ethWalletId worldEthFunded = Some wallet
    /\ Qeq_bool (Wallet.balance wallet) (3 # 2) = true
    /\ result (getBalance balanceEnvOffline ethWalletId) worldEthFunded = Return 0%Q
    /\ JsMap.get ethWalletId
         (wallets (after (getBalance balanceEnvOffline ethWalletId) worldEthFunded))
       = Some (Wallet.set_updatedAt 1700000003000%N (Wallet.set_balance 0%Q wallet)).
Proof.
  let g := eval vm_compute in (getWallet ethWalletId worldEthFunded) in
  match g with
  | Some ?wallet =>
      exists wallet; split; [vm_compute; reflexivity|]; split; [vm_compute; reflexivity|];
      apply (C5_failed_query_returns_zero balanceEnvOffline ethWalletId worldEthFunded wallet)
  end.
  - vm_compute. reflexivity.
  - left. split; [vm_compute; reflexivity|]. exists networkDown. reflexivity.
Defined.

(** ** The registry under its operations *)

Lemma registry_eq (w w' : World) :
  registry w' = registry w ->
  wallets w' = wallets w /\ encryptionKey w' = encryptionKey w.
Proof. unfold registry. intros H. now inversion H. Qed.

Lemma generateKeys_keeps_registry (env : KeyGenEnv) (cryptoType : jsstring) :
  keeps registry (generateKeys env cryptoType).
Proof. unfold generateKeys, btoa. keeps_tac. Qed.

Lemma encryptPrivateKey_keeps_registry (k : jsstring) :
  keeps registry (encryptPrivateKey k).
Proof. unfold encryptPrivateKey, btoa. keeps_tac. Qed.

Lemma NETWORKS_symbol_keeps_registry (cryptoType : jsstring) :
  keeps registry (NETWORKS_symbol cryptoType).
Proof. unfold NETWORKS_symbol. keeps_tac. Qed.

(** [createWallet] either fails and leaves the registry alone, or returns a
    record for the user and chain asked for and stores it under its id. *)
Lemma createWallet_cases (env : KeyGenEnv) (userId cryptoType name : jsstring) (w : World) :
  (exists e w',
      createWallet env userId cryptoType name w = (Throw e, w')
      /\ registry w' = registry w)
  \/ (exists wallet w',
         createWallet env userId cryptoType name w = (Return wallet, w')
         /\ Wallet.userId wallet = userId
         /\ Wallet.type wallet = cryptoType
         /\ Wallet.id wallet = cryptoType ++ str "_" ++ decimal (id_Date_now env)
         /\ wallets w' = JsMap.set (Wallet.id wallet) wallet (wallets w)
         /\ encryptionKey w' = encryptionKey w).
Proof.
  unfold createWallet, try_catch, bind.
  pose proof (generateKeys_keeps_registry env cryptoType w) as H1.
  destruct (generateKeys env cryptoType w) as [[keys|e] w1]; simpl in H1.
  2: { left. eexists. eexists. split; [reflexivity|]. exact H1. }
  pose proof (encryptPrivateKey_keeps_registry (snd keys) w1) as H2.
  destruct (encryptPrivateKey (snd keys) w1) as [[encrypted|e] w2]; simpl in H2.
  2: { left. eexists. eexists. split; [reflexivity|].
       unfold registry in *. simpl. congruence. }
  pose proof (NETWORKS_symbol_keeps_registry cryptoType w2) as H3.
  destruct (NETWORKS_symbol cryptoType w2) as [[symbol|e] w3]; simpl in H3.
  2: { left. eexists. eexists. split; [reflexivity|].
       unfold registry in *. simpl. congruence. }
  right. eexists. eexists. split; [reflexivity|]. simpl.
  assert (H : registry w3 = registry w) by congruence.
  apply registry_eq in H as [Hw Hk]. rewrite Hw, Hk. auto.
Qed.

Lemma one_record_set (m : JsMap.t Wallet) (k : jsstring) (v : Wallet) :
  NoDup (JsMap.keys m) ->
  Forall (fun entry => Wallet.id (snd entry) = fst entry) m ->
  Wallet.id v = k ->
  NoDup (JsMap.keys (JsMap.set k v m))
  /\ Forall (fun entry => Wallet.id (snd entry) = fst entry) (JsMap.set k v m).
Proof.
  intros Hnd Hid Hv. split; [now apply NoDup_keys_set|].
  rewrite Forall_forall in *. intros entry Hin.
  apply In_set in Hin as [->|Hin]; auto.
Qed.

Lemma one_record_delete (m : JsMap.t Wallet) (k : jsstring) :
  NoDup (JsMap.keys m) ->
  Forall (fun entry => Wallet.id (snd entry) = fst entry) m ->
  NoDup (JsMap.keys (JsMap.delete k m))
  /\ Forall (fun entry => Wallet.id (snd entry) = fst entry) (JsMap.delete k m).
Proof.
  intros Hnd Hid. split; [now apply NoDup_keys_delete|].
  rewrite Forall_forall in *. intros entry Hin. apply Hid. now apply In_delete in Hin.
Qed.

Lemma get_id (w : World) (k : jsstring) (wallet : Wallet) :
  one_record_per_id w -> JsMap.get k (wallets w) = Some wallet -> Wallet.id wallet = k.
Proof.
  intros [_ Hid] Hget. apply get_In in Hget.
  rewrite Forall_forall in Hid. exact (Hid (k, wallet) Hget).
Qed.

Lemma step_one_record (w : World) (op : RegistryOp) :
  one_record_per_id w -> one_record_per_id (step w op).
Proof.
  intros Hw. pose proof Hw as [Hnd Hid]. unfold one_record_per_id.
  destruct op as [env userId cryptoType name | now wallet | walletId | env walletId]; simpl.
  - unfold after.
    destruct (createWallet_cases env userId cryptoType name w)
      as [(e & w' & -> & Hreg)|(wallet & w' & -> & _ & _ & _ & Hset & _)]; simpl.
    + apply registry_eq in Hreg as [-> _]. exact Hw.
    + rewrite Hset. now apply one_record_set.
  - now apply one_record_set.
  - now apply one_record_delete.
  - destruct (JsMap.get walletId (wallets w)) as [wallet|] eqn:Hget.
    + destruct (getBalance_found env walletId w wallet Hget) as (b & _ & _ & ->).
      apply one_record_set; auto. simpl. exact (get_id w walletId wallet Hw Hget).
    + unfold after. rewrite (getBalance_missing env walletId w Hget). exact Hw.
Qed.

Ltac same_record Hbefore :=
  let H := fresh in
  intros H; cbn [snd wallets] in H; rewrite Hbefore in H; injection H as <-; reflexivity.

Lemma step_addresses_kept (w : World) (op : RegistryOp) :
  one_record_per_id w ->
  address_preserving w op ->
  addresses_kept w (step w op).
Proof.
  intros Hw Hop k wallet wallet' Hbefore.
  destruct op as [env userId cryptoType name | now updated | walletId | env walletId];
    cbn [address_preserving] in Hop; cbn [step].
  - unfold after.
    destruct (createWallet_cases env userId cryptoType name w)
      as [(e & w' & -> & Hreg)|(created & w' & -> & _ & _ & Hnew & Hset & _)]; simpl.
    + apply registry_eq in Hreg as [-> _]. same_record Hbefore.
    + rewrite Hset, get_set. destruct (streq (Wallet.id created) k) eqn:E.
      * apply streq_eq in E. rewrite Hnew in E. subst k. congruence.
      * same_record Hbefore.
  - unfold after, updateWallet, wallets_set. simpl.
    rewrite get_set. destruct (streq (Wallet.id updated) k) eqn:E.
    + apply streq_eq in E. subst k. intros H. injection H as <-. simpl.
      now apply Hop.
    + same_record Hbefore.
  - unfold after, deleteWallet. simpl.
    rewrite get_delete by apply Hw. destruct (streq walletId k); [discriminate|].
    same_record Hbefore.
  - destruct (JsMap.get walletId (wallets w)) as [found|] eqn:Hget.
    + destruct (getBalance_found env walletId w found Hget) as (b & _ & _ & ->).
      rewrite get_set. destruct (streq walletId k) eqn:E.
      * apply streq_eq in E. subst k. intros H. injection H as <-. simpl. congruence.
      * same_record Hbefore.
    + unfold after. rewrite (getBalance_missing env walletId w Hget).
      same_record Hbefore.
Qed.

Lemma ids_are_keys (m : JsMap.t Wallet) :
  Forall (fun entry => Wallet.id (snd entry) = fst entry) m ->
  map Wallet.id (JsMap.values m) = JsMap.keys m.
Proof.
  induction 1 as [|[k v] m Hid _ IH]; simpl; [reflexivity|].
  simpl in Hid. now rewrite Hid, IH.
Qed.

Lemma one_record_ids (w : World) :
  one_record_per_id w -> NoDup (map Wallet.id (JsMap.values (wallets w))).
Proof. intros [Hnd Hid]. now rewrite ids_are_keys. Qed.

Lemma run_one_record (ops : list RegistryOp) (w : World) :
  one_record_per_id w -> one_record_per_id (run ops w).
Proof.
  revert w. induction ops as [|op ops IH]; intros w Hw; simpl; [exact Hw|].
  apply IH. now apply step_one_record.
Qed.

Lemma initialWorld_one_record : one_record_per_id initialWorld.
Proof. split; [apply NoDup_nil|apply Forall_nil]. Qed.

(** C8, as amended: after every sequence of registry operations the registry
    holds exactly one record per wallet id, stored under that id (no two
    records share an id). A deletion
    or a balance refresh never changes the address recorded under an id; an
    [updateWallet] stores the record it is given, and keeps the address
    recorded under that id when the record carries it; a [createWallet]
    whose generated id is not yet in the registry leaves every recorded
    address alone. *)
Theorem C8_registry_invariant (ops : list RegistryOp) (w : World) :
  one_record_per_id w ->
  one_record_per_id (run ops w)
  /\ NoDup (map Wallet.id (JsMap.values (wallets (run ops w))))
  /\ (forall op,
         address_preserving (run ops w) op ->
         addresses_kept (run ops w) (step (run ops w) op)).
Proof.
  intros Hw. pose proof (run_one_record ops w Hw) as Hrun.
  split; [exact Hrun|]. split; [now apply one_record_ids|].
  intros op Hop. now apply step_addresses_kept.
Qed.

Lemma C8_registry_invariant_witness :
  one_record_per_id
    (run [OpCreateWallet keyGenEnv0 (str "user_1") CryptoType.ETHEREUM (str "My ETH Wallet");
          OpGetBalance balanceEnvOffline ethWalletId;
          OpDeleteWallet btcWalletId]
         worldWithKey)
  /\ addresses_kept
       (run [OpCreateWallet keyGenEnv0 (str "user_1") CryptoType.ETHEREUM (str "My ETH Wallet")]
            worldWithKey)
       (step (run [OpCreateWallet keyGenEnv0 (str "user_1") CryptoType.ETHEREUM
                     (str "My ETH Wallet")]
                  worldWithKey)
             (OpGetBalance balanceEnvOffline ethWalletId)).
Proof.
  assert (H0 : one_record_per_id worldWithKey).
  { split; [apply NoDup_nil|apply Forall_nil]. }
  split.
  - apply (C8_registry_invariant _ worldWithKey H0).
  - destruct (C8_registry_invariant
                [OpCreateWallet keyGenEnv0 (str "user_1") CryptoType.ETHEREUM
                   (str "My ETH Wallet")] worldWithKey H0) as (_ & _ & Hkept).
    apply Hkept. exact I.
Defined.

(** C8, as stated, fails: an [updateWallet] with a copy of the record that
    carries another address replaces the address recorded under the id. *)
Lemma C8_counterexample :
  exists wallet wallet',
    JsMap.get ethWalletId
      (wallets (run [OpCreateWallet keyGenEnv0 (str "user_1") CryptoType.ETHEREUM
                       (str "My ETH Wallet")] worldWithKey))
    = Some wallet
    /\ JsMap.get ethWalletId
         (wallets
            (step (run [OpCreateWallet keyGenEnv0 (str "user_1") CryptoType.ETHEREUM
                          (str "My ETH Wallet")] worldWithKey)
                  (OpUpdateWallet 1700000009000%N
                     (readdressed (str "0x000000000000000000000000000000000000dEaD") wallet))))
       = Some wallet'
    /\ Wallet.address wallet = str "0x90F8bf6A479f320ead074411a4B0e7944Ea8c9C1"
    /\ Wallet.address wallet' = str "0x000000000000000000000000000000000000dEaD".
Proof.
  let g := eval vm_compute in
             (JsMap.get ethWalletId
                (wallets (run [OpCreateWallet keyGenEnv0 (str "user_1") CryptoType.ETHEREUM
                                 (str "My ETH Wallet")] worldWithKey))) in
  match g with
  | Some ?wallet => exists wallet
  end.
  eexists. split; [vm_compute; reflexivity|].
  split; [vm_compute; reflexivity|].
  split; reflexivity.
Qed.

(** ** initializeDemoWallets *)

Lemma testbit_byte_high (c n : N) : (c < 256)%N -> (8 <= n)%N -> N.testbit c n = false.
Proof.
  intros Hc Hn. destruct (N.eq_dec c 0) as [->|Hz]; [apply N.bits_0|].
  apply N.bits_above_log2.
  assert (N.log2 c < 8)%N by (apply N.log2_lt_pow2; [lia|exact Hc]). lia.
Qed.

Lemma lt_256_shiftr (x : N) : (x <? 256)%N = (N.shiftr x 8 =? 0)%N.
Proof.
  rewrite N.shiftr_div_pow2. change (2 ^ 8)%N with 256%N.
  destruct (N.ltb_spec x 256) as [H|H].
  - rewrite N.div_small by exact H. reflexivity.
  - symmetry. apply N.eqb_neq. intros E. apply N.div_small_iff in E; lia.
Qed.

(** XOR with a byte leaves the bits from 8 up as they are in the key
    character. *)
Lemma xor_high_bits (c k : N) :
  (c < 256)%N -> N.shiftr (fromCharCode (N.lxor c k)) 8 = N.shiftr (fromCharCode k) 8.
Proof.
  intros Hc. apply N.bits_inj. intros n.
  rewrite !N.shiftr_spec'. unfold fromCharCode. change 65536%N with (2 ^ 16)%N.
  destruct (N.lt_ge_cases (n + 8) 16) as [H|H].
  - rewrite !N.mod_pow2_bits_low by exact H.
    rewrite N.lxor_spec, (testbit_byte_high c (n + 8) Hc) by lia. reflexivity.
  - rewrite !N.mod_pow2_bits_high by exact H. reflexivity.
Qed.

(** Whether the XOR-ed text is a binary string depends on the key and on the
    length of a binary plaintext, not on its characters. *)
Lemma xor_from_shape (key : jsstring) (a b : jsstring) (i : nat) :
  byte_string a -> byte_string b -> length a = length b ->
  is_byte_string
    (mapi_from (fun char index =>
                  fromCharCode (N.lxor char (nth (index mod length key) key 0%N))) i a)
  = is_byte_string
      (mapi_from (fun char index =>
                    fromCharCode (N.lxor char (nth (index mod length key) key 0%N))) i b).
Proof.
  intros Ha. revert b i. induction Ha as [|c a Hc Ha IH]; intros [|d b] i Hb Hlen;
    try discriminate; [reflexivity|].
  inversion_clear Hb as [|? ? Hd Hb']. injection Hlen as Hlen.
  cbn [mapi_from is_byte_string forallb]. fold (is_byte_string).
  rewrite !lt_256_shiftr, (xor_high_bits c _ Hc), (xor_high_bits d _ Hd).
  f_equal. exact (IH b (S i) Hb' Hlen).
Qed.

Lemma encryptable_shape (w w' : World) (a b : jsstring) :
  encryptionKey w' = encryptionKey w ->
  byte_string a -> byte_string b -> length a = length b ->
  encryptable w' b = encryptable w a.
Proof.
  intros Hk Ha Hb Hlen. unfold encryptable. rewrite Hk.
  destruct (usable_key (encryptionKey w)) as [key|]; [|reflexivity].
  symmetry. now apply xor_from_shape.
Qed.

(** The first step of the initialisation, the Ethereum wallet, succeeds
    exactly when the private key drawn can be encrypted. *)
Lemma createWallet_ethereum_result (env : KeyGenEnv) (userId name : jsstring) (w : World) :
  match result (createWallet env userId CryptoType.ETHEREUM name) w with
  | Return _ => encryptable w (snd (ethers_createRandom env)) = true
  | Throw _ => encryptable w (snd (ethers_createRandom env)) = false
  end.
Proof.
  unfold result, createWallet, try_catch, bind at 1.
  change (generateKeys env CryptoType.ETHEREUM w) with (Return (ethers_createRandom env), w).
  cbv iota. unfold bind at 1.
  unfold encryptPrivateKey, bind at 1, get_world, encryptable.
  destruct (usable_key (encryptionKey w)) as [key|]; [|reflexivity].
  unfold try_catch, btoa, Base64.btoa.
  destruct (is_byte_string (xorWithKey key (snd (ethers_createRandom env)))); reflexivity.
Qed.

Lemma try_bind_return {A B : Type} (m : M A) (k : A -> M B) (h : JsError -> M B)
  (w w' : World) (a : A) :
  m w = (Return a, w') -> try_catch (bind m k) h w = try_catch (k a) h w'.
Proof. intros H. unfold try_catch, bind. now rewrite H. Qed.

Lemma try_bind_throw {A B : Type} (m : M A) (k : A -> M B) (h : JsError -> M B)
  (w w' : World) (e : JsError) :
  m w = (Throw e, w') -> try_catch (bind m k) h w = h e w'.
Proof. intros H. unfold try_catch, bind. now rewrite H. Qed.

Lemma stable_keeps {A : Type} (I : JsMap.t Wallet -> Prop) (m : M A) :
  keeps wallets m -> stable I m.
Proof. intros H w Hw. now rewrite H. Qed.

Lemma stable_bind {A B : Type} (I : JsMap.t Wallet -> Prop) (m : M A) (k : A -> M B) :
  stable I m -> (forall a, stable I (k a)) -> stable I (bind m k).
Proof.
  intros Hm Hk w Hw. unfold bind. specialize (Hm w Hw).
  destruct (m w) as [[a|e] w']; simpl in Hm.
  - now apply Hk.
  - exact Hm.
Qed.

Lemma stable_try {A : Type} (I : JsMap.t Wallet -> Prop) (m : M A) (h : JsError -> M A) :
  stable I m -> (forall e, stable I (h e)) -> stable I (try_catch m h).
Proof.
  intros Hm Hh w Hw. unfold try_catch. specialize (Hm w Hw).
  destruct (m w) as [[a|e] w']; simpl in Hm.
  - exact Hm.
  - now apply Hh.
Qed.

Lemma owns_set (userId k : jsstring) (v : Wallet) (m : JsMap.t Wallet) :
  Wallet.userId v = userId -> owns userId (JsMap.set k v m).
Proof. intros H. exists (k, v). split; [apply set_In|exact H]. Qed.

Lemma stable_createWallet (env : KeyGenEnv) (userId cryptoType name : jsstring) :
  stable (owns userId) (createWallet env userId cryptoType name).
Proof.
  intros w Hw.
  destruct (createWallet_cases env userId cryptoType name w)
    as [(e & w' & -> & Hreg)|(wallet & w' & -> & Hu & _ & _ & Hset & _)]; simpl.
  - apply registry_eq in Hreg as [-> _]. exact Hw.
  - rewrite Hset. now apply owns_set.
Qed.

Lemma stable_updateWallet (userId : jsstring) (now : N) (wallet : Wallet) :
  Wallet.userId wallet = userId -> stable (owns userId) (updateWallet now wallet).
Proof. intros H w _. simpl. now apply owns_set. Qed.

Lemma stable_forEach {A : Type} (I : JsMap.t Wallet -> Prop)
  (callback : A -> nat -> M unit) (l : list A) (i : nat) :
  (forall x j, In x l -> stable I (callback x j)) ->
  stable I (forEach_from callback i l).
Proof.
  revert i. induction l as [|x l IH]; intros i H; simpl.
  - intros w Hw. exact Hw.
  - apply stable_bind; [apply H; now left|].
    intros _. apply IH. intros y j Hy. apply H. now right.
Qed.

Lemma getWalletsByUserId_owner (userId : jsstring) (w : World) (wallet : Wallet) :
  In wallet (getWalletsByUserId userId w) -> Wallet.userId wallet = userId.
Proof.
  unfold getWalletsByUserId. intros H. apply filter_In in H as [_ H].
  now apply streq_eq.
Qed.

Lemma owns_getWalletsByUserId (userId : jsstring) (w : World) :
  owns userId (wallets w) -> getWalletsByUserId userId w <> [].
Proof.
  intros ([k v] & Hin & Hu) E. simpl in Hu.
  assert (H : In v (getWalletsByUserId userId w)).
  { unfold getWalletsByUserId. apply filter_In. split.
    - unfold JsMap.values. apply in_map_iff. exists (k, v). auto.
    - now apply streq_eq. }
  rewrite E in H. exact H.
Qed.

Lemma getWalletsByUserId_wallets (userId : jsstring) (w w' : World) :
  wallets w' = wallets w -> getWalletsByUserId userId w' = getWalletsByUserId userId w.
Proof. intros H. unfold getWalletsByUserId. now rewrite H. Qed.

(** The guard of [initializeDemoWallets]. *)
Lemma initializeDemoWallets_early (env : DemoEnv) (userId : jsstring) (w : World) :
  getWalletsByUserId userId w <> [] ->
  initializeDemoWallets env userId w = (Return tt, w).
Proof.
  intros H. unfold initializeDemoWallets, bind, get_world.
  destruct (getWalletsByUserId userId w); [contradiction|reflexivity].
Qed.

(** When the first wallet cannot be created the call logs the failure and
    leaves the registry as it was. *)
Lemma initializeDemoWallets_failed (env : DemoEnv) (userId : jsstring) (w : World) :
  getWalletsByUserId userId w = [] ->
  encryptable w (snd (ethers_createRandom (eth_env env))) = false ->
  registry (after (initializeDemoWallets env userId) w) = registry w.
Proof.
  intros Hnone Henc.
  pose proof (createWallet_ethereum_result (eth_env env) userId (str "My ETH Wallet") w) as Hres.
  unfold result in Hres.
  destruct (createWallet_cases (eth_env env) userId CryptoType.ETHEREUM (str "My ETH Wallet") w)
    as [(e & w' & Hrun & Hreg)|(wallet & w' & Hrun & _)]; rewrite Hrun in Hres; simpl in Hres.
  - unfold after, initializeDemoWallets, bind at 1, get_world. rewrite Hnone.
    change (0 <? length (@nil Wallet)) with false. cbv iota.
    rewrite (try_bind_throw _ _ _ w w' e Hrun). simpl. exact Hreg.
  - congruence.
Qed.

(** When the first wallet is created the user has a wallet at the end of the
    call, whatever happens to the other two. *)
Lemma initializeDemoWallets_created (env : DemoEnv) (userId : jsstring) (w : World) :
  getWalletsByUserId userId w = [] ->
  encryptable w (snd (ethers_createRandom (eth_env env))) = true ->
  owns userId (wallets (after (initializeDemoWallets env userId) w)).
Proof.
  intros Hnone Henc.
  pose proof (createWallet_ethereum_result (eth_env env) userId (str "My ETH Wallet") w) as Hres.
  unfold result in Hres.
  destruct (createWallet_cases (eth_env env) userId CryptoType.ETHEREUM (str "My ETH Wallet") w)
    as [(e & w' & Hrun & _)|(wallet & w' & Hrun & Hu & _ & _ & Hset & _)];
    rewrite Hrun in Hres; simpl in Hres; [congruence|].
  unfold after, initializeDemoWallets, bind at 1, get_world. rewrite Hnone.
  change (0 <? length (@nil Wallet)) with false. cbv iota.
  rewrite (try_bind_return _ _ _ w w' wallet Hrun).
  apply stable_try.
  - apply stable_bind; [apply stable_createWallet|intros _].
    apply stable_bind; [apply stable_createWallet|intros _].
    apply stable_bind; [apply stable_keeps, keeps_get_world|intros w2].
    apply stable_bind; [|intros _; apply stable_keeps; intro; reflexivity].
    apply stable_forEach. intros x j Hx.
    apply stable_updateWallet. simpl.
    exact (getWalletsByUserId_owner userId w2 x Hx).
  - intros e. apply stable_keeps. intro. reflexivity.
  - rewrite Hset. now apply owns_set.
Qed.

(** C10: a second call of [initializeDemoWallets] for the same user leaves
    the registry, and so the user's wallets with their ids, addresses and
    balances, as the first call left it; and whenever the user has a wallet
    the call returns at its guard without touching anything. The Ethereum
    library is assumed to return private keys in its documented format. *)
Theorem C10_initializeDemoWallets_idempotent (env1 env2 : DemoEnv) (userId : jsstring)
  (w : World) :
  ethereum_key_format (eth_env env1) ->
  ethereum_key_format (eth_env env2) ->
  wallets (after (initializeDemoWallets env2 userId)
                 (after (initializeDemoWallets env1 userId) w))
  = wallets (after (initializeDemoWallets env1 userId) w)
  /\ getWalletsByUserId userId
       (after (initializeDemoWallets env2 userId)
              (after (initializeDemoWallets env1 userId) w))
     = getWalletsByUserId userId (after (initializeDemoWallets env1 userId) w)
  /\ (forall w', getWalletsByUserId userId w' <> [] ->
                 initializeDemoWallets env2 userId w' = (Return tt, w')).
Proof.
  intros [Hb1 Hl1] [Hb2 Hl2].
  assert (Hmain : wallets (after (initializeDemoWallets env2 userId)
                                 (after (initializeDemoWallets env1 userId) w))
                  = wallets (after (initializeDemoWallets env1 userId) w)).
  { destruct (getWalletsByUserId userId (after (initializeDemoWallets env1 userId) w))
      as [|x l] eqn:Hafter.
    - (* the first call left the user without a wallet *)
      destruct (getWalletsByUserId userId w) as [|y l'] eqn:Hbefore.
      + destruct (encryptable w (snd (ethers_createRandom (eth_env env1)))) eqn:Henc.
        * exfalso.
          apply (owns_getWalletsByUserId userId (after (initializeDemoWallets env1 userId) w));
            [|exact Hafter].
          now apply initializeDemoWallets_created.
        * pose proof (initializeDemoWallets_failed env1 userId w Hbefore Henc) as Hreg.
          apply registry_eq in Hreg as [Hw Hk].
          assert (Henc2 : encryptable (after (initializeDemoWallets env1 userId) w)
                                      (snd (ethers_createRandom (eth_env env2))) = false).
          { rewrite <- Henc. apply encryptable_shape; auto. congruence. }
          pose proof (initializeDemoWallets_failed env2 userId _ Hafter Henc2) as Hreg2.
          now apply registry_eq in Hreg2 as [Hw2 _].
      + exfalso.
        assert (Hne : getWalletsByUserId userId w <> []) by (rewrite Hbefore; discriminate).
        unfold after in Hafter.
        rewrite (initializeDemoWallets_early env1 userId w Hne) in Hafter.
        simpl in Hafter. congruence.
    - (* the user has a wallet: the second call returns at the guard *)
      unfold after at 1.
      rewrite (initializeDemoWallets_early env2 userId
                 (after (initializeDemoWallets env1 userId) w));
        [reflexivity|rewrite Hafter; discriminate]. }
  split; [exact Hmain|]. split.
  - now apply getWalletsByUserId_wallets.
  - apply initializeDemoWallets_early.
Qed.

Lemma C10_initializeDemoWallets_idempotent_witness :
  wallets (after (initializeDemoWallets demoEnvB (str "user_1"))
                 (after (initializeDemoWallets demoEnvA (str "user_1")) worldWithKey))
  = wallets (after (initializeDemoWallets demoEnvA (str "user_1")) worldWithKey)
  /\ length (getWalletsByUserId (str "user_1")
               (after (initializeDemoWallets demoEnvA (str "user_1")) worldWithKey)) = 3.
Proof.
  split.
  - apply (C10_initializeDemoWallets_idempotent demoEnvA demoEnvB (str "user_1") worldWithKey).
    + split; [apply is_byte_string_spec|]; vm_compute; reflexivity.
    + split; [apply is_byte_string_spec|]; vm_compute; reflexivity.
  - vm_compute. reflexivity.
Defined.

(** * Further properties of the code *)

(** ** SecurityManager: key generation and initialisation *)







Lemma initialize_stored (env : StoreEnv) (w : World) (c : N) (key : jsstring) :
  getSecureItem env = Return (Some (c :: key)) ->
  initialize env w = (Return tt, with_encryptionKey (Some (c :: key)) w).
Proof.
  intros Hget. unfold initialize, try_catch, bind, await, set_encryptionKey.
  rewrite Hget. reflexivity.
Qed.

(** X2: the key survives a restart. When a first session generated its key
    and stored it, and the store hands that key to [initialize] in a later
    session, the later session adopts it (without generating, writing or
    logging anything, so also where a write would fail) and decrypts every
    private key that the first session encrypted. *)
Theorem X2_key_survives_restart (env1 env2 : StoreEnv) (w1 w2 : World)
  (k encrypted : jsstring) :
  getSecureItem env1 = Return None ->
  setSecureItem env1 = Return tt ->
  keyRandomBytes env1 <> [] ->
  getSecureItem env2 = Return (Some (hexOfBytes (Uint8Array (keyRandomBytes env1)))) ->
  byte_string k ->
  result (encryptPrivateKey k) (after (initialize env1) w1) = Return encrypted ->
  initialize env2 w2
  = (Return tt,
     with_encryptionKey (Some (hexOfBytes (Uint8Array (keyRandomBytes env1)))) w2)
  /\ result (decryptPrivateKey encrypted) (after (initialize env2) w2) = Return k.
Proof.
  intros Hget1 Hset1 Hne Hget2 Hb Henc.
  set (key := hexOfBytes (Uint8Array (keyRandomBytes env1))) in *.
  assert (Hshape : exists c key', key = c :: key').
  { subst key. unfold hexOfBytes, Uint8Array.
    destruct (keyRandomBytes env1) as [|b bytes]; [contradiction|].
    simpl. eauto. }
  destruct Hshape as (c & key' & Hkey).
  assert (Hrun2 : initialize env2 w2 = (Return tt, with_encryptionKey (Some key) w2)).
  { rewrite Hkey. apply initialize_stored. now rewrite <- Hkey. }
  split; [exact Hrun2|].
  assert (Hk1 : usable_key (encryptionKey (after (initialize env1) w1)) = Some key).
  { unfold after, initialize, try_catch, bind, await, generateEncryptionKey,
      set_encryptionKey, ret.
    rewrite Hget1, Hset1. simpl. fold key. now rewrite Hkey. }
  assert (Hbyte : byte_string key) by apply hexOfBytes_byte_string.
  destruct (btoa_defined _ (xorWithKey_byte key k Hbyte Hb)) as [encrypted' He].
  unfold result in Henc.
  rewrite (encryptPrivateKey_ok _ key k encrypted' Hk1 He) in Henc.
  injection Henc as <-.
  unfold result, after. rewrite Hrun2. cbn [snd].
  assert (Hk2 : usable_key (encryptionKey (with_encryptionKey (Some key) w2)) = Some key).
  { simpl. now rewrite Hkey. }
  rewrite (decryptPrivateKey_ok _ key encrypted' _ Hk2 (atob_btoa _ _ He)).
  cbn [fst]. now rewrite xorWithKey_involutive.
Qed.

Lemma X2_key_survives_restart_witness :
  exists encrypted,
    result (encryptPrivateKey (str "0x4f3edf983ac636a65a842ce7c78d9aa706d3b113bce9c46f30d7d21715b23b1d"))
           (after (initialize storeEnvFresh) initialWorld) = Return encrypted
    /\ result (initialize
                 (storeEnvHolding
                    (str "0123456789abcdef1032547698badcfe00112233445566778899aabbccddeeff")))
              initialWorld = Return tt
    /\ result (decryptPrivateKey encrypted)
              (after (initialize
                        (storeEnvHolding
                           (str "0123456789abcdef1032547698badcfe00112233445566778899aabbccddeeff")))
                     initialWorld)
       = Return (str "0x4f3edf983ac636a65a842ce7c78d9aa706d3b113bce9c46f30d7d21715b23b1d").
Proof.
  let r := eval vm_compute in
             (result (encryptPrivateKey
                        (str "0x4f3edf983ac636a65a842ce7c78d9aa706d3b113bce9c46f30d7d21715b23b1d"))
                     (after (initialize storeEnvFresh) initialWorld)) in
  match r with
  | Return ?encrypted =>
      exists encrypted;
      destruct (X2_key_survives_restart storeEnvFresh
                  (storeEnvHolding
                     (str "0123456789abcdef1032547698badcfe00112233445566778899aabbccddeeff"))
                  initialWorld initialWorld
                  (str "0x4f3edf983ac636a65a842ce7c78d9aa706d3b113bce9c46f30d7d21715b23b1d")
                  encrypted) as [Hrun Hdec]
  end.
  - reflexivity.
  - reflexivity.
  - discriminate.
  - vm_compute. reflexivity.
  - apply is_byte_string_spec. vm_compute. reflexivity.
  - vm_compute. reflexivity.
  - split; [vm_compute; reflexivity|]. split; [|exact Hdec].
    unfold result. now rewrite Hrun.
Defined.

(** X3: when the store holds no key (or the empty string) and the write of
    the new key fails, [initialize] throws 'Security initialization failed',
    but the engine keeps the key it generated: private keys can be encrypted
    and decrypted with a key that was never stored. A failing read, in
    contrast, leaves the engine as it was. *)
Theorem X3_initialize_failures (env : StoreEnv) (w : World) (e : JsError)
  (stored : option jsstring) :
  (getSecureItem env = Return stored ->
   usable_key stored = None ->
   setSecureItem env = Throw e ->
   keyRandomBytes env <> [] ->
   result (initialize env) w = Throw (Error (str "Security initialization failed") None)
   /\ encryptionKey (after (initialize env) w)
      = Some (hexOfBytes (Uint8Array (keyRandomBytes env)))
   /\ forall k, byte_string k ->
                result (encryptThenDecrypt k) (after (initialize env) w) = Return k)
  /\ (getSecureItem env = Throw e ->
      result (initialize env) w = Throw (Error (str "Security initialization failed") None)
      /\ registry (after (initialize env) w) = registry w).
Proof.
  split.
  - intros Hget Hnone Hset Hne.
    assert (Hrun : initialize env w
                   = (Throw (Error (str "Security initialization failed") None),
                      mkWorld (wallets w)
                              (Some (hexOfBytes (Uint8Array (keyRandomBytes env))))
                              (console w ++ [ConsoleError
                                               (str "Failed to initialize security manager:") e])
                              (network w))).
    { unfold initialize, try_catch, bind, await, set_encryptionKey, generateEncryptionKey, ret.
      rewrite Hget, Hnone, Hset. reflexivity. }
    unfold result, after. rewrite Hrun. simpl.
    split; [reflexivity|]. split; [reflexivity|].
    intros k Hb.
    set (key := hexOfBytes (Uint8Array (keyRandomBytes env))).
    set (w' := mkWorld _ _ _ _).
    assert (Hk : usable_key (encryptionKey w') = Some key).
    { subst w' key. simpl. destruct (keyRandomBytes env) as [|b bytes];
        [contradiction|reflexivity]. }
    assert (Hkey : byte_string key) by apply hexOfBytes_byte_string.
    destruct (btoa_defined _ (xorWithKey_byte key k Hkey Hb)) as [encrypted He].
    unfold encryptThenDecrypt, bind.
    rewrite (encryptPrivateKey_ok w' key k encrypted Hk He).
    rewrite (decryptPrivateKey_ok w' key encrypted _ Hk (atob_btoa _ _ He)).
    simpl. now rewrite xorWithKey_involutive.
  - intros Hget. unfold result, after, initialize, try_catch, bind, await.
    rewrite Hget. simpl. auto.
Qed.

Lemma X3_initialize_failures_witness :
  result (initialize storeEnvReadOnly) initialWorld
  = Throw (Error (str "Security initialization failed") None)
  /\ encryptionKey (after (initialize storeEnvReadOnly) initialWorld)
     = Some (str "0123456789abcdef1032547698badcfe00112233445566778899aabbccddeeff")
  /\ result (encryptThenDecrypt (str "0xabc"))
            (after (initialize storeEnvReadOnly) initialWorld)
     = Return (str "0xabc").
Proof.
  destruct (X3_initialize_failures storeEnvReadOnly initialWorld storeUnavailable None)
    as [Hwrite _].
  destruct Hwrite as (Hres & Hkey & Hround).
  - reflexivity.
  - reflexivity.
  - reflexivity.
  - discriminate.
  - split; [exact Hres|]. split; [exact Hkey|].
    apply Hround. apply is_byte_string_spec. reflexivity.
Defined.

(** ** SecurityManager: what the cipher text shows and what it does not check *)

Lemma encoded_length (s : list N) :
  length (Base64.sextets_of_bytes s) + length (Base64.padding s)
  = 4 * ((length s + 2) / 3).
Proof.
  induction s as [| a | a b | a b c l IH] using list_ind3; try reflexivity.
  cbn [Base64.sextets_of_bytes Base64.padding length].
  replace (S (S (S (length l))) + 2) with ((length l + 2) + 1 * 3) by lia.
  rewrite Nat.div_add by discriminate. lia.
Qed.

Lemma btoa_length (s encoded : jsstring) :
  Base64.btoa s = Some encoded -> length encoded = 4 * ((length s + 2) / 3).
Proof.
  unfold Base64.btoa. destruct (is_byte_string s); [|discriminate].
  intros H. injection H as <-.
  now rewrite length_app, length_map, encoded_length.
Qed.

(** X4: the cipher text of a private key shows the key's length: it has
    exactly four characters for every three of the key, rounded up. *)
Theorem X4_ciphertext_length (w : World) (k encrypted : jsstring) :
  result (encryptPrivateKey k) w = Return encrypted ->
  length encrypted = 4 * ((length k + 2) / 3).
Proof.
  unfold result, encryptPrivateKey, bind, get_world.
  destruct (usable_key (encryptionKey w)) as [key|]; [|discriminate].
  unfold try_catch, btoa.
  destruct (Base64.btoa (xorWithKey key k)) as [c|] eqn:E; simpl; [|discriminate].
  intros H. injection H as <-.
  rewrite (btoa_length _ _ E). now rewrite xorWithKey_length.
Qed.

Lemma X4_ciphertext_length_witness :
  exists encrypted,
    result (encryptPrivateKey (snd (ethers_createRandom keyGenEnv0))) worldWithKey
    = Return encrypted
    /\ length encrypted = 88.
Proof.
  destruct (result (encryptPrivateKey (snd (ethers_createRandom keyGenEnv0))) worldWithKey)
    as [encrypted|e] eqn:E; [|vm_compute in E; discriminate].
  exists encrypted. split; [reflexivity|].
  exact (X4_ciphertext_length worldWithKey _ encrypted E).
Defined.

(** X5: decryption authenticates nothing. A private key encrypted under one
    engine key decrypts under any other without an error, to a string of the
    same length: the text XOR-ed with both keys. *)
Theorem X5_wrong_key_decrypts_silently (w1 w2 : World) (key1 key2 k encrypted : jsstring) :
  usable_key (encryptionKey w1) = Some key1 ->
  usable_key (encryptionKey w2) = Some key2 ->
  byte_string key1 ->
  byte_string k ->
  result (encryptPrivateKey k) w1 = Return encrypted ->
  decryptPrivateKey encrypted w2 = (Return (xorWithKey key2 (xorWithKey key1 k)), w2)
  /\ length (xorWithKey key2 (xorWithKey key1 k)) = length k.
Proof.
  intros Hk1 Hk2 Hkey1 Hb Henc. split; [|now rewrite !xorWithKey_length].
  destruct (btoa_defined _ (xorWithKey_byte key1 k Hkey1 Hb)) as [c He].
  unfold result in Henc. rewrite (encryptPrivateKey_ok w1 key1 k c Hk1 He) in Henc.
  simpl in Henc. injection Henc as <-.
  exact (decryptPrivateKey_ok w2 key2 c _ Hk2 (atob_btoa _ _ He)).
Qed.

Lemma X5_wrong_key_decrypts_silently_witness :
  exists encrypted garbled,
    result (encryptPrivateKey (str "0xabc")) worldWithKey = Return encrypted
    /\ result (decryptPrivateKey encrypted)
              (with_encryptionKey (Some (str "ffeeddccbbaa99887766554433221100")) worldWithKey)
       = Return garbled
    /\ length garbled = 5
    /\ garbled <> str "0xabc".
Proof.
  destruct (result (encryptPrivateKey (str "0xabc")) worldWithKey) as [encrypted|e] eqn:E;
    [|vm_compute in E; discriminate].
  destruct (X5_wrong_key_decrypts_silently worldWithKey
              (with_encryptionKey (Some (str "ffeeddccbbaa99887766554433221100")) worldWithKey)
              demoKey (str "ffeeddccbbaa99887766554433221100") (str "0xabc") encrypted)
    as [Hdec Hlen].
  - reflexivity.
  - reflexivity.
  - apply is_byte_string_spec. reflexivity.
  - apply is_byte_string_spec. reflexivity.
  - exact E.
  - exists encrypted, (xorWithKey (str "ffeeddccbbaa99887766554433221100")
                                  (xorWithKey demoKey (str "0xabc"))).
    split; [reflexivity|]. unfold result. rewrite Hdec.
    split; [reflexivity|]. split; [exact Hlen|].
    vm_compute. discriminate.
Defined.

(** ** SecurityManager: mnemonic and password *)









(** ** WalletService: the wallet that createWallet makes *)

Lemma btoa_byte_string (s encoded : jsstring) :
  Base64.btoa s = Some encoded -> byte_string encoded.
Proof.
  unfold Base64.btoa. destruct (is_byte_string s) eqn:Hs; [|discriminate].
  apply is_byte_string_spec in Hs. intros H. injection H as <-.
  apply Forall_app. split.
  - apply Forall_forall. intros c Hc. apply in_map_iff in Hc as (i & <- & Hi).
    pose proof (sextets_lt_64 s Hs) as Hlt. rewrite Forall_forall in Hlt.
    apply N.ltb_lt.
    exact (forall_lt_64 (fun i => (Base64.code_of_sextet i <? 256)%N) eq_refl i (Hlt i Hi)).
  - destruct (padding_cases s) as [E|[E|E]]; rewrite E; repeat constructor.
Qed.

Lemma Uint8Array_byte_string (l : list N) : byte_string (map fromCharCode (Uint8Array l)).
Proof.
  unfold byte_string, Uint8Array. apply Forall_forall. intros c Hc.
  apply in_map_iff in Hc as (b & <- & Hb). apply in_map_iff in Hb as (x & <- & _).
  unfold fromCharCode. euclid.
Qed.

(** For a supported chain the key generation returns, and but for Ethereum
    (where the library decides) the private key is a binary string. *)
Lemma generateKeys_supported (env : KeyGenEnv) (cryptoType : jsstring) (w : World) :
  supported cryptoType ->
  exists keys,
    generateKeys env cryptoType w = (Return keys, w)
    /\ (cryptoType <> CryptoType.ETHEREUM -> byte_string (snd keys))
    /\ (cryptoType = CryptoType.ETHEREUM -> keys = ethers_createRandom env)
    /\ (cryptoType = CryptoType.BITCOIN ->
        snd keys = hexOfBytes (Uint8Array (getRandomBytesAsync env))
        /\ fst keys = str "bc1" ++ firstn 40 (snd keys)).
Proof.
  intros [-> | [-> | ->]].
  - exists (ethers_createRandom env). split; [reflexivity|].
    split; [intros H; now contradiction H|]. split; [reflexivity|discriminate].
  - eexists. split; [reflexivity|]. split; [|split; [discriminate|]].
    + intros _. apply hexOfBytes_byte_string.
    + intros _. split; reflexivity.
  - pose proof (Uint8Array_byte_string (snd (Keypair_generate env))) as Hb.
    destruct (btoa_defined _ Hb) as [encoded He].
    exists (fst (Keypair_generate env), encoded). split.
    + unfold generateKeys.
      change (streq CryptoType.SOLANA CryptoType.ETHEREUM) with false.
      change (streq CryptoType.SOLANA CryptoType.BITCOIN) with false.
      change (streq CryptoType.SOLANA CryptoType.SOLANA) with true. cbv iota.
      unfold bind, btoa. now rewrite He.
    + split; [|split; discriminate].
      intros _. exact (btoa_byte_string _ _ He).
Qed.

Lemma NETWORKS_symbol_supported (cryptoType : jsstring) (w : World) :
  supported cryptoType ->
  exists symbol, NETWORKS_symbol cryptoType w = (Return symbol, w).
Proof. intros [-> | [-> | ->]]; eexists; reflexivity. Qed.

(** The run of a [createWallet] whose steps all succeed. *)
Lemma createWallet_run (env : KeyGenEnv) (userId cryptoType name : jsstring) (w : World)
  (keys : jsstring * jsstring) (key encrypted symbol : jsstring) :
  generateKeys env cryptoType w = (Return keys, w) ->
  usable_key (encryptionKey w) = Some key ->
  Base64.btoa (xorWithKey key (snd keys)) = Some encrypted ->
  NETWORKS_symbol cryptoType w = (Return symbol, w) ->
  createWallet env userId cryptoType name w
  = (Return (Wallet.mk (cryptoType ++ str "_" ++ decimal (id_Date_now env))
                       userId name cryptoType (fst keys) encrypted 0%Q symbol
                       (getDecimals cryptoType) (createdAt_Date env) (updatedAt_Date env)),
     mkWorld (JsMap.set (cryptoType ++ str "_" ++ decimal (id_Date_now env))
                (Wallet.mk (cryptoType ++ str "_" ++ decimal (id_Date_now env))
                           userId name cryptoType (fst keys) encrypted 0%Q symbol
                           (getDecimals cryptoType) (createdAt_Date env) (updatedAt_Date env))
                (wallets w))
             (encryptionKey w) (console w) (network w)).
Proof.
  intros Hg Hk He Hs. unfold createWallet, try_catch, bind.
  rewrite Hg, (encryptPrivateKey_ok w key (snd keys) encrypted Hk He), Hs. reflexivity.
Qed.

(** X8: on an engine with a binary key, [createWallet] for a supported chain
    succeeds; the wallet it returns is the one then found under its id
    [<chain>_<Date.now()>], belongs to the user and chain asked for, has
    balance 0 and the chain's decimals, carries the generated address, and
    its stored private key decrypts to the generated private key. *)
Theorem X8_created_wallet (env : KeyGenEnv) (userId cryptoType name : jsstring) (w : World)
  (key : jsstring) :
  supported cryptoType ->
  usable_key (encryptionKey w) = Some key ->
  byte_string key ->
  (cryptoType = CryptoType.ETHEREUM -> byte_string (snd (ethers_createRandom env))) ->
  exists wallet pk,
    result (createWallet env userId cryptoType name) w = Return wallet
    /\ getWallet (Wallet.id wallet) (after (createWallet env userId cryptoType name) w)
       = Some wallet
    /\ Wallet.id wallet = cryptoType ++ str "_" ++ decimal (id_Date_now env)
    /\ Wallet.userId wallet = userId
    /\ Wallet.name wallet = name
    /\ Wallet.type wallet = cryptoType
    /\ Wallet.balance wallet = 0%Q
    /\ Wallet.decimals wallet = getDecimals cryptoType
    /\ result (generateKeys env cryptoType) w = Return (Wallet.address wallet, pk)
    /\ result (decryptPrivateKey (Wallet.privateKey wallet))
              (after (createWallet env userId cryptoType name) w)
       = Return pk.
Proof.
  intros Hsup Hk Hkey Heth.
  destruct (generateKeys_supported env cryptoType w Hsup) as (keys & Hg & Hbyte & Hethk & _).
  assert (Hb : byte_string (snd keys)).
  { destruct (streq cryptoType CryptoType.ETHEREUM) eqn:E.
    - apply streq_eq in E. rewrite (Hethk E). now apply Heth.
    - apply streq_neq in E. now apply Hbyte. }
  destruct (btoa_defined _ (xorWithKey_byte key (snd keys) Hkey Hb)) as [encrypted He].
  destruct (NETWORKS_symbol_supported cryptoType w Hsup) as [symbol Hs].
  pose proof (createWallet_run env userId cryptoType name w keys key encrypted symbol
                Hg Hk He Hs) as Hrun.
  unfold result, after. rewrite Hrun. cbn [fst snd].
  eexists. exists (snd keys). split; [reflexivity|].
  split; [apply get_set_same|].
  repeat (split; [reflexivity|]).
  split.
  - rewrite Hg. destruct keys; reflexivity.
  - cbn [Wallet.privateKey].
    rewrite (decryptPrivateKey_ok (mkWorld _ (encryptionKey w) _ _) key encrypted _ Hk
               (atob_btoa _ _ He)).
    cbn [fst]. now rewrite xorWithKey_involutive.
Qed.

Lemma X8_created_wallet_witness :
  exists wallet,
    result (createWallet keyGenEnv2 (str "user_1") CryptoType.SOLANA (str "My SOL Wallet"))
           worldWithKey = Return wallet
    /\ Wallet.id wallet = str "solana_1700000000002"
    /\ Wallet.decimals wallet = 9%N
    /\ Wallet.address wallet = str "7EcDhSYGxXyscszYEp35KHN8vvw3svAuLKTzXwCFLtV"
    /\ result (decryptPrivateKey (Wallet.privateKey wallet))
              (after (createWallet keyGenEnv2 (str "user_1") CryptoType.SOLANA
                        (str "My SOL Wallet")) worldWithKey)
       = Return (str "BwcHBwcHBwcHBwcHBwcHBwcHBwcHBwcHBwcHBwcHBwcHBwcHBwcHBwcHBwcHBwcHBwcHBwcHBwcHBwcHBwcHBw==").
Proof.
  destruct (X8_created_wallet keyGenEnv2 (str "user_1") CryptoType.SOLANA (str "My SOL Wallet")
              worldWithKey demoKey)
    as (wallet & pk & Hres & _ & Hid & _ & _ & _ & _ & Hdec & Hgen & Hpk).
  - right. right. reflexivity.
  - reflexivity.
  - apply is_byte_string_spec. reflexivity.
  - discriminate.
  - exists wallet. split; [exact Hres|]. split; [exact Hid|].
    split; [rewrite Hdec; reflexivity|].
    vm_compute in Hgen. injection Hgen as Haddr Hpk'.
    split; [now symmetry|]. rewrite Hpk. now rewrite <- Hpk'.
Defined.

(** X9: the address of a created Bitcoin wallet is "bc1" followed by the
    first forty characters of its private key: of the 64 hexadecimal digits
    of the key, the address publishes the first 40. *)
Theorem X9_bitcoin_address_shows_key (env : KeyGenEnv) (userId name : jsstring) (w : World)
  (key : jsstring) :
  usable_key (encryptionKey w) = Some key ->
  byte_string key ->
  exists wallet pk,
    result (createWallet env userId CryptoType.BITCOIN name) w = Return wallet
    /\ result (decryptPrivateKey (Wallet.privateKey wallet))
              (after (createWallet env userId CryptoType.BITCOIN name) w)
       = Return pk
    /\ length pk = 2 * length (getRandomBytesAsync env)
    /\ Wallet.address wallet = str "bc1" ++ firstn 40 pk.
Proof.
  intros Hk Hkey.
  assert (Hsup : supported CryptoType.BITCOIN) by (right; left; reflexivity).
  destruct (generateKeys_supported env CryptoType.BITCOIN w Hsup)
    as (keys & Hg & Hbyte & _ & Hbtc).
  destruct (Hbtc eq_refl) as [Hpk Haddr].
  assert (Hb : byte_string (snd keys)) by (apply Hbyte; discriminate).
  destruct (btoa_defined _ (xorWithKey_byte key (snd keys) Hkey Hb)) as [encrypted He].
  destruct (NETWORKS_symbol_supported CryptoType.BITCOIN w Hsup) as [symbol Hs].
  pose proof (createWallet_run env userId CryptoType.BITCOIN name w keys key encrypted symbol
                Hg Hk He Hs) as Hrun.
  unfold result, after. rewrite Hrun. cbn [fst snd].
  eexists. exists (snd keys). split; [reflexivity|]. split.
  - cbn [Wallet.privateKey].
    rewrite (decryptPrivateKey_ok (mkWorld _ (encryptionKey w) _ _) key encrypted _ Hk
               (atob_btoa _ _ He)).
    cbn [fst]. now rewrite xorWithKey_involutive.
  - split; [|exact Haddr].
    rewrite Hpk, hexOfBytes_length. unfold Uint8Array. now rewrite length_map.
Qed.

Lemma X9_bitcoin_address_shows_key_witness :
  exists wallet,
    result (createWallet keyGenEnv1 (str "user_1") CryptoType.BITCOIN (str "My BTC Wallet"))
           worldWithKey = Return wallet
    /\ Wallet.address wallet = str "bc10123456789abcdef1032547698badcfe00112233"
    /\ result (decryptPrivateKey (Wallet.privateKey wallet))
              (after (createWallet keyGenEnv1 (str "user_1") CryptoType.BITCOIN
                        (str "My BTC Wallet")) worldWithKey)
       = Return (str "0123456789abcdef1032547698badcfe00112233445566778899aabbccddeeff").
Proof.
  destruct (X9_bitcoin_address_shows_key keyGenEnv1 (str "user_1") (str "My BTC Wallet")
              worldWithKey demoKey) as (wallet & pk & Hres & Hdec & _ & Haddr).
  - reflexivity.
  - apply is_byte_string_spec. reflexivity.
  - exists wallet. split; [exact Hres|].
    assert (Hpk : pk = str "0123456789abcdef1032547698badcfe00112233445566778899aabbccddeeff").
    { vm_compute in Hres. injection Hres as <-. vm_compute in Hdec. now injection Hdec as <-. }
    subst pk. split; [rewrite Haddr; reflexivity|exact Hdec].
Defined.

(** ** WalletService: the registry seen through its methods *)

Lemma set_fresh (V : Type) (k : jsstring) (v : V) (m : JsMap.t V) :
  JsMap.get k m = None -> JsMap.set k v m = m ++ [(k, v)].
Proof.
  induction m as [|[k0 v0] m IH]; simpl; [reflexivity|].
  destruct (streq k0 k); [discriminate|]. intros H. now rewrite IH.
Qed.

Lemma delete_absent (V : Type) (k : jsstring) (m : JsMap.t V) :
  JsMap.get k m = None -> JsMap.delete k m = m.
Proof.
  induction m as [|[k0 v0] m IH]; simpl; [reflexivity|].
  destruct (streq k0 k); [discriminate|]. intros H. now rewrite IH.
Qed.

Lemma delete_set_fresh (V : Type) (k : jsstring) (v : V) (m : JsMap.t V) :
  JsMap.get k m = None -> JsMap.delete k (JsMap.set k v m) = m.
Proof.
  induction m as [|[k0 v0] m IH]; simpl.
  - now rewrite streq_refl.
  - destruct (streq k0 k) eqn:E; [discriminate|]. intros H. simpl. rewrite E.
    now rewrite IH.
Qed.

Lemma filter_comm (A : Type) (f g : A -> bool) (l : list A) :
  filter f (filter g l) = filter g (filter f l).
Proof.
  induction l as [|x l IH]; simpl; [reflexivity|].
  destruct (g x) eqn:Eg, (f x) eqn:Ef; simpl; rewrite ?Eg, ?Ef, IH; reflexivity.
Qed.

Lemma values_delete (k : jsstring) (m : JsMap.t Wallet) :
  NoDup (JsMap.keys m) ->
  Forall (fun entry => Wallet.id (snd entry) = fst entry) m ->
  JsMap.values (JsMap.delete k m)
  = filter (fun wallet => negb (streq (Wallet.id wallet) k)) (JsMap.values m).
Proof.
  induction m as [|[k0 v0] m IH]; simpl; intros Hnd Hid; [reflexivity|].
  inversion_clear Hnd as [|? ? Hnotin Hm]. inversion_clear Hid as [|? ? Hv Hrest].
  simpl in Hv. rewrite Hv. destruct (streq k0 k) eqn:E; simpl.
  - apply streq_eq in E. subst k0. symmetry. apply forallb_filter_id.
    apply forallb_forall. intros x Hx. unfold JsMap.values in Hx.
    apply in_map_iff in Hx as ([k1 v1] & <- & Hin). simpl.
    rewrite Forall_forall in Hrest. pose proof (Hrest _ Hin) as H1. simpl in H1.
    rewrite H1. destruct (streq k1 k) eqn:E1; [|reflexivity].
    apply streq_eq in E1. subst k1. exfalso. apply Hnotin.
    unfold JsMap.keys. apply in_map_iff. exists (k, v1).
    split; [simpl; congruence|]. rewrite <- E1. exact Hin.
  - now rewrite IH.
Qed.

Lemma In_set_strong (V : Type) (k : jsstring) (v : V) (m : JsMap.t V)
  (entry : jsstring * V) :
  NoDup (JsMap.keys m) ->
  In entry (JsMap.set k v m) ->
  entry = (k, v) \/ (In entry m /\ fst entry <> k).
Proof.
  induction m as [|[k0 v0] m IH]; simpl; intros Hnd.
  - intros [<-|[]]. now left.
  - inversion_clear Hnd as [|? ? Hnotin Hm].
    destruct (streq k0 k) eqn:E; simpl.
    + apply streq_eq in E. subst k0. intros [<-|H]; [now left|].
      right. split; [now right|]. intros Hk. apply Hnotin.
      unfold JsMap.keys. apply in_map_iff. exists entry. auto.
    + apply streq_neq in E. intros [<-|H].
      * right. split; [now left|exact E].
      * destruct (IH Hm H) as [->|[Hin Hk]]; [now left|]. right. auto.
Qed.

Lemma createWallet_returned (env : KeyGenEnv) (userId cryptoType name : jsstring)
  (w : World) (wallet : Wallet) :
  result (createWallet env userId cryptoType name) w = Return wallet ->
  Wallet.userId wallet = userId
  /\ Wallet.type wallet = cryptoType
  /\ Wallet.id wallet = cryptoType ++ str "_" ++ decimal (id_Date_now env)
  /\ wallets (after (createWallet env userId cryptoType name) w)
     = JsMap.set (Wallet.id wallet) wallet (wallets w)
  /\ encryptionKey (after (createWallet env userId cryptoType name) w) = encryptionKey w.
Proof.
  unfold result, after.
  destruct (createWallet_cases env userId cryptoType name w)
    as [(e & w' & -> & _)|(wallet' & w' & -> & H)]; simpl; [discriminate|].
  intros Heq. injection Heq as <-. exact H.
Qed.

Lemma sendTransaction_missing (env : SendEnv) (walletId toAddress : jsstring)
  (amount : Q) (fee : option Q) (w : World) :
  JsMap.get walletId (wallets w) = None ->
  sendTransaction env walletId toAddress amount fee w
  = (Throw (Error (str "Wallet not found") None), w).
Proof. intros Hget. unfold sendTransaction, bind, get_world. now rewrite Hget. Qed.

(** X10: for an id that is not in the registry, [sendTransaction] and
    [getBalance] throw Error('Wallet not found') as it is (not wrapped in
    their generic errors), [deleteWallet] answers [false], and none of the
    three changes the registry, writes to the console or sends a request. *)
Theorem X10_unknown_wallet_id (sendEnv : SendEnv) (balanceEnv : BalanceEnv)
  (walletId toAddress : jsstring) (amount : Q) (fee : option Q) (w : World) :
  getWallet walletId w = None ->
  sendTransaction sendEnv walletId toAddress amount fee w
  = (Throw (Error (str "Wallet not found") None), w)
  /\ getBalance balanceEnv walletId w = (Throw (Error (str "Wallet not found") None), w)
  /\ deleteWallet walletId w = (Return false, w).
Proof.
  unfold getWallet. intros Hget. split; [|split].
  - now apply sendTransaction_missing.
  - now apply getBalance_missing.
  - unfold deleteWallet, JsMap.has. rewrite Hget, (delete_absent _ _ _ Hget).
    now destruct w.
Qed.

Lemma X10_unknown_wallet_id_witness :
  sendTransaction sendEnvOnline (str "ethereum_42") (str "0x90F8bf6A479f320ead074411a4B0e7944Ea8c9C1")
    (1 # 2)%Q None worldWithWallets
  = (Throw (Error (str "Wallet not found") None), worldWithWallets)
  /\ getBalance balanceEnvOffline (str "ethereum_42") worldWithWallets
     = (Throw (Error (str "Wallet not found") None), worldWithWallets)
  /\ deleteWallet (str "ethereum_42") worldWithWallets = (Return false, worldWithWallets).
Proof.
  apply (X10_unknown_wallet_id sendEnvOnline balanceEnvOffline (str "ethereum_42")
           (str "0x90F8bf6A479f320ead074411a4B0e7944Ea8c9C1") (1 # 2)%Q None worldWithWallets).
  reflexivity.
Defined.

(** X11: deleting a registered wallet answers [true] and removes exactly
    that wallet: its id is unknown afterwards (so [sendTransaction] and
    [getBalance] on it throw 'Wallet not found', and a second [deleteWallet]
    answers [false]), every other id keeps its record, and each user's list
    of wallets is the former list without that wallet. *)
Theorem X11_deleted_wallet_is_gone (walletId : jsstring) (w : World) (wallet : Wallet) :
  one_record_per_id w ->
  getWallet walletId w = Some wallet ->
  result (deleteWallet walletId) w = Return true
  /\ getWallet walletId (after (deleteWallet walletId) w) = None
  /\ (forall other, other <> walletId ->
        getWallet other (after (deleteWallet walletId) w) = getWallet other w)
  /\ (forall userId,
        getWalletsByUserId userId (after (deleteWallet walletId) w)
        = filter (fun x => negb (streq (Wallet.id x) walletId)) (getWalletsByUserId userId w))
  /\ (forall env toAddress amount fee,
        result (sendTransaction env walletId toAddress amount fee)
               (after (deleteWallet walletId) w)
        = Throw (Error (str "Wallet not found") None))
  /\ (forall env,
        result (getBalance env walletId) (after (deleteWallet walletId) w)
        = Throw (Error (str "Wallet not found") None))
  /\ result (deleteWallet walletId) (after (deleteWallet walletId) w) = Return false.
Proof.
  unfold getWallet. intros [Hnd Hid] Hget.
  assert (Hgone : JsMap.get walletId (wallets (after (deleteWallet walletId) w)) = None).
  { unfold after, deleteWallet. cbn [snd wallets].
    rewrite (get_delete _ walletId walletId _ Hnd). now rewrite streq_refl. }
  split; [|split; [|split; [|split; [|split; [|split]]]]].
  - unfold result, deleteWallet, JsMap.has. cbn [fst]. now rewrite Hget.
  - exact Hgone.
  - intros other Hother. unfold after, deleteWallet. cbn [snd wallets].
    rewrite (get_delete _ walletId other _ Hnd).
    destruct (streq walletId other) eqn:E; [|reflexivity].
    apply streq_eq in E. congruence.
  - intros userId. unfold getWalletsByUserId, after, deleteWallet. cbn [snd wallets].
    rewrite (values_delete walletId _ Hnd Hid). apply filter_comm.
  - intros env toAddress amount fee. unfold result.
    now rewrite (sendTransaction_missing env walletId toAddress amount fee _ Hgone).
  - intros env. unfold result. now rewrite (getBalance_missing env walletId _ Hgone).
  - unfold result, deleteWallet at 1, JsMap.has. cbn [fst]. now rewrite Hgone.
Qed.

Lemma worldWithWallets_one_record : one_record_per_id worldWithWallets.
Proof.
  split.
  - vm_compute. repeat constructor; simpl; intuition discriminate.
  - vm_compute. repeat constructor.
Qed.

Lemma X11_deleted_wallet_is_gone_witness :
  result (deleteWallet btcWalletId) worldWithWallets = Return true
  /\ map Wallet.id (getWalletsByUserId (str "user_1") (after (deleteWallet btcWalletId) worldWithWallets))
     = [ethWalletId; solWalletId]
  /\ result (getBalance balanceEnvOffline btcWalletId)
            (after (deleteWallet btcWalletId) worldWithWallets)
     = Throw (Error (str "Wallet not found") None).
Proof.
  let g := eval vm_compute in (getWallet btcWalletId worldWithWallets) in
  match g with
  | Some ?wallet =>
      destruct (X11_deleted_wallet_is_gone btcWalletId worldWithWallets wallet
                  worldWithWallets_one_record eq_refl)
        as (Htrue & _ & _ & Hlist & _ & Hbal & _)
  end.
  split; [exact Htrue|]. split; [|apply Hbal].
  rewrite Hlist. reflexivity.
Defined.

(** X12: a [createWallet] that succeeds under an id not yet in the registry
    adds exactly one wallet: the owner's list of wallets grows by the new
    wallet, at its end; the lists of all other users are unchanged; and
    deleting the returned id gives back the registry map as it was. *)
Theorem X12_create_appends (env : KeyGenEnv) (userId cryptoType name : jsstring)
  (w : World) (wallet : Wallet) :
  result (createWallet env userId cryptoType name) w = Return wallet ->
  getWallet (cryptoType ++ str "_" ++ decimal (id_Date_now env)) w = None ->
  getWalletsByUserId userId (after (createWallet env userId cryptoType name) w)
  = getWalletsByUserId userId w ++ [wallet]
  /\ (forall other, other <> userId ->
        getWalletsByUserId other (after (createWallet env userId cryptoType name) w)
        = getWalletsByUserId other w)
  /\ wallets (after (deleteWallet (Wallet.id wallet))
                    (after (createWallet env userId cryptoType name) w))
     = wallets w.
Proof.
  unfold getWallet. intros Hres Hfresh.
  destruct (createWallet_returned env userId cryptoType name w wallet Hres)
    as (Hu & _ & Hid & Hset & _).
  rewrite <- Hid in Hfresh.
  split; [|split].
  - unfold getWalletsByUserId. rewrite Hset, (set_fresh _ _ _ _ Hfresh).
    unfold JsMap.values. rewrite map_app, filter_app. simpl.
    now rewrite Hu, streq_refl.
  - intros other Hother. unfold getWalletsByUserId.
    rewrite Hset, (set_fresh _ _ _ _ Hfresh).
    unfold JsMap.values. rewrite map_app, filter_app. simpl. rewrite Hu.
    destruct (streq userId other) eqn:E.
    + apply streq_eq in E. congruence.
    + apply app_nil_r.
  - unfold after at 1, deleteWallet. cbn [snd wallets]. rewrite Hset.
    now apply delete_set_fresh.
Qed.

Lemma X12_create_appends_witness :
  exists wallet,
    result (createWallet keyGenEnv3 (str "user_2") CryptoType.BITCOIN (str "Savings"))
           worldWithWallets = Return wallet
    /\ getWalletsByUserId (str "user_2")
         (after (createWallet keyGenEnv3 (str "user_2") CryptoType.BITCOIN (str "Savings"))
                worldWithWallets)
       = [wallet]
    /\ map Wallet.id
         (getWalletsByUserId (str "user_1")
            (after (createWallet keyGenEnv3 (str "user_2") CryptoType.BITCOIN (str "Savings"))
                   worldWithWallets))
       = [ethWalletId; btcWalletId; solWalletId].
Proof.
  let r := eval vm_compute in
             (result (createWallet keyGenEnv3 (str "user_2") CryptoType.BITCOIN (str "Savings"))
                     worldWithWallets) in
  match r with
  | Return ?wallet =>
      exists wallet;
      destruct (X12_create_appends keyGenEnv3 (str "user_2") CryptoType.BITCOIN (str "Savings")
                  worldWithWallets wallet) as (Hown & Hothers & _);
      [vm_compute; reflexivity | reflexivity |]
  end.
  split; [vm_compute; reflexivity|]. split.
  - rewrite Hown. reflexivity.
  - rewrite (Hothers (str "user_1")); [reflexivity|discriminate].
Defined.

(** X13: the id of a wallet is its chain and the millisecond of its
    creation, whoever the owner is. A [createWallet] that succeeds under an
    id already in the registry replaces the record stored there: the ids in
    the registry stay the same, the id now names the new wallet, and when the
    earlier wallet belonged to another user it is in the registry no more. *)
Theorem X13_same_instant_overwrites (env : KeyGenEnv) (userId cryptoType name : jsstring)
  (w : World) (wallet old : Wallet) :
  one_record_per_id w ->
  result (createWallet env userId cryptoType name) w = Return wallet ->
  getWallet (cryptoType ++ str "_" ++ decimal (id_Date_now env)) w = Some old ->
  getWallet (Wallet.id wallet) (after (createWallet env userId cryptoType name) w)
  = Some wallet
  /\ JsMap.keys (wallets (after (createWallet env userId cryptoType name) w))
     = JsMap.keys (wallets w)
  /\ (Wallet.userId old <> userId ->
      ~ In old (JsMap.values (wallets (after (createWallet env userId cryptoType name) w)))).
Proof.
  unfold getWallet. intros Hw Hres Hold.
  destruct (createWallet_returned env userId cryptoType name w wallet Hres)
    as (Hu & _ & Hid & Hset & _).
  rewrite <- Hid in Hold. rewrite Hset.
  split; [apply get_set_same|]. split.
  - rewrite keys_set. unfold JsMap.has. now rewrite Hold.
  - intros Hother Hin. unfold JsMap.values in Hin.
    apply in_map_iff in Hin as ([k v] & Hv & Hin). simpl in Hv. subst v.
    pose proof (get_id w _ old Hw Hold) as Hk1.
    destruct Hw as [Hnd Hids].
    apply (In_set_strong _ _ _ _ _ Hnd) in Hin as [Heq|[Hin Hk]].
    + injection Heq as _ Heq. apply Hother. now rewrite Heq.
    + rewrite Forall_forall in Hids. pose proof (Hids _ Hin) as Hk2.
      simpl in Hk, Hk2. congruence.
Qed.

Lemma X13_same_instant_overwrites_witness :
  exists wallet old,
    getWallet ethWalletId worldWithWallets = Some old
    /\ Wallet.userId old = str "user_1"
    /\ result (createWallet keyGenEnv0 (str "user_2") CryptoType.ETHEREUM (str "Mine"))
              worldWithWallets = Return wallet
    /\ getWallet ethWalletId
         (after (createWallet keyGenEnv0 (str "user_2") CryptoType.ETHEREUM (str "Mine"))
                worldWithWallets) = Some wallet
    /\ JsMap.keys
         (wallets (after (createWallet keyGenEnv0 (str "user_2") CryptoType.ETHEREUM (str "Mine"))
                         worldWithWallets))
       = [ethWalletId; btcWalletId; solWalletId]
    /\ ~ In old
         (JsMap.values
            (wallets (after (createWallet keyGenEnv0 (str "user_2") CryptoType.ETHEREUM
                               (str "Mine")) worldWithWallets))).
Proof.
  let r := eval vm_compute in
             (result (createWallet keyGenEnv0 (str "user_2") CryptoType.ETHEREUM (str "Mine"))
                     worldWithWallets) in
  let o := eval vm_compute in (getWallet ethWalletId worldWithWallets) in
  match r with
  | Return ?wallet =>
      match o with
      | Some ?old =>
          exists wallet; exists old;
          destruct (X13_same_instant_overwrites keyGenEnv0 (str "user_2") CryptoType.ETHEREUM
                      (str "Mine") worldWithWallets wallet old worldWithWallets_one_record)
            as (Hget & Hkeys & Hgone);
          [vm_compute; reflexivity | reflexivity |]
      end
  end.
  split; [reflexivity|]. split; [reflexivity|]. split; [vm_compute; reflexivity|].
  split; [exact Hget|]. split; [rewrite Hkeys; reflexivity|].
  apply Hgone. discriminate.
Defined.

(** ** WalletService: sending *)

Lemma sendEthereumTransaction_run (env : SendEnv) (pk toAddress : jsstring) (amount : Q)
  (fee : option Q) (w : World) (oracle value : Q) (hash : jsstring)
  (receiptGasUsed : option Q) :
  (truthy fee = None -> getFeeData env = Return oracle) ->
  ethereumSendAnswered env pk toAddress amount value (gasPriceOf fee oracle) hash
    receiptGasUsed ->
  sendEthereumTransaction env pk toAddress amount fee w
  = (Return (hash,
             match receiptGasUsed with Some g => or_zero g | None => 0%Q end,
             gasPriceOf fee oracle),
     mkWorld (wallets w) (encryptionKey w) (console w)
       (network w
        ++ match truthy fee with Some _ => [] | None => [NetEthGetFeeData] end
        ++ [NetEthSendTransaction toAddress value GAS_LIMIT_ETHEREUM_transfer
              (gasPriceOf fee oracle);
            NetEthWait hash])).
Proof.
  unfold ethereumSendAnswered, gasPriceOf. intros Horacle (Hw & Hp & Hs & Ht).
  unfold sendEthereumTransaction, bind at 1, await at 1. rewrite Hw. cbv iota.
  destruct (truthy fee) as [f|].
  - unfold bind, ret, net_call, await. rewrite Hp, Hs, Ht. cbn [app wallets encryptionKey console network].
    now rewrite <- app_assoc.
  - unfold bind, ret, net_call, await. rewrite (Horacle eq_refl), Hp, Hs, Ht.
    cbn [wallets encryptionKey console network].
    now rewrite <- !app_assoc.
Qed.

(** X14: an Ethereum send whose steps all succeed. With a [fee] other than
    0 the fee is used as the gas price and the fee oracle is not asked: the
    requests are the transaction and the wait for its receipt. With no fee,
    or fee 0, the oracle is asked first and its price is used, while the
    Transaction returned records fee 0. The gas limit is always 21000. *)
Theorem X14_ethereum_gas_price (env : SendEnv) (walletId toAddress : jsstring)
  (amount : Q) (fee : option Q) (w : World) (wallet : Wallet) (pk : jsstring)
  (oracle value : Q) (hash : jsstring) (receiptGasUsed : option Q) :
  JsMap.get walletId (wallets w) = Some wallet ->
  Wallet.type wallet = CryptoType.ETHEREUM ->
  result (decryptPrivateKey (Wallet.privateKey wallet)) w = Return pk ->
  (truthy fee = None -> getFeeData env = Return oracle) ->
  ethereumSendAnswered env pk toAddress amount value (gasPriceOf fee oracle) hash
    receiptGasUsed ->
  exists tx,
    result (sendTransaction env walletId toAddress amount fee) w = Return tx
    /\ Transaction.hash tx = hash
    /\ Transaction.gasPrice tx = Some (gasPriceOf fee oracle)
    /\ Transaction.fee tx = match truthy fee with Some f => f | None => 0%Q end
    /\ network (after (sendTransaction env walletId toAddress amount fee) w)
       = network w
         ++ match truthy fee with Some _ => [] | None => [NetEthGetFeeData] end
         ++ [NetEthSendTransaction toAddress value 21000%N (gasPriceOf fee oracle);
             NetEthWait hash].
Proof.
  intros Hget Htype Hdec Horacle Hanswered.
  pose proof (sendEthereumTransaction_run env pk toAddress amount fee w oracle value hash
                receiptGasUsed Horacle Hanswered) as Hrun.
  assert (Hstage : adapterStage env (Wallet.type wallet) pk toAddress amount fee w
                   = (Return (hash,
                              Some match receiptGasUsed with
                                   | Some g => or_zero g
                                   | None => 0%Q
                                   end,
                              Some (gasPriceOf fee oracle)),
                      mkWorld (wallets w) (encryptionKey w) (console w)
                        (network w
                         ++ match truthy fee with
                            | Some _ => []
                            | None => [NetEthGetFeeData]
                            end
                         ++ [NetEthSendTransaction toAddress value GAS_LIMIT_ETHEREUM_transfer
                               (gasPriceOf fee oracle);
                             NetEthWait hash]))).
  { rewrite Htype. unfold adapterStage.
    change (streq CryptoType.ETHEREUM CryptoType.ETHEREUM) with true. cbv iota.
    unfold bind. now rewrite Hrun. }
  unfold result, after.
  rewrite (sendTransaction_returns env walletId toAddress amount fee w _ wallet pk _
             Hget Hdec Hstage).
  eexists. split; [reflexivity|]. cbn [fst snd Transaction.hash Transaction.gasPrice
                                        Transaction.fee network].
  auto.
Qed.

Lemma X14_ethereum_gas_price_witness :
  exists tx,
    result (sendTransaction sendEnvNoOracle ethWalletId
              (str "0xFFcf8FDEE72ac11b5c542428B35EEF5769C409f0") (1 # 2)%Q (Some 30000000000%Q))
           worldWithWallets = Return tx
    /\ Transaction.gasPrice tx = Some 30000000000%Q
    /\ Transaction.fee tx = 30000000000%Q
    /\ network (after (sendTransaction sendEnvNoOracle ethWalletId
                         (str "0xFFcf8FDEE72ac11b5c542428B35EEF5769C409f0") (1 # 2)%Q
                         (Some 30000000000%Q)) worldWithWallets)
       = [NetEthSendTransaction (str "0xFFcf8FDEE72ac11b5c542428B35EEF5769C409f0")
            ((1 # 2) * 1000000000000000000)%Q 21000%N 30000000000%Q;
          NetEthWait (str "0x88df016429689c079f3b2f6ad39fa052532c56795b733da78a91ebe6a713944b")].
Proof.
  let g := eval vm_compute in (JsMap.get ethWalletId (wallets worldWithWallets)) in
  match g with
  | Some ?wallet =>
      let d := eval vm_compute in
                 (result (decryptPrivateKey (Wallet.privateKey wallet)) worldWithWallets) in
      match d with
      | Return ?pk =>
          destruct (X14_ethereum_gas_price sendEnvNoOracle
                      ethWalletId (str "0xFFcf8FDEE72ac11b5c542428B35EEF5769C409f0")
                      (1 # 2)%Q (Some 30000000000%Q) worldWithWallets wallet pk 0%Q
                      ((1 # 2) * 1000000000000000000)%Q
                      (str "0x88df016429689c079f3b2f6ad39fa052532c56795b733da78a91ebe6a713944b")
                      (Some 21000%Q))
            as (tx & Hres & _ & Hprice & Hfee & Hnet)
      end
  end.
  - vm_compute. reflexivity.
  - reflexivity.
  - vm_compute. reflexivity.
  - discriminate.
  - repeat split.
  - exists tx. auto.
Defined.

Lemma decryptPrivateKey_throws (c : jsstring) (w : World) (e : JsError) :
  result (decryptPrivateKey c) w = Throw e ->
  (e = Error (str "Security manager not initialized") None
   \/ e = Error (str "Failed to decrypt private key") None)
  /\ network (after (decryptPrivateKey c) w) = network w.
Proof.
  unfold result, after, decryptPrivateKey, bind, get_world.
  destruct (usable_key (encryptionKey w)) as [key|].
  - unfold try_catch, bind, atob. destruct (Base64.atob c); simpl.
    + discriminate.
    + intros H. injection H as <-. auto.
  - simpl. intros H. injection H as <-. auto.
Qed.

(** X15: when the stored private key of the wallet cannot be decrypted (the
    engine has no key, or the stored text is not base64), [sendTransaction]
    fails with the generic Error('Failed to send transaction') before any
    request is sent; the registry is unchanged, and the last line on the
    console is the decryption error. *)
Theorem X15_undecryptable_key_sends_nothing (env : SendEnv) (walletId toAddress : jsstring)
  (amount : Q) (fee : option Q) (w : World) (wallet : Wallet) (e : JsError) :
  JsMap.get walletId (wallets w) = Some wallet ->
  result (decryptPrivateKey (Wallet.privateKey wallet)) w = Throw e ->
  result (sendTransaction env walletId toAddress amount fee) w
  = Throw (Error (str "Failed to send transaction") None)
  /\ network (after (sendTransaction env walletId toAddress amount fee) w) = network w
  /\ registry (after (sendTransaction env walletId toAddress amount fee) w) = registry w
  /\ (e = Error (str "Security manager not initialized") None
      \/ e = Error (str "Failed to decrypt private key") None)
  /\ console (after (sendTransaction env walletId toAddress amount fee) w)
     = console (after (decryptPrivateKey (Wallet.privateKey wallet)) w)
       ++ [ConsoleError (str "Failed to send transaction:") e].
Proof.
  intros Hget Hdec.
  destruct (decryptPrivateKey_throws _ w e Hdec) as [He Hnet].
  split; [|split; [|split; [|split; [exact He|]]]].
  3: apply (sendTransaction_keeps_registry env walletId toAddress amount fee w).
  all: revert Hdec Hnet; unfold result, after, sendTransaction, bind at 1, get_world;
    rewrite Hget; unfold try_catch, bind at 1;
    destruct (decryptPrivateKey (Wallet.privateKey wallet) w) as [[pk|e'] w']; simpl;
    intros Hdec Hnet; [discriminate|]; injection Hdec as ->; auto.
Qed.

Lemma X15_undecryptable_key_sends_nothing_witness :
  result (sendTransaction sendEnvOnline ethWalletId
            (str "0xFFcf8FDEE72ac11b5c542428B35EEF5769C409f0") (1 # 2)%Q None)
         (with_encryptionKey None worldWithWallets)
  = Throw (Error (str "Failed to send transaction") None)
  /\ network (after (sendTransaction sendEnvOnline ethWalletId
                       (str "0xFFcf8FDEE72ac11b5c542428B35EEF5769C409f0") (1 # 2)%Q None)
                    (with_encryptionKey None worldWithWallets))
     = [].
Proof.
  let g := eval vm_compute in (JsMap.get ethWalletId (wallets worldWithWallets)) in
  match g with
  | Some ?wallet =>
      destruct (X15_undecryptable_key_sends_nothing sendEnvOnline ethWalletId
                  (str "0xFFcf8FDEE72ac11b5c542428B35EEF5769C409f0") (1 # 2)%Q None
                  (with_encryptionKey None worldWithWallets) wallet
                  (Error (str "Security manager not initialized") None))
        as (Hres & Hnet & _)
  end.
  - vm_compute. reflexivity.
  - reflexivity.
  - split; [exact Hres|]. rewrite Hnet. reflexivity.
Defined.

(** ** WalletService: refreshing a balance *)




Lemma queryBalance_keeps_key (env : BalanceEnv) (wallet : Wallet) :
  keeps encryptionKey (queryBalance env wallet).
Proof.
  unfold queryBalance, getEthereumBalance, getBitcoinBalance, getSolanaBalance.
  keeps_tac.
Qed.

(** X17: for a registered wallet [getBalance] never throws, whatever the
    chain answers; the number it returns is the balance it leaves in the
    record; the record keeps its other fields but for the time of update;
    every other wallet, and the engine key, are as before. For a wallet whose
    type is none of the three chains no request is sent and the stored
    balance is returned. *)
Theorem X17_getBalance_total (env : BalanceEnv) (walletId : jsstring) (w : World)
  (wallet : Wallet) :
  JsMap.get walletId (wallets w) = Some wallet ->
  exists b,
    result (getBalance env walletId) w = Return b
    /\ getWallet walletId (after (getBalance env walletId) w)
       = Some (Wallet.mk (Wallet.id wallet) (Wallet.userId wallet) (Wallet.name wallet)
                 (Wallet.type wallet) (Wallet.address wallet) (Wallet.privateKey wallet)
                 b (Wallet.symbol wallet) (Wallet.decimals wallet)
                 (Wallet.createdAt wallet) (balance_Date env))
    /\ (forall other, other <> walletId ->
          getWallet other (after (getBalance env walletId) w) = getWallet other w)
    /\ encryptionKey (after (getBalance env walletId) w) = encryptionKey w
    /\ (unsupported (Wallet.type wallet) ->
        b = or_zero (Wallet.balance wallet)
        /\ network (after (getBalance env walletId) w) = network w).
Proof.
  intros Hget.
  destruct (queryBalance env wallet w) as [[b|e] w1] eqn:Hq.
  2: { destruct (queryBalance_never_throws env wallet w) as [b Hb].
       unfold result in Hb. rewrite Hq in Hb. discriminate. }
  pose proof (queryBalance_keeps_wallets env wallet w) as Hkw.
  pose proof (queryBalance_keeps_key env wallet w) as Hkey.
  rewrite Hq in Hkw, Hkey. cbn [snd] in Hkw, Hkey.
  exists b. unfold result, after, getWallet.
  rewrite (getBalance_run env walletId w w1 wallet b Hget Hq).
  cbn [fst snd wallets encryptionKey network]. rewrite Hkw.
  split; [reflexivity|]. split; [apply get_set_same|].
  split; [|split; [exact Hkey|]].
  - intros other Hother. rewrite get_set.
    destruct (streq walletId other) eqn:E; [|reflexivity].
    apply streq_eq in E. congruence.
  - intros Hun. apply unsupported_tests in Hun as (H1 & H2 & H3).
    unfold queryBalance in Hq. rewrite H1, H2, H3 in Hq.
    unfold ret in Hq. injection Hq as <- <-. auto.
Qed.

Lemma X17_getBalance_total_witness :
  exists b,
    result (getBalance balanceEnvOffline solWalletId) worldWithWallets = Return b
    /\ option_map Wallet.address
         (getWallet solWalletId (after (getBalance balanceEnvOffline solWalletId) worldWithWallets))
       = Some (str "7EcDhSYGxXyscszYEp35KHN8vvw3svAuLKTzXwCFLtV")
    /\ getWallet ethWalletId (after (getBalance balanceEnvOffline solWalletId) worldWithWallets)
       = getWallet ethWalletId worldWithWallets.
Proof.
  let g := eval vm_compute in (JsMap.get solWalletId (wallets worldWithWallets)) in
  match g with
  | Some ?wallet =>
      destruct (X17_getBalance_total balanceEnvOffline solWalletId worldWithWallets wallet)
        as (b & Hres & Hstored & Hothers & _)
  end.
  - vm_compute. reflexivity.
  - exists b. split; [exact Hres|]. split; [rewrite Hstored; reflexivity|].
    apply Hothers. discriminate.
Defined.

(** ** SendScreen: what the form lets through *)




(** ** AuthService *)

Lemma state_eta (s : Auth.State) :
  Auth.mkState (Auth.world s) (Auth.currentUser s) (Auth.isAuthenticated s)
               (Auth.users_item s) (Auth.session_item s) (Auth.user_item s) = s.
Proof. now destruct s. Qed.

Lemma world_eta (w : World) :
  mkWorld (wallets w) (encryptionKey w) (console w) (network w) = w.
Proof. now destruct w. Qed.

Lemma getStoredUsers_run (env : Auth.Env) (s : Auth.State) :
  exists w,
    Auth.getStoredUsers env s
    = (Return (readable env s),
       Auth.mkState w (Auth.currentUser s) (Auth.isAuthenticated s)
                    (Auth.users_item s) (Auth.session_item s) (Auth.user_item s))
    /\ (Auth.getItem_fault env Auth.USERS = None -> w = Auth.world s).
Proof.
  unfold Auth.getStoredUsers, Auth.attempt, Auth.andThen, Auth.getItem_users, Auth.request,
    readable, Auth.stored.
  destruct (Auth.getItem_fault env Auth.USERS) as [e|]; simpl.
  - eexists. split; [reflexivity|discriminate].
  - exists (Auth.world s). now rewrite state_eta.
Qed.

Lemma lift_hashPassword (d : jsstring -> Completion jsstring) (p h : jsstring)
  (s : Auth.State) :
  d p = Return h -> Auth.lift (hashPassword d p) s = (Return h, s).
Proof.
  intros Hd. unfold Auth.lift, hashPassword, try_catch, await. rewrite Hd. simpl.
  now rewrite state_eta.
Qed.

Lemma lift_hashPassword_throws (d : jsstring -> Completion jsstring) (p : jsstring)
  (e : JsError) (s : Auth.State) :
  d p = Throw e ->
  exists w,
    Auth.lift (hashPassword d p) s
    = (Throw (Error (str "Failed to hash password") None),
       Auth.mkState w (Auth.currentUser s) (Auth.isAuthenticated s)
                    (Auth.users_item s) (Auth.session_item s) (Auth.user_item s)).
Proof.
  intros Hd. unfold Auth.lift, hashPassword, try_catch, await. rewrite Hd. simpl.
  eexists. reflexivity.
Qed.

Lemma lift_verifyPassword (d : jsstring -> Completion jsstring) (p hash : jsstring)
  (s : Auth.State) :
  exists w,
    Auth.lift (verifyPassword d p hash) s
    = (Return match d p with
              | Return digest => streq digest hash
              | Throw _ => false
              end,
       Auth.mkState w (Auth.currentUser s) (Auth.isAuthenticated s)
                    (Auth.users_item s) (Auth.session_item s) (Auth.user_item s))
    /\ (forall digest, d p = Return digest -> w = Auth.world s).
Proof.
  unfold Auth.lift, verifyPassword, hashPassword, try_catch, bind, await.
  destruct (d p) as [digest|e]; simpl.
  - exists (Auth.world s). auto.
  - eexists. split; [reflexivity|discriminate].
Qed.

Lemma find_app (A : Type) (f : A -> bool) (l l' : list A) :
  find f (l ++ l') = match find f l with Some x => Some x | None => find f l' end.
Proof.
  induction l as [|x l IH]; simpl; [reflexivity|]. destruct (f x); auto.
Qed.

Lemma find_weaken (A : Type) (f g : A -> bool) (l : list A) :
  (forall x, f x = true -> g x = true) -> find g l = None -> find f l = None.
Proof.
  intros Hfg. induction l as [|x l IH]; simpl; [reflexivity|].
  destruct (g x) eqn:Eg; [discriminate|]. destruct (f x) eqn:Ef; [|exact IH].
  apply Hfg in Ef. congruence.
Qed.

Lemma createSession_run (env : Auth.Env) (user : Auth.User.t) (s : Auth.State) :
  Auth.setItem_fault env Auth.SESSION_STORAGE_KEY = None ->
  Auth.setItem_fault env Auth.USER_STORAGE_KEY = None ->
  Auth.createSession env user s
  = (Return tt,
     Auth.mkState (Auth.world s) (Auth.currentUser s) (Auth.isAuthenticated s)
       (Auth.users_item s)
       (Some (Auth.Session.mk (Auth.User.id user)
                (Auth.session_Date_now env + Auth.sessionLifetime)))
       (Some user)).
Proof.
  intros H1 H2.
  unfold Auth.createSession, Auth.andThen, Auth.setItem_session, Auth.setItem_user,
    Auth.request.
  now rewrite H1, H2.
Qed.

(** The run of a [register] whose steps all succeed. *)
Lemma register_run (env : Auth.Env) (email username password h : jsstring)
  (s : Auth.State) :
  find (fun user => streq (Auth.StoredUser.email user) email
                    || streq (Auth.StoredUser.username user) username)
       (readable env s) = None ->
  Auth.digestStringAsync env password = Return h ->
  (forall k, Auth.setItem_fault env k = None) ->
  exists w,
    Auth.register env email username password s
    = (Return (Auth.account (newAccount env email username h)),
       Auth.mkState w
         (Some (Auth.account (newAccount env email username h))) true
         (Some (readable env s ++ [newAccount env email username h]))
         (Some (Auth.Session.mk (str "user_" ++ decimal (Auth.user_Date_now env))
                  (Auth.session_Date_now env + Auth.sessionLifetime)))
         (Some (Auth.account (newAccount env email username h))))
    /\ (Auth.getItem_fault env Auth.USERS = None -> w = Auth.world s).
Proof.
  intros Hfind Hd Hset.
  destruct (getStoredUsers_run env s) as (w & Hrun & Hw).
  exists w. split; [|exact Hw].
  unfold Auth.register, Auth.attempt, Auth.andThen at 1. rewrite Hrun, Hfind.
  unfold Auth.andThen at 1. rewrite (lift_hashPassword _ _ h _ Hd).
  unfold Auth.andThen at 1, Auth.setItem_users, Auth.request. rewrite (Hset Auth.USERS).
  cbn [fst snd].
  unfold Auth.andThen at 1.
  rewrite (createSession_run env _ _ (Hset Auth.SESSION_STORAGE_KEY)
             (Hset Auth.USER_STORAGE_KEY)).
  reflexivity.
Qed.

(** The run of a [login] whose steps all succeed. *)
Lemma login_run (env : Auth.Env) (email password : jsstring) (s : Auth.State)
  (su : Auth.StoredUser.t) :
  Auth.getItem_fault env Auth.USERS = None ->
  find (fun user => streq (Auth.StoredUser.email user) email) (Auth.stored s) = Some su ->
  Auth.digestStringAsync env password = Return (Auth.StoredUser.password su) ->
  Auth.setItem_fault env Auth.SESSION_STORAGE_KEY = None ->
  Auth.setItem_fault env Auth.USER_STORAGE_KEY = None ->
  Auth.login env email password s
  = (Return (Auth.account su),
     Auth.mkState (Auth.world s) (Some (Auth.account su)) true (Auth.users_item s)
       (Some (Auth.Session.mk (Auth.StoredUser.id su)
                (Auth.session_Date_now env + Auth.sessionLifetime)))
       (Some (Auth.account su))).
Proof.
  intros Hget Hfind Hd H1 H2.
  destruct (getStoredUsers_run env s) as (w & Hrun & Hw).
  rewrite (Hw Hget), state_eta in Hrun. unfold readable in Hrun. rewrite Hget in Hrun.
  unfold Auth.login, Auth.attempt, Auth.andThen at 1. rewrite Hrun, Hfind.
  destruct (lift_verifyPassword (Auth.digestStringAsync env) password
              (Auth.StoredUser.password su) s) as (w' & Hv & Hw').
  unfold Auth.andThen at 1. rewrite Hv, Hd, streq_refl.
  rewrite (Hw' _ Hd), state_eta. cbn [negb]. cbv iota.
  unfold Auth.andThen at 1.
  rewrite (createSession_run env _ _ H1 H2).
  reflexivity.
Qed.

Lemma register_returns (env : Auth.Env) (email username password : jsstring)
  (s : Auth.State) (user : Auth.User.t) :
  Auth.outcome (Auth.register env email username password) s = Return user ->
  find (fun user => streq (Auth.StoredUser.email user) email
                    || streq (Auth.StoredUser.username user) username)
       (readable env s) = None
  /\ exists h, Auth.digestStringAsync env password = Return h.
Proof.
  destruct (getStoredUsers_run env s) as (w & Hrun & _).
  unfold Auth.outcome, Auth.register, Auth.attempt, Auth.andThen at 1. rewrite Hrun.
  destruct (find _ (readable env s)) as [existing|]; [discriminate|].
  intros H. split; [reflexivity|].
  destruct (Auth.digestStringAsync env password) as [h|e] eqn:Hd; [eauto|].
  exfalso. revert H. unfold Auth.andThen at 1.
  destruct (lift_hashPassword_throws _ password e
              (Auth.mkState w (Auth.currentUser s) (Auth.isAuthenticated s)
                 (Auth.users_item s) (Auth.session_item s) (Auth.user_item s)) Hd)
    as (w' & ->).
  discriminate.
Qed.

(** X19: an account that was registered can sign in. When [register]
    returns a user, that user is signed in, and a later [login] with the
    same email and password (on a store that answers, also after a restart
    of the application) returns that same user, signs it in, and writes a
    session that expires seven days after the login. *)
Theorem X19_register_then_login (env1 env2 : Auth.Env) (email username password : jsstring)
  (s : Auth.State) (user : Auth.User.t) :
  Auth.storageWorks env1 ->
  Auth.storageWorks env2 ->
  Auth.digestStringAsync env2 password = Auth.digestStringAsync env1 password ->
  Auth.outcome (Auth.register env1 email username password) s = Return user ->
  Auth.getCurrentUser (Auth.next (Auth.register env1 email username password) s) = Some user
  /\ Auth.isUserAuthenticated (Auth.next (Auth.register env1 email username password) s)
     = true
  /\ Auth.User.email user = email
  /\ Auth.User.username user = username
  /\ Auth.outcome (Auth.login env2 email password)
       (Auth.restarted (Auth.next (Auth.register env1 email username password) s))
     = Return user
  /\ Auth.getCurrentUser
       (Auth.next (Auth.login env2 email password)
          (Auth.restarted (Auth.next (Auth.register env1 email username password) s)))
     = Some user
  /\ Auth.session_item
       (Auth.next (Auth.login env2 email password)
          (Auth.restarted (Auth.next (Auth.register env1 email username password) s)))
     = Some (Auth.Session.mk (Auth.User.id user)
               (Auth.session_Date_now env2 + 604800000)).
Proof.
  intros Hs1 Hs2 Hdigest Hreg.
  destruct (register_returns env1 email username password s user Hreg) as (Hfind & h & Hd).
  destruct (register_run env1 email username password h s Hfind Hd
              (fun k => proj1 (proj2 (Hs1 k)))) as (w & Hrun & _).
  unfold Auth.outcome in Hreg. rewrite Hrun in Hreg. cbn [fst] in Hreg.
  injection Hreg as <-.
  unfold Auth.next at 1 2. rewrite Hrun. cbn [snd].
  split; [reflexivity|]. split; [reflexivity|]. split; [reflexivity|].
  split; [reflexivity|].
  set (s1 := Auth.restarted (Auth.next _ s)).
  assert (Hlogin : Auth.login env2 email password s1
                   = (Return (Auth.account (newAccount env1 email username h)),
                      Auth.mkState (Auth.world s1)
                        (Some (Auth.account (newAccount env1 email username h))) true
                        (Auth.users_item s1)
                        (Some (Auth.Session.mk
                                 (Auth.StoredUser.id (newAccount env1 email username h))
                                 (Auth.session_Date_now env2 + Auth.sessionLifetime)))
                        (Some (Auth.account (newAccount env1 email username h))))).
  { apply login_run.
    - apply Hs2.
    - subst s1. unfold Auth.next. rewrite Hrun. cbn. rewrite find_app.
      rewrite (find_weaken _ _ _ (readable env1 s)
                 (fun x Hx => orb_true_intro _ _ (or_introl Hx)) Hfind).
      cbn. now rewrite streq_refl.
    - rewrite Hdigest. exact Hd.
    - apply Hs2.
    - apply Hs2. }
  unfold Auth.outcome, Auth.next. rewrite Hlogin. cbn [fst snd].
  split; [reflexivity|]. split; reflexivity.
Qed.

Lemma X19_register_then_login_witness :
  exists user,
    Auth.outcome (Auth.register (Auth.envAt 1700000005000) (str "bob@example.com") (str "bob")
                    (str "battery staple")) Auth.aliceRegistered = Return user
    /\ Auth.User.id user = str "user_1700000005000"
    /\ Auth.outcome (Auth.login (Auth.envAt 1700000900000) (str "bob@example.com")
                       (str "battery staple"))
         (Auth.restarted Auth.bobRegistered) = Return user
    /\ Auth.session_item
         (Auth.next (Auth.login (Auth.envAt 1700000900000) (str "bob@example.com")
                       (str "battery staple"))
            (Auth.restarted Auth.bobRegistered))
       = Some (Auth.Session.mk (str "user_1700000005000") 1700605700000).
Proof.
  let r := eval vm_compute in
             (Auth.outcome (Auth.register (Auth.envAt 1700000005000) (str "bob@example.com")
                              (str "bob") (str "battery staple")) Auth.aliceRegistered) in
  match r with
  | Return ?user =>
      exists user;
      destruct (X19_register_then_login (Auth.envAt 1700000005000) (Auth.envAt 1700000900000)
                  (str "bob@example.com") (str "bob") (str "battery staple")
                  Auth.aliceRegistered user)
        as (_ & _ & _ & _ & Hlogin & _ & Hsession)
  end.
  - intros k. auto.
  - intros k. auto.
  - reflexivity.
  - vm_compute. reflexivity.
  - split; [vm_compute; reflexivity|]. split; [reflexivity|].
    split; [exact Hlogin|exact Hsession].
Defined.

Lemma rethrown (B : Type) (label : jsstring) (e : JsError) (s : Auth.State) :
  Auth.andThen (Auth.lift (console_error label e)) (fun _ => @Auth.raise B e) s
  = (Throw e,
     Auth.mkState
       (mkWorld (wallets (Auth.world s)) (encryptionKey (Auth.world s))
                (console (Auth.world s) ++ [ConsoleError label e]) (network (Auth.world s)))
       (Auth.currentUser s) (Auth.isAuthenticated s)
       (Auth.users_item s) (Auth.session_item s) (Auth.user_item s)).
Proof. reflexivity. Qed.

Lemma login_rejects (env : Auth.Env) (email password : jsstring) (s : Auth.State) :
  (forall su,
      find (fun u => streq (Auth.StoredUser.email u) email) (readable env s) = Some su ->
      Auth.digestStringAsync env password <> Return (Auth.StoredUser.password su)) ->
  exists w,
    Auth.login env email password s
    = (Throw (Error (str "Invalid email or password") None),
       Auth.mkState w (Auth.currentUser s) (Auth.isAuthenticated s)
                    (Auth.users_item s) (Auth.session_item s) (Auth.user_item s)).
Proof.
  intros Hno.
  destruct (getStoredUsers_run env s) as (w & Hrun & _).
  unfold Auth.login, Auth.attempt. unfold Auth.andThen at 1. rewrite Hrun.
  destruct (find _ (readable env s)) as [su|] eqn:Hfind.
  - set (s1 := Auth.mkState w _ _ _ _ _).
    destruct (lift_verifyPassword (Auth.digestStringAsync env) password
                (Auth.StoredUser.password su) s1) as (w' & Hv & _).
    unfold Auth.andThen at 1. rewrite Hv.
    assert (Hfalse : match Auth.digestStringAsync env password with
                     | Return digest => streq digest (Auth.StoredUser.password su)
                     | Throw _ => false
                     end = false).
    { destruct (Auth.digestStringAsync env password) as [digest|e] eqn:Hd; [|reflexivity].
      destruct (streq digest (Auth.StoredUser.password su)) eqn:Heq; [|reflexivity].
      apply streq_eq in Heq. subst digest. exfalso. now apply (Hno su). }
    rewrite Hfalse. cbn [negb]. cbv iota.
    change (Auth.raise ?e ?s0) with (@Throw Auth.User.t e, s0). cbv iota.
    rewrite rethrown. eexists. reflexivity.
  - change (Auth.raise ?e ?s0) with (@Throw Auth.User.t e, s0). cbv iota.
    rewrite rethrown. eexists. reflexivity.
Qed.

Lemma login_accepts_only (env : Auth.Env) (email password : jsstring) (s : Auth.State)
  (user : Auth.User.t) :
  Auth.outcome (Auth.login env email password) s = Return user ->
  exists su,
    find (fun u => streq (Auth.StoredUser.email u) email) (readable env s) = Some su
    /\ Auth.digestStringAsync env password = Return (Auth.StoredUser.password su)
    /\ user = Auth.account su.
Proof.
  destruct (getStoredUsers_run env s) as (w & Hrun & _).
  unfold Auth.outcome, Auth.login, Auth.attempt. unfold Auth.andThen at 1. rewrite Hrun.
  destruct (find _ (readable env s)) as [su|] eqn:Hfind; [|discriminate].
  set (s1 := Auth.mkState w _ _ _ _ _).
  destruct (lift_verifyPassword (Auth.digestStringAsync env) password
              (Auth.StoredUser.password su) s1) as (w' & Hv & _).
  unfold Auth.andThen at 1. rewrite Hv.
  destruct (Auth.digestStringAsync env password) as [digest|e] eqn:Hd; [|discriminate].
  destruct (streq digest (Auth.StoredUser.password su)) eqn:Heq; [|discriminate].
  apply streq_eq in Heq. subst digest.
  cbn [negb]. cbv iota. unfold Auth.andThen at 1.
  match goal with
  | |- context [Auth.createSession env ?u ?st] =>
      destruct (Auth.createSession env u st) as [[[]|e] s2]
  end; [|discriminate].
  cbn. intros H. exists su. split; [reflexivity|]. split; [reflexivity|].
  unfold Auth.account. now injection H.
Qed.

(** X20: [login] signs in only on a matching hash. When it returns a user,
    the first stored account with that email has, as its stored password,
    the digest of the password given, and the user returned is that account.
    When there is no such account, or the digest differs or cannot be
    computed, or the accounts cannot be read, the call throws the one error
    'Invalid email or password' and changes nothing but the console: nobody
    is signed in and no session is written. *)
Theorem X20_login_checks_the_hash (env : Auth.Env) (email password : jsstring)
  (s : Auth.State) :
  (forall user,
      Auth.outcome (Auth.login env email password) s = Return user ->
      exists su,
        find (fun u => streq (Auth.StoredUser.email u) email) (readable env s) = Some su
        /\ Auth.digestStringAsync env password = Return (Auth.StoredUser.password su)
        /\ user = Auth.account su)
  /\ ((forall su,
          find (fun u => streq (Auth.StoredUser.email u) email) (readable env s) = Some su ->
          Auth.digestStringAsync env password <> Return (Auth.StoredUser.password su)) ->
      Auth.outcome (Auth.login env email password) s
      = Throw (Error (str "Invalid email or password") None)
      /\ unchanged_but_console s (Auth.next (Auth.login env email password) s)).
Proof.
  split.
  - intros user. apply login_accepts_only.
  - intros Hno. destruct (login_rejects env email password s Hno) as (w & Hrun).
    unfold Auth.outcome, Auth.next. rewrite Hrun. cbn [fst snd].
    split; [reflexivity|]. repeat split.
Qed.

Lemma X20_login_checks_the_hash_witness :
  Auth.outcome (Auth.login (Auth.envAt 1700000900000) (str "bob@example.com")
                  (str "correct horse")) Auth.bobRegistered
  = Throw (Error (str "Invalid email or password") None)
  /\ Auth.outcome (Auth.login (Auth.envAt 1700000900000) (str "carol@example.com")
                     (str "correct horse")) Auth.bobRegistered
     = Throw (Error (str "Invalid email or password") None)
  /\ Auth.outcome (Auth.login (Auth.envUnreadable 1700000900000) (str "bob@example.com")
                     (str "battery staple")) Auth.bobRegistered
     = Throw (Error (str "Invalid email or password") None).
Proof.
  split; [|split].
  - refine (proj1 (proj2 (X20_login_checks_the_hash (Auth.envAt 1700000900000)
                            (str "bob@example.com") (str "correct horse")
                            Auth.bobRegistered) _)).
    intros su Hsu. vm_compute in Hsu. injection Hsu as <-. vm_compute. discriminate.
  - refine (proj1 (proj2 (X20_login_checks_the_hash (Auth.envAt 1700000900000)
                            (str "carol@example.com") (str "correct horse")
                            Auth.bobRegistered) _)).
    intros su Hsu. vm_compute in Hsu. discriminate Hsu.
  - refine (proj1 (proj2 (X20_login_checks_the_hash (Auth.envUnreadable 1700000900000)
                            (str "bob@example.com") (str "battery staple")
                            Auth.bobRegistered) _)).
    intros su Hsu. vm_compute in Hsu. discriminate Hsu.
Defined.

(** *** What a call leaves alone *)

Lemma preserves_pure {X A : Type} (proj : Auth.State -> X) (a : A) :
  preserves proj (Auth.pure a).
Proof. intro. reflexivity. Qed.

Lemma preserves_raise {X A : Type} (proj : Auth.State -> X) (e : JsError) :
  preserves proj (@Auth.raise A e).
Proof. intro. reflexivity. Qed.

Lemma preserves_get {X : Type} (proj : Auth.State -> X) : preserves proj Auth.get.
Proof. intro. reflexivity. Qed.

Lemma preserves_andThen {X A B : Type} (proj : Auth.State -> X) (m : Auth.St A)
  (k : A -> Auth.St B) :
  preserves proj m -> (forall a, preserves proj (k a)) -> preserves proj (Auth.andThen m k).
Proof.
  intros Hm Hk s. unfold Auth.andThen. specialize (Hm s).
  destruct (m s) as [[a|e] s']; simpl in Hm.
  - now rewrite Hk.
  - exact Hm.
Qed.

Lemma preserves_attempt {X A : Type} (proj : Auth.State -> X) (m : Auth.St A)
  (h : JsError -> Auth.St A) :
  preserves proj m -> (forall e, preserves proj (h e)) -> preserves proj (Auth.attempt m h).
Proof.
  intros Hm Hh s. unfold Auth.attempt. specialize (Hm s).
  destruct (m s) as [[a|e] s']; simpl in Hm.
  - exact Hm.
  - now rewrite Hh.
Qed.

Lemma preserves_request {X A : Type} (proj : Auth.State -> X) (fault : option JsError)
  (run : Auth.State -> A * Auth.State) :
  (forall s, proj (snd (run s)) = proj s) -> preserves proj (Auth.request fault run).
Proof. intros H s. unfold Auth.request. destruct fault; simpl; auto. Qed.

Lemma preserves_attempt_body {X A : Type} (proj : Auth.State -> X) (body : Auth.St A)
  (handler : JsError -> Auth.St A) (s : Auth.State) :
  (forall e, preserves proj (handler e)) ->
  proj (snd (Auth.attempt body handler s)) = proj (snd (body s)).
Proof.
  intros Hh. unfold Auth.attempt. destruct (body s) as [[a|e] s']; simpl; [reflexivity|].
  apply Hh.
Qed.

Ltac preserves_step :=
  match goal with
  | |- preserves _ (Auth.andThen _ _) => apply preserves_andThen; [|intro]
  | |- preserves _ (Auth.attempt _ _) => apply preserves_attempt; [|intro]
  | |- preserves _ (Auth.pure _) => apply preserves_pure
  | |- preserves _ (Auth.raise _) => apply preserves_raise
  | |- preserves _ Auth.get => apply preserves_get
  | |- preserves _ (Auth.request _ _) => apply preserves_request; intro; reflexivity
  | |- preserves _ (Auth.lift _) => intro; reflexivity
  | |- preserves _ (Auth.set_currentUser _) => intro; reflexivity
  | |- preserves _ (Auth.set_isAuthenticated _) => intro; reflexivity
  | |- preserves _ (match ?x with _ => _ end) => destruct x
  end.

Ltac preserves_tac := repeat preserves_step.

Lemma createSession_keeps_users (env : Auth.Env) (user : Auth.User.t) :
  preserves Auth.users_item (Auth.createSession env user).
Proof. unfold Auth.createSession, Auth.setItem_session, Auth.setItem_user. preserves_tac. Qed.

Lemma clearSession_keeps_users (env : Auth.Env) :
  preserves Auth.users_item (Auth.clearSession env).
Proof.
  unfold Auth.clearSession, Auth.removeItem_session, Auth.removeItem_user. preserves_tac.
Qed.

Lemma getStoredUsers_keeps_users (env : Auth.Env) :
  preserves Auth.users_item (Auth.getStoredUsers env).
Proof. unfold Auth.getStoredUsers, Auth.getItem_users. preserves_tac. Qed.

Lemma initialize_keeps_users (env : Auth.Env) :
  preserves Auth.users_item (Auth.initialize env).
Proof.
  unfold Auth.initialize, Auth.getItem_session, Auth.getItem_user.
  preserves_tac; apply clearSession_keeps_users.
Qed.

Lemma login_keeps_users (env : Auth.Env) (email password : jsstring) :
  preserves Auth.users_item (Auth.login env email password).
Proof.
  unfold Auth.login.
  preserves_tac; try apply getStoredUsers_keeps_users; apply createSession_keeps_users.
Qed.

Lemma logout_keeps_users (env : Auth.Env) : preserves Auth.users_item (Auth.logout env).
Proof. unfold Auth.logout. preserves_tac. apply clearSession_keeps_users. Qed.

(** The item 'users' after [register]: as before, or with the new account
    appended to what was read. *)
Lemma register_users_item (env : Auth.Env) (email username password : jsstring)
  (s : Auth.State) :
  Auth.users_item (Auth.next (Auth.register env email username password) s)
  = Auth.users_item s
  \/ exists h,
       find (fun user => streq (Auth.StoredUser.email user) email
                         || streq (Auth.StoredUser.username user) username)
            (readable env s) = None
       /\ Auth.users_item (Auth.next (Auth.register env email username password) s)
          = Some (readable env s ++ [newAccount env email username h]).
Proof.
  destruct (getStoredUsers_run env s) as (w & Hrun & _).
  remember (Auth.users_item (Auth.next (Auth.register env email username password) s))
    as r eqn:Hr.
  unfold Auth.next, Auth.register in Hr.
  rewrite (preserves_attempt_body Auth.users_item) in Hr.
  2: { intro. preserves_tac. }
  unfold Auth.andThen at 1 in Hr. rewrite Hrun in Hr.
  destruct (find _ (readable env s)) as [existing|] eqn:Hfind; [now left|].
  destruct (Auth.digestStringAsync env password) as [h|e] eqn:Hd.
  - unfold Auth.andThen at 1 in Hr. rewrite (lift_hashPassword _ _ h _ Hd) in Hr.
    unfold Auth.andThen at 1, Auth.setItem_users, Auth.request in Hr.
    destruct (Auth.setItem_fault env Auth.USERS) as [e|]; [now left|].
    cbn [fst snd] in Hr. right. exists h. split; [reflexivity|].
    match type of Hr with
    | _ = Auth.users_item (snd (?m ?st)) =>
        assert (Hk : preserves Auth.users_item m)
    end.
    { preserves_tac. apply createSession_keeps_users. }
    now rewrite Hk in Hr.
  - unfold Auth.andThen at 1 in Hr.
    match type of Hr with
    | context [Auth.lift _ ?st] =>
        destruct (lift_hashPassword_throws _ password e st Hd) as (w' & Hthrow)
    end.
    rewrite Hthrow in Hr. now left.
Qed.

Ltac auth_fields :=
  cbn [Auth.world Auth.currentUser Auth.isAuthenticated Auth.users_item Auth.session_item
       Auth.user_item fst snd] in *.

(** [findIndex] finds the first element that passes the test. *)
Lemma findIndex_Some (A : Type) (f : A -> bool) (l : list A) (i : nat) :
  Auth.findIndex f l = Some i ->
  exists x, nth_error l i = Some x /\ f x = true
            /\ forall j y, (j < i)%nat -> nth_error l j = Some y -> f y = false.
Proof.
  revert i. induction l as [|a l IH]; simpl; intros i; [discriminate|].
  destruct (f a) eqn:Ea.
  - intros H. injection H as <-. exists a. split; [reflexivity|]. split; [exact Ea|].
    intros j y Hj. lia.
  - destruct (Auth.findIndex f l) as [i'|]; simpl; [|discriminate].
    intros H. injection H as <-. destruct (IH i' eq_refl) as (x & Hx & Hfx & Hfirst).
    exists x. split; [exact Hx|]. split; [exact Hfx|].
    intros [|j] y Hj; simpl.
    + intros H. injection H as <-. exact Ea.
    + apply Hfirst. lia.
Qed.

Lemma findIndex_In (A : Type) (f : A -> bool) (l : list A) (x : A) :
  In x l -> f x = true -> exists i, Auth.findIndex f l = Some i.
Proof.
  induction l as [|a l IH]; simpl; [tauto|].
  intros Hin Hx. destruct (f a) eqn:Ea; [eauto|].
  destruct Hin as [->|Hin]; [congruence|].
  destruct (IH Hin Hx) as [i ->]. simpl. eauto.
Qed.

Lemma map_update (A B : Type) (g : A -> B) (f : A -> A) (i : nat) (l : list A) :
  (forall x, g (f x) = g x) -> map g (Auth.update i f l) = map g l.
Proof.
  intros H. revert i. induction l as [|a l IH]; intros [|i]; simpl; try reflexivity.
  - now rewrite H.
  - now rewrite IH.
Qed.

Lemma nth_error_update (A : Type) (f : A -> A) (i j : nat) (l : list A) :
  nth_error (Auth.update i f l) j
  = if Nat.eqb i j then option_map f (nth_error l j) else nth_error l j.
Proof.
  revert i j. induction l as [|a l IH]; intros [|i] [|j]; simpl; try reflexivity.
  - now destruct (Nat.eqb i j).
  - apply IH.
Qed.

(** The outcomes of [changePassword]: it throws and the storage is as it
    was, or every check passed and one record carries the new hash. *)
Lemma changePassword_cases (env : Auth.Env) (currentPassword newPassword : jsstring)
  (s : Auth.State) :
  (exists e w,
      Auth.changePassword env currentPassword newPassword s
      = (Throw e,
         Auth.mkState w (Auth.currentUser s) (Auth.isAuthenticated s)
                      (Auth.users_item s) (Auth.session_item s) (Auth.user_item s)))
  \/ (exists current i su h w,
         Auth.currentUser s = Some current
         /\ Auth.findIndex (fun user => streq (Auth.StoredUser.id user) (Auth.User.id current))
                           (readable env s) = Some i
         /\ nth_error (readable env s) i = Some su
         /\ Auth.digestStringAsync env currentPassword = Return (Auth.StoredUser.password su)
         /\ Auth.digestStringAsync env newPassword = Return h
         /\ Auth.changePassword env currentPassword newPassword s
            = (Return tt,
               Auth.mkState w (Auth.currentUser s) (Auth.isAuthenticated s)
                 (Some (Auth.update i (rehashed env h) (readable env s)))
                 (Auth.session_item s) (Auth.user_item s))).
Proof.
  remember (Auth.changePassword env currentPassword newPassword s) as r eqn:Hr.
  unfold Auth.changePassword, Auth.attempt in Hr.
  unfold Auth.andThen at 1, Auth.get in Hr.
  destruct (Auth.currentUser s) as [current|] eqn:Hcurrent.
  2: { left. change (Auth.raise ?e ?s0) with (@Throw unit e, s0) in Hr. cbv iota in Hr.
       rewrite rethrown in Hr. rewrite Hcurrent in Hr. eauto. }
  destruct (getStoredUsers_run env s) as (w & Hrun & _).
  unfold Auth.andThen at 1 in Hr. rewrite Hrun in Hr.
  destruct (Auth.findIndex _ (readable env s)) as [i|] eqn:Hindex.
  2: { left. change (Auth.raise ?e ?s0) with (@Throw unit e, s0) in Hr. cbv iota in Hr.
       rewrite rethrown in Hr. auth_fields. rewrite Hcurrent in Hr. eauto. }
  destruct (nth_error (readable env s) i) as [su|] eqn:Hnth.
  2: { left. change (Auth.raise ?e ?s0) with (@Throw unit e, s0) in Hr. cbv iota in Hr.
       rewrite rethrown in Hr. auth_fields. rewrite Hcurrent in Hr. eauto. }
  unfold Auth.andThen at 1 in Hr.
  match type of Hr with
  | context [Auth.lift (verifyPassword ?d ?p ?hash) ?st] =>
      destruct (lift_verifyPassword d p hash st) as (w1 & Hv & _)
  end.
  rewrite Hv in Hr. auth_fields.
  destruct (Auth.digestStringAsync env currentPassword) as [digest|e] eqn:Hd.
  2: { left. cbn [negb] in Hr. cbv iota in Hr.
       change (Auth.raise ?e ?s0) with (@Throw unit e, s0) in Hr. cbv iota in Hr.
       rewrite rethrown in Hr. auth_fields. rewrite Hcurrent in Hr. eauto. }
  destruct (streq digest (Auth.StoredUser.password su)) eqn:Heq.
  2: { left. cbn [negb] in Hr. cbv iota in Hr.
       change (Auth.raise ?e ?s0) with (@Throw unit e, s0) in Hr. cbv iota in Hr.
       rewrite rethrown in Hr. auth_fields. rewrite Hcurrent in Hr. eauto. }
  apply streq_eq in Heq. subst digest. cbn [negb] in Hr. cbv iota in Hr.
  unfold Auth.andThen at 1 in Hr.
  destruct (Auth.digestStringAsync env newPassword) as [h|e] eqn:Hn.
  - rewrite (lift_hashPassword _ _ h _ Hn) in Hr.
    unfold Auth.setItem_users, Auth.request in Hr.
    destruct (Auth.setItem_fault env Auth.USERS) as [e|].
    + left. rewrite rethrown in Hr. auth_fields. rewrite Hcurrent in Hr. eauto.
    + right. auth_fields. exists current, i, su, h, w1.
      rewrite Hcurrent in Hr. auto 10.
  - match type of Hr with
    | context [Auth.lift _ ?st] =>
        destruct (lift_hashPassword_throws _ newPassword e st Hn) as (w' & Hthrow)
    end.
    rewrite Hthrow in Hr. left. rewrite rethrown in Hr. auth_fields.
    rewrite Hcurrent in Hr. eauto.
Qed.

Lemma lift_generateSecurePassword (randomBytes : list N) (s : Auth.State) :
  Auth.lift (generateSecurePassword randomBytes) s
  = (Return (generatedPassword randomBytes), s).
Proof.
  unfold Auth.lift, generateSecurePassword, try_catch, ret, generatedPassword. simpl.
  now rewrite state_eta.
Qed.

(** The outcomes of [resetPassword]. *)
Lemma resetPassword_cases (env : Auth.Env) (email : jsstring) (s : Auth.State) :
  (exists e w,
      Auth.resetPassword env email s
      = (Throw e,
         Auth.mkState w (Auth.currentUser s) (Auth.isAuthenticated s)
                      (Auth.users_item s) (Auth.session_item s) (Auth.user_item s)))
  \/ (exists su i h,
         Auth.getItem_fault env Auth.USERS = None
         /\ find (fun u => streq (Auth.StoredUser.email u) email) (Auth.stored s) = Some su
         /\ Auth.findIndex (fun u => streq (Auth.StoredUser.id u) (Auth.StoredUser.id su))
                           (Auth.stored s) = Some i
         /\ Auth.digestStringAsync env (generatedPassword (Auth.passwordRandomBytes env))
            = Return h
         /\ Auth.resetPassword env email s
            = (Return tt,
               Auth.mkState
                 (mkWorld (wallets (Auth.world s)) (encryptionKey (Auth.world s))
                    (console (Auth.world s)
                     ++ [ConsoleLog (str "New password generated: "
                                     ++ generatedPassword (Auth.passwordRandomBytes env))])
                    (network (Auth.world s)))
                 (Auth.currentUser s) (Auth.isAuthenticated s)
                 (Some (Auth.update i (rehashed env h) (Auth.stored s)))
                 (Auth.session_item s) (Auth.user_item s))).
Proof.
  remember (Auth.resetPassword env email s) as r eqn:Hr.
  unfold Auth.resetPassword, Auth.attempt in Hr.
  destruct (getStoredUsers_run env s) as (w & Hrun & Hw).
  unfold Auth.andThen at 1 in Hr. rewrite Hrun in Hr.
  destruct (find _ (readable env s)) as [su|] eqn:Hfind.
  2: { left. change (Auth.raise ?e ?s0) with (@Throw unit e, s0) in Hr. cbv iota in Hr.
       rewrite rethrown in Hr. auth_fields. eauto. }
  assert (Hget : Auth.getItem_fault env Auth.USERS = None).
  { unfold readable in Hfind. destruct (Auth.getItem_fault env Auth.USERS); [discriminate|].
    reflexivity. }
  unfold readable in *. rewrite Hget in *. rewrite (Hw eq_refl) in *. clear Hw w.
  unfold Auth.andThen at 1 in Hr. rewrite lift_generateSecurePassword in Hr.
  unfold Auth.andThen at 1 in Hr.
  destruct (Auth.digestStringAsync env (generatedPassword (Auth.passwordRandomBytes env)))
    as [h|e] eqn:Hd.
  - rewrite (lift_hashPassword _ _ h _ Hd) in Hr.
    destruct (Auth.findIndex _ (Auth.stored s)) as [i|] eqn:Hindex.
    2: { left. change (Auth.raise ?e ?s0) with (@Throw unit e, s0) in Hr. cbv iota in Hr.
         rewrite rethrown in Hr. auth_fields. eauto. }
    unfold Auth.andThen at 1, Auth.setItem_users, Auth.request in Hr.
    destruct (Auth.setItem_fault env Auth.USERS) as [e|].
    + left. rewrite rethrown in Hr. auth_fields. eauto.
    + right. auth_fields. exists su, i, h. auto 10.
  - match type of Hr with
    | context [Auth.lift _ ?st] =>
        destruct (lift_hashPassword_throws _ _ e st Hd) as (w' & Hthrow)
    end.
    rewrite Hthrow in Hr. left. rewrite rethrown in Hr. auth_fields. eauto.
Qed.

Lemma unique_accounts_nil : Auth.unique_accounts [].
Proof. split; constructor. Qed.

Lemma unique_accounts_update (f : Auth.StoredUser.t -> Auth.StoredUser.t) (i : nat)
  (users : list Auth.StoredUser.t) :
  (forall u, Auth.StoredUser.email (f u) = Auth.StoredUser.email u) ->
  (forall u, Auth.StoredUser.username (f u) = Auth.StoredUser.username u) ->
  Auth.unique_accounts users -> Auth.unique_accounts (Auth.update i f users).
Proof.
  intros He Hu [H1 H2]. split.
  - now rewrite (map_update _ _ Auth.StoredUser.email f i users He).
  - now rewrite (map_update _ _ Auth.StoredUser.username f i users Hu).
Qed.

Lemma NoDup_snoc (A : Type) (l : list A) (x : A) :
  NoDup l -> ~ In x l -> NoDup (l ++ [x]).
Proof.
  intros Hl Hx. apply NoDup_app; [exact Hl|apply NoDup_cons; [tauto|apply NoDup_nil]|].
  intros y Hy [<-|[]]. contradiction.
Qed.

Lemma unique_accounts_snoc (users : list Auth.StoredUser.t) (u : Auth.StoredUser.t) :
  find (fun user => streq (Auth.StoredUser.email user) (Auth.StoredUser.email u)
                    || streq (Auth.StoredUser.username user) (Auth.StoredUser.username u))
       users = None ->
  Auth.unique_accounts users -> Auth.unique_accounts (users ++ [u]).
Proof.
  intros Hfind [H1 H2]. split; rewrite map_app; simpl; apply NoDup_snoc; auto.
  - intros Hin. apply in_map_iff in Hin as (x & Hx & Hin).
    pose proof (find_none _ _ Hfind x Hin) as Hf. simpl in Hf.
    rewrite Hx, streq_refl in Hf. discriminate.
  - intros Hin. apply in_map_iff in Hin as (x & Hx & Hin).
    pose proof (find_none _ _ Hfind x Hin) as Hf. simpl in Hf.
    rewrite Hx, streq_refl, orb_true_r in Hf. discriminate.
Qed.

Lemma unique_readable (env : Auth.Env) (s : Auth.State) :
  Auth.unique_accounts (Auth.stored s) -> Auth.unique_accounts (readable env s).
Proof.
  unfold readable. destruct (Auth.getItem_fault env Auth.USERS); [|auto].
  intros _. apply unique_accounts_nil.
Qed.

Lemma perform_unique (s : Auth.State) (call : AuthCall) :
  Auth.unique_accounts (Auth.stored s) -> Auth.unique_accounts (Auth.stored (perform s call)).
Proof.
  intros Hs.
  destruct call as [env|env email username password|env email password|env
                    |env currentPassword newPassword|env email]; cbn [perform].
  - unfold Auth.stored, Auth.next. now rewrite initialize_keeps_users.
  - unfold Auth.stored.
    destruct (register_users_item env email username password s) as [->|(h & Hfind & ->)];
      [exact Hs|].
    apply unique_accounts_snoc; [exact Hfind|now apply unique_readable].
  - unfold Auth.stored, Auth.next. now rewrite login_keeps_users.
  - unfold Auth.stored, Auth.next. now rewrite logout_keeps_users.
  - unfold Auth.stored, Auth.next.
    destruct (changePassword_cases env currentPassword newPassword s)
      as [(e & w & ->)|(current & i & su & h & w & _ & _ & _ & _ & _ & ->)]; cbn [snd];
      auth_fields; [exact Hs|].
    apply unique_accounts_update; [reflexivity|reflexivity|now apply unique_readable].
  - unfold Auth.stored at 1, Auth.next.
    destruct (resetPassword_cases env email s)
      as [(e & w & ->)|(su & i & h & _ & _ & _ & _ & ->)]; cbn [snd];
      auth_fields; [exact Hs|].
    now apply unique_accounts_update.
Qed.

(** X21: no two accounts share an email or a username. Whatever calls are
    made to the service, with whatever the platform answers (failing
    storage and hashing included), when the stored accounts have pairwise
    different emails and pairwise different usernames, they still have
    afterwards. *)
Theorem X21_accounts_stay_unique (calls : list AuthCall) (s : Auth.State) :
  Auth.unique_accounts (Auth.stored s) ->
  Auth.unique_accounts (Auth.stored (performAll calls s)).
Proof.
  unfold performAll. revert s. induction calls as [|call calls IH]; intros s Hs; simpl.
  - exact Hs.
  - apply IH. now apply perform_unique.
Qed.

Lemma X21_accounts_stay_unique_witness :
  Auth.unique_accounts
    (Auth.stored
       (performAll
          [CallRegister (Auth.envAt 1700000000000) (str "alice@example.com") (str "alice")
             (str "correct horse");
           CallRegister (Auth.envAt 1700000005000) (str "bob@example.com") (str "alice")
             (str "battery staple");
           CallRegister (Auth.envAt 1700000006000) (str "bob@example.com") (str "bob")
             (str "battery staple");
           CallResetPassword (Auth.envAt 1700000007000) (str "alice@example.com");
           CallRegister (Auth.envAt 1700000008000) (str "alice@example.com") (str "alice2")
             (str "another")]
          Auth.initialState))
  /\ map Auth.StoredUser.username
       (Auth.stored
          (performAll
             [CallRegister (Auth.envAt 1700000000000) (str "alice@example.com") (str "alice")
                (str "correct horse");
              CallRegister (Auth.envAt 1700000005000) (str "bob@example.com") (str "alice")
                (str "battery staple");
              CallRegister (Auth.envAt 1700000006000) (str "bob@example.com") (str "bob")
                (str "battery staple");
              CallResetPassword (Auth.envAt 1700000007000) (str "alice@example.com");
              CallRegister (Auth.envAt 1700000008000) (str "alice@example.com") (str "alice2")
                (str "another")]
             Auth.initialState))
     = [str "alice"; str "bob"].
Proof.
  split.
  - apply X21_accounts_stay_unique. apply unique_accounts_nil.
  - vm_compute. reflexivity.
Defined.

(** X22: [register] on accounts that cannot be read. When the item 'users'
    cannot be read while it can be written, [getStoredUsers] answers with no
    account, so [register] accepts any email and username and writes the new
    account as the only one: every account stored before is overwritten. *)
Theorem X22_unreadable_accounts_are_overwritten (env : Auth.Env)
  (email username password h : jsstring) (e : JsError) (s : Auth.State) :
  Auth.getItem_fault env Auth.USERS = Some e ->
  (forall k, Auth.setItem_fault env k = None) ->
  Auth.digestStringAsync env password = Return h ->
  Auth.outcome (Auth.register env email username password) s
  = Return (Auth.account (newAccount env email username h))
  /\ Auth.users_item (Auth.next (Auth.register env email username password) s)
     = Some [newAccount env email username h].
Proof.
  intros Hget Hset Hd.
  assert (Hread : readable env s = []) by (unfold readable; now rewrite Hget).
  destruct (register_run env email username password h s) as (w & Hrun & _);
    [now rewrite Hread|exact Hd|exact Hset|].
  unfold Auth.outcome, Auth.next. rewrite Hrun, Hread. split; reflexivity.
Qed.

Lemma X22_unreadable_accounts_are_overwritten_witness :
  map Auth.StoredUser.email (Auth.stored Auth.bobRegistered)
  = [str "alice@example.com"; str "bob@example.com"]
  /\ option_map (map Auth.StoredUser.email)
       (Auth.users_item
          (Auth.next (Auth.register (Auth.envUnreadable 1700000009000) (str "bob@example.com")
                        (str "robert") (str "hunter2")) Auth.bobRegistered))
     = Some [str "bob@example.com"].
Proof.
  split; [vm_compute; reflexivity|].
  let h := eval vm_compute in (digestStringAsync_SHA256 (str "hunter2")) in
  match h with
  | Return ?digest =>
      destruct (X22_unreadable_accounts_are_overwritten (Auth.envUnreadable 1700000009000)
                  (str "bob@example.com") (str "robert") (str "hunter2") digest
                  Auth.storageDown Auth.bobRegistered) as [_ Husers]
  end.
  - reflexivity.
  - reflexivity.
  - vm_compute. reflexivity.
  - rewrite Husers. reflexivity.
Defined.

Lemma createSession_returns (env : Auth.Env) (user : Auth.User.t) (s : Auth.State) :
  fst (Auth.createSession env user s) = Return tt ->
  Auth.setItem_fault env Auth.SESSION_STORAGE_KEY = None
  /\ Auth.setItem_fault env Auth.USER_STORAGE_KEY = None.
Proof.
  unfold Auth.createSession, Auth.andThen, Auth.setItem_session, Auth.setItem_user,
    Auth.request.
  destruct (Auth.setItem_fault env Auth.SESSION_STORAGE_KEY); [discriminate|].
  cbn [fst snd].
  destruct (Auth.setItem_fault env Auth.USER_STORAGE_KEY); [discriminate|]. auto.
Qed.

(** The state that a successful [login] leaves. *)
Lemma login_returns (env : Auth.Env) (email password : jsstring) (s : Auth.State)
  (user : Auth.User.t) :
  Auth.outcome (Auth.login env email password) s = Return user ->
  exists w,
    Auth.next (Auth.login env email password) s
    = Auth.mkState w (Some user) true (Auth.users_item s)
        (Some (Auth.Session.mk (Auth.User.id user)
                 (Auth.session_Date_now env + Auth.sessionLifetime)))
        (Some user).
Proof.
  destruct (getStoredUsers_run env s) as (w & Hrun & _).
  unfold Auth.outcome, Auth.next.
  remember (Auth.login env email password s) as r eqn:Hr.
  unfold Auth.login, Auth.attempt in Hr. unfold Auth.andThen at 1 in Hr. rewrite Hrun in Hr.
  destruct (find _ (readable env s)) as [su|] eqn:Hfind.
  2: { change (Auth.raise ?e ?s0) with (@Throw Auth.User.t e, s0) in Hr. cbv iota in Hr.
       rewrite rethrown in Hr. subst r. discriminate. }
  unfold Auth.andThen at 1 in Hr.
  match type of Hr with
  | context [Auth.lift (verifyPassword ?d ?p ?hash) ?st] =>
      destruct (lift_verifyPassword d p hash st) as (w1 & Hv & _)
  end.
  rewrite Hv in Hr. auth_fields.
  destruct (match Auth.digestStringAsync env password with
            | Return digest => streq digest (Auth.StoredUser.password su)
            | Throw _ => false
            end).
  2: { cbn [negb] in Hr. cbv iota in Hr.
       change (Auth.raise ?e ?s0) with (@Throw Auth.User.t e, s0) in Hr. cbv iota in Hr.
       rewrite rethrown in Hr. subst r. discriminate. }
  cbn [negb] in Hr. cbv iota in Hr. unfold Auth.andThen at 1 in Hr.
  match type of Hr with
  | context [Auth.createSession env ?u ?st] =>
      destruct (Auth.createSession env u st) as [[[]|e] s2] eqn:Hsession
  end.
  - assert (Hok : fst (Auth.createSession env
                         (Auth.User.mk (Auth.StoredUser.id su) (Auth.StoredUser.email su)
                            (Auth.StoredUser.username su) (Auth.StoredUser.createdAt su)
                            (Auth.StoredUser.updatedAt su))
                         (Auth.mkState w1 (Auth.currentUser s) (Auth.isAuthenticated s)
                            (Auth.users_item s) (Auth.session_item s) (Auth.user_item s)))
                  = Return tt) by now rewrite Hsession.
    apply createSession_returns in Hok as [H1 H2].
    rewrite (createSession_run env _ _ H1 H2) in Hsession. injection Hsession as <-.
    subst r. cbn. intros H. injection H as <-. exists w1. reflexivity.
  - rewrite rethrown in Hr. subst r. discriminate.
Qed.

(** X23: a session lasts seven days. After a [login] that returned a user,
    a restarted application whose storage answers signs that user in again
    on [initialize] when less than 604800000 ms have passed since the login;
    from that instant on it signs nobody in and removes the session and the
    stored user. *)
Theorem X23_session_lasts_seven_days (env1 env2 : Auth.Env) (email password : jsstring)
  (s : Auth.State) (user : Auth.User.t) :
  Auth.storageWorks env2 ->
  Auth.outcome (Auth.login env1 email password) s = Return user ->
  ((Auth.session_Date_now env2 < Auth.session_Date_now env1 + 604800000)%N ->
   Auth.getCurrentUser
     (Auth.next (Auth.initialize env2)
        (Auth.restarted (Auth.next (Auth.login env1 email password) s))) = Some user
   /\ Auth.isUserAuthenticated
        (Auth.next (Auth.initialize env2)
           (Auth.restarted (Auth.next (Auth.login env1 email password) s))) = true)
  /\ ((Auth.session_Date_now env1 + 604800000 <= Auth.session_Date_now env2)%N ->
      Auth.next (Auth.initialize env2)
        (Auth.restarted (Auth.next (Auth.login env1 email password) s))
      = Auth.mkState (Auth.world (Auth.next (Auth.login env1 email password) s))
          None false (Auth.users_item s) None None).
Proof.
  intros Hs2 Hlogin.
  destruct (login_returns env1 email password s user Hlogin) as (w & ->).
  unfold Auth.restarted. auth_fields.
  unfold Auth.getCurrentUser, Auth.isUserAuthenticated, Auth.next, Auth.initialize,
    Auth.attempt, Auth.andThen, Auth.getItem_session, Auth.getItem_user, Auth.clearSession,
    Auth.removeItem_session, Auth.removeItem_user, Auth.request.
  destruct (Hs2 Auth.SESSION_STORAGE_KEY) as (-> & _ & ->).
  destruct (Hs2 Auth.USER_STORAGE_KEY) as (-> & _ & ->).
  cbn [fst snd Auth.session_item Auth.Session.expiresAt].
  change Auth.sessionLifetime with 604800000%N.
  split; intros Htime.
  - apply N.ltb_lt in Htime. rewrite Htime. cbn. auto.
  - apply N.ltb_ge in Htime. rewrite Htime. cbn. reflexivity.
Qed.

Lemma X23_session_lasts_seven_days_witness :
  Auth.isUserAuthenticated
    (Auth.next (Auth.initialize (Auth.envAt 1700604799999))
       (Auth.restarted
          (Auth.next (Auth.login (Auth.envAt 1700000000000) (str "bob@example.com")
                        (str "battery staple")) Auth.bobRegistered))) = true
  /\ Auth.isUserAuthenticated
       (Auth.next (Auth.initialize (Auth.envAt 1700604800000))
          (Auth.restarted
             (Auth.next (Auth.login (Auth.envAt 1700000000000) (str "bob@example.com")
                           (str "battery staple")) Auth.bobRegistered))) = false.
Proof.
  let r := eval vm_compute in
             (Auth.outcome (Auth.login (Auth.envAt 1700000000000) (str "bob@example.com")
                              (str "battery staple")) Auth.bobRegistered) in
  match r with
  | Return ?user =>
      pose proof (X23_session_lasts_seven_days (Auth.envAt 1700000000000)
                    (Auth.envAt 1700604799999) (str "bob@example.com") (str "battery staple")
                    Auth.bobRegistered user) as Hbefore;
      pose proof (X23_session_lasts_seven_days (Auth.envAt 1700000000000)
                    (Auth.envAt 1700604800000) (str "bob@example.com") (str "battery staple")
                    Auth.bobRegistered user) as Hafter
  end.
  split.
  - apply Hbefore; [intro; auto|vm_compute; reflexivity|reflexivity].
  - destruct Hafter as [_ Hafter]; [intro; auto|vm_compute; reflexivity|].
    rewrite Hafter; [reflexivity|]. cbn. lia.
Defined.

(** X24: [changePassword] replaces a hash only after checking the current
    password. When it returns, somebody is signed in, the first stored
    account with that user's id had the digest of [currentPassword] as its
    stored password, and that record (no other) now carries the digest of
    [newPassword]. When it throws, the stored accounts are as before. In
    both cases the signed-in user and the session are untouched. *)
Theorem X24_changePassword_checks_current (env : Auth.Env)
  (currentPassword newPassword : jsstring) (s : Auth.State) :
  (Auth.outcome (Auth.changePassword env currentPassword newPassword) s = Return tt ->
   exists current i su h,
     Auth.currentUser s = Some current
     /\ Auth.findIndex (fun user => streq (Auth.StoredUser.id user) (Auth.User.id current))
                       (readable env s) = Some i
     /\ nth_error (readable env s) i = Some su
     /\ Auth.digestStringAsync env currentPassword = Return (Auth.StoredUser.password su)
     /\ Auth.digestStringAsync env newPassword = Return h
     /\ (forall j,
           nth_error (Auth.stored (Auth.next (Auth.changePassword env currentPassword
                                                newPassword) s)) j
           = if Nat.eqb i j then Some (rehashed env h su) else nth_error (readable env s) j))
  /\ (forall e,
         Auth.outcome (Auth.changePassword env currentPassword newPassword) s = Throw e ->
         Auth.users_item (Auth.next (Auth.changePassword env currentPassword newPassword) s)
         = Auth.users_item s)
  /\ Auth.currentUser (Auth.next (Auth.changePassword env currentPassword newPassword) s)
     = Auth.currentUser s
  /\ Auth.session_item (Auth.next (Auth.changePassword env currentPassword newPassword) s)
     = Auth.session_item s.
Proof.
  unfold Auth.outcome, Auth.next.
  destruct (changePassword_cases env currentPassword newPassword s)
    as [(e & w & ->)|(current & i & su & h & w & Hc & Hi & Hn & Hd & Hh & ->)];
    cbn [fst snd]; auth_fields.
  - split; [discriminate|]. split; [reflexivity|]. split; reflexivity.
  - split; [|split; [discriminate|split; reflexivity]].
    intros _. exists current, i, su, h. repeat (split; [assumption|]).
    intros j. unfold Auth.stored. auth_fields. rewrite nth_error_update.
    destruct (Nat.eqb i j) eqn:E; [|reflexivity].
    apply Nat.eqb_eq in E. subst j. now rewrite Hn.
Qed.

Lemma X24_changePassword_checks_current_witness :
  Auth.outcome (Auth.changePassword (Auth.envAt 1700000010000) (str "battery staple")
                  (str "new secret")) Auth.bobRegistered = Return tt
  /\ Auth.users_item
       (Auth.next (Auth.changePassword (Auth.envAt 1700000010000) (str "wrong")
                     (str "new secret")) Auth.bobRegistered)
     = Auth.users_item Auth.bobRegistered
  /\ Auth.outcome (Auth.login (Auth.envAt 1700000020000) (str "bob@example.com")
                     (str "battery staple"))
       (Auth.next (Auth.changePassword (Auth.envAt 1700000010000) (str "battery staple")
                     (str "new secret")) Auth.bobRegistered)
     = Throw (Error (str "Invalid email or password") None)
  /\ exists user,
       Auth.outcome (Auth.login (Auth.envAt 1700000020000) (str "bob@example.com")
                       (str "new secret"))
         (Auth.next (Auth.changePassword (Auth.envAt 1700000010000) (str "battery staple")
                       (str "new secret")) Auth.bobRegistered)
       = Return user
       /\ Auth.User.username user = str "bob".
Proof.
  split; [vm_compute; reflexivity|]. split; [|split].
  - destruct (X24_changePassword_checks_current (Auth.envAt 1700000010000) (str "wrong")
                (str "new secret") Auth.bobRegistered) as (_ & Hthrow & _).
    apply (Hthrow (Error (str "Current password is incorrect") None)).
    vm_compute. reflexivity.
  - vm_compute. reflexivity.
  - eexists. split; vm_compute; reflexivity.
Defined.

(** X25: [resetPassword] needs no signed-in user. For the email of a stored
    account, on a store that answers, it succeeds: the first stored account
    with that account's id gets the digest of a freshly generated password,
    the signed-in user is unchanged, and the new password is written in
    clear to the console (and nowhere else). *)
Theorem X25_resetPassword_logs_the_password (env : Auth.Env) (email h : jsstring)
  (s : Auth.State) (su : Auth.StoredUser.t) :
  Auth.getItem_fault env Auth.USERS = None ->
  Auth.setItem_fault env Auth.USERS = None ->
  find (fun u => streq (Auth.StoredUser.email u) email) (Auth.stored s) = Some su ->
  Auth.digestStringAsync env (generatedPassword (Auth.passwordRandomBytes env)) = Return h ->
  exists i,
    Auth.findIndex (fun u => streq (Auth.StoredUser.id u) (Auth.StoredUser.id su))
                   (Auth.stored s) = Some i
    /\ Auth.outcome (Auth.resetPassword env email) s = Return tt
    /\ Auth.users_item (Auth.next (Auth.resetPassword env email) s)
       = Some (Auth.update i (rehashed env h) (Auth.stored s))
    /\ console (Auth.world (Auth.next (Auth.resetPassword env email) s))
       = console (Auth.world s)
         ++ [ConsoleLog (str "New password generated: "
                         ++ generatedPassword (Auth.passwordRandomBytes env))]
    /\ Auth.currentUser (Auth.next (Auth.resetPassword env email) s) = Auth.currentUser s
    /\ Auth.isAuthenticated (Auth.next (Auth.resetPassword env email) s)
       = Auth.isAuthenticated s.
Proof.
  intros Hget Hset Hfind Hd.
  destruct (find_some _ _ Hfind) as [Hin _].
  destruct (findIndex_In _ (fun u => streq (Auth.StoredUser.id u) (Auth.StoredUser.id su))
              (Auth.stored s) su Hin (streq_refl _)) as [i Hi].
  exists i. split; [exact Hi|].
  destruct (getStoredUsers_run env s) as (w & Hrun & Hw).
  rewrite (Hw Hget), state_eta in Hrun. unfold readable in Hrun. rewrite Hget in Hrun.
  assert (Hreset : Auth.resetPassword env email s
                   = (Return tt,
                      Auth.mkState
                        (mkWorld (wallets (Auth.world s)) (encryptionKey (Auth.world s))
                           (console (Auth.world s)
                            ++ [ConsoleLog (str "New password generated: "
                                            ++ generatedPassword
                                                 (Auth.passwordRandomBytes env))])
                           (network (Auth.world s)))
                        (Auth.currentUser s) (Auth.isAuthenticated s)
                        (Some (Auth.update i (rehashed env h) (Auth.stored s)))
                        (Auth.session_item s) (Auth.user_item s))).
  { unfold Auth.resetPassword, Auth.attempt. unfold Auth.andThen at 1. rewrite Hrun, Hfind.
    unfold Auth.andThen at 1. rewrite lift_generateSecurePassword.
    unfold Auth.andThen at 1. rewrite (lift_hashPassword _ _ h _ Hd). rewrite Hi.
    unfold Auth.andThen at 1, Auth.setItem_users, Auth.request. rewrite Hset.
    reflexivity. }
  unfold Auth.outcome, Auth.next. rewrite Hreset. cbn [fst snd]. auth_fields.
  cbn [console]. auto 10.
Qed.

Lemma X25_resetPassword_logs_the_password_witness :
  Auth.outcome (Auth.resetPassword (Auth.envAt 1700000030000) (str "alice@example.com"))
    (Auth.restarted Auth.bobRegistered) = Return tt
  /\ console
       (Auth.world
          (Auth.next (Auth.resetPassword (Auth.envAt 1700000030000) (str "alice@example.com"))
             (Auth.restarted Auth.bobRegistered)))
     = [ConsoleLog (str "New password generated: 89!@#$%^&*ABCDEF")]
  /\ Auth.outcome (Auth.login (Auth.envAt 1700000040000) (str "alice@example.com")
                     (str "correct horse"))
       (Auth.next (Auth.resetPassword (Auth.envAt 1700000030000) (str "alice@example.com"))
          (Auth.restarted Auth.bobRegistered))
     = Throw (Error (str "Invalid email or password") None)
  /\ exists user,
       Auth.outcome (Auth.login (Auth.envAt 1700000040000) (str "alice@example.com")
                       (str "89!@#$%^&*ABCDEF"))
         (Auth.next (Auth.resetPassword (Auth.envAt 1700000030000) (str "alice@example.com"))
            (Auth.restarted Auth.bobRegistered))
       = Return user
       /\ Auth.User.username user = str "alice".
Proof.
  let f := eval vm_compute in
             (find (fun u => streq (Auth.StoredUser.email u) (str "alice@example.com"))
                   (Auth.stored (Auth.restarted Auth.bobRegistered))) in
  let d := eval vm_compute in
             (digestStringAsync_SHA256
                (generatedPassword (Auth.passwordRandomBytes (Auth.envAt 1700000030000)))) in
  match f with
  | Some ?su =>
      match d with
      | Return ?h =>
          destruct (X25_resetPassword_logs_the_password (Auth.envAt 1700000030000)
                      (str "alice@example.com") h (Auth.restarted Auth.bobRegistered) su)
            as (i & _ & Hres & _ & Hconsole & _)
      end
  end.
  - reflexivity.
  - reflexivity.
  - vm_compute. reflexivity.
  - vm_compute. reflexivity.
  - split; [exact Hres|]. split; [rewrite Hconsole; vm_compute; reflexivity|].
    split; [vm_compute; reflexivity|].
    eexists. split; vm_compute; reflexivity.
Defined.

(** X26: a registration that fails half-way. When the account is written
    but the session cannot be, [register] throws the storage error and signs
    nobody in, yet the account stays stored: registering again with that
    email, or that username, is refused as a duplicate. *)
Theorem X26_register_fails_after_storing (env : Auth.Env)
  (email username password h : jsstring) (e : JsError) (s : Auth.State) :
  find (fun user => streq (Auth.StoredUser.email user) email
                    || streq (Auth.StoredUser.username user) username)
       (readable env s) = None ->
  Auth.digestStringAsync env password = Return h ->
  Auth.setItem_fault env Auth.USERS = None ->
  Auth.setItem_fault env Auth.SESSION_STORAGE_KEY = Some e ->
  Auth.outcome (Auth.register env email username password) s = Throw e
  /\ Auth.currentUser (Auth.next (Auth.register env email username password) s)
     = Auth.currentUser s
  /\ Auth.isAuthenticated (Auth.next (Auth.register env email username password) s)
     = Auth.isAuthenticated s
  /\ Auth.session_item (Auth.next (Auth.register env email username password) s)
     = Auth.session_item s
  /\ Auth.users_item (Auth.next (Auth.register env email username password) s)
     = Some (readable env s ++ [newAccount env email username h])
  /\ (forall env' email' username' password',
         Auth.getItem_fault env' Auth.USERS = None ->
         email' = email \/ username' = username ->
         Auth.outcome (Auth.register env' email' username' password')
           (Auth.next (Auth.register env email username password) s)
         = Throw (Error (str "User with this email or username already exists") None)).
Proof.
  intros Hfind Hd Hset Hsession.
  destruct (getStoredUsers_run env s) as (w & Hrun & _).
  assert (Hreg : Auth.register env email username password s
                 = (Throw e,
                    Auth.mkState
                      (mkWorld (wallets w) (encryptionKey w)
                         (console w ++ [ConsoleError (str "Registration failed:") e])
                         (network w))
                      (Auth.currentUser s) (Auth.isAuthenticated s)
                      (Some (readable env s ++ [newAccount env email username h]))
                      (Auth.session_item s) (Auth.user_item s))).
  { unfold Auth.register, Auth.attempt. unfold Auth.andThen at 1. rewrite Hrun, Hfind.
    unfold Auth.andThen at 1. rewrite (lift_hashPassword _ _ h _ Hd).
    unfold Auth.andThen at 1, Auth.setItem_users, Auth.request. rewrite Hset.
    cbn [fst snd]. unfold Auth.andThen at 1, Auth.createSession.
    unfold Auth.andThen at 1, Auth.setItem_session, Auth.request. rewrite Hsession.
    rewrite rethrown. reflexivity. }
  unfold Auth.outcome, Auth.next. rewrite Hreg. cbn [fst snd]. auth_fields.
  repeat (split; [reflexivity|]).
  intros env' email' username' password' Hget' Hsame.
  set (s1 := Auth.mkState _ _ _ _ _ _).
  destruct (getStoredUsers_run env' s1) as (w' & Hrun' & _).
  unfold Auth.register, Auth.attempt. unfold Auth.andThen at 1. rewrite Hrun'.
  unfold readable. rewrite Hget'. unfold Auth.stored. subst s1. auth_fields.
  rewrite find_app.
  destruct (find (fun user => streq (Auth.StoredUser.email user) email'
                              || streq (Auth.StoredUser.username user) username')
                 (readable env s)) as [existing|].
  - change (Auth.raise ?e ?s0) with (@Throw Auth.User.t e, s0). cbv iota.
    now rewrite rethrown.
  - cbn [find newAccount Auth.StoredUser.email Auth.StoredUser.username].
    assert (Htest : streq email email' || streq username username' = true).
    { destruct Hsame as [->| ->]; rewrite streq_refl; [reflexivity|apply orb_true_r]. }
    rewrite Htest.
    change (Auth.raise ?e ?s0) with (@Throw Auth.User.t e, s0). cbv iota.
    now rewrite rethrown.
Qed.

Lemma X26_register_fails_after_storing_witness :
  Auth.outcome (Auth.register (Auth.envSessionUnwritable 1700000050000)
                  (str "carol@example.com") (str "carol") (str "hunter2")) Auth.bobRegistered
  = Throw Auth.storageDown
  /\ map Auth.StoredUser.email
       (Auth.stored
          (Auth.next (Auth.register (Auth.envSessionUnwritable 1700000050000)
                        (str "carol@example.com") (str "carol") (str "hunter2"))
             Auth.bobRegistered))
     = [str "alice@example.com"; str "bob@example.com"; str "carol@example.com"]
  /\ Auth.outcome (Auth.register (Auth.envAt 1700000060000)
                     (str "carol@example.com") (str "carol") (str "hunter2"))
       (Auth.next (Auth.register (Auth.envSessionUnwritable 1700000050000)
                     (str "carol@example.com") (str "carol") (str "hunter2"))
          Auth.bobRegistered)
     = Throw (Error (str "User with this email or username already exists") None).
Proof.
  let d := eval vm_compute in (digestStringAsync_SHA256 (str "hunter2")) in
  match d with
  | Return ?h =>
      destruct (X26_register_fails_after_storing (Auth.envSessionUnwritable 1700000050000)
                  (str "carol@example.com") (str "carol") (str "hunter2") h
                  Auth.storageDown Auth.bobRegistered)
        as (Hthrow & _ & _ & _ & Husers & Hagain)
  end.
  - vm_compute. reflexivity.
  - vm_compute. reflexivity.
  - reflexivity.
  - reflexivity.
  - split; [exact Hthrow|]. split.
    + unfold Auth.stored. rewrite Husers. vm_compute. reflexivity.
    + apply Hagain; [reflexivity|now left].
Defined.

(** X27: [logout]. On a store that answers, nobody is signed in afterwards,
    the session and the stored user are removed, and a restarted application
    signs nobody in. When the session cannot be removed, [logout] throws the
    storage error and the user stays signed in, with the session in place. *)
Theorem X27_logout (env : Auth.Env) (s : Auth.State) :
  (Auth.removeItem_fault env Auth.SESSION_STORAGE_KEY = None ->
   Auth.removeItem_fault env Auth.USER_STORAGE_KEY = None ->
   Auth.logout env s
   = (Return tt, Auth.mkState (Auth.world s) None false (Auth.users_item s) None None)
   /\ forall env',
        Auth.getItem_fault env' Auth.SESSION_STORAGE_KEY = None ->
        Auth.getCurrentUser
          (Auth.next (Auth.initialize env') (Auth.restarted (Auth.next (Auth.logout env) s)))
        = None)
  /\ (forall e,
         Auth.removeItem_fault env Auth.SESSION_STORAGE_KEY = Some e ->
         Auth.outcome (Auth.logout env) s = Throw e
         /\ unchanged_but_console s (Auth.next (Auth.logout env) s)).
Proof.
  split.
  - intros H1 H2.
    assert (Hrun : Auth.logout env s
                   = (Return tt,
                      Auth.mkState (Auth.world s) None false (Auth.users_item s) None None)).
    { unfold Auth.logout, Auth.attempt, Auth.andThen, Auth.clearSession,
        Auth.removeItem_session, Auth.removeItem_user, Auth.request.
      rewrite H1, H2. reflexivity. }
    split; [exact Hrun|].
    intros env' Hget. unfold Auth.next at 2. rewrite Hrun. cbn [snd].
    unfold Auth.getCurrentUser, Auth.next, Auth.initialize, Auth.attempt, Auth.andThen,
      Auth.getItem_session, Auth.request.
    rewrite Hget. reflexivity.
  - intros e Hfault.
    assert (Hrun : Auth.logout env s
                   = (Throw e,
                      Auth.mkState
                        (mkWorld (wallets (Auth.world s)) (encryptionKey (Auth.world s))
                           (console (Auth.world s)
                            ++ [ConsoleError (str "Logout failed:") e])
                           (network (Auth.world s)))
                        (Auth.currentUser s) (Auth.isAuthenticated s)
                        (Auth.users_item s) (Auth.session_item s) (Auth.user_item s))).
    { unfold Auth.logout, Auth.attempt. unfold Auth.andThen at 1, Auth.clearSession.
      unfold Auth.andThen at 1, Auth.removeItem_session, Auth.request.
      rewrite Hfault. now rewrite rethrown. }
    unfold Auth.outcome, Auth.next. rewrite Hrun. cbn [fst snd].
    split; [reflexivity|]. repeat split.
Qed.

Lemma X27_logout_witness :
  Auth.getCurrentUser (Auth.next (Auth.logout (Auth.envAt 1700000070000)) Auth.bobRegistered)
  = None
  /\ Auth.outcome (Auth.logout (Auth.envUnremovable 1700000070000)) Auth.bobRegistered
     = Throw Auth.storageDown
  /\ Auth.isUserAuthenticated
       (Auth.next (Auth.logout (Auth.envUnremovable 1700000070000)) Auth.bobRegistered)
     = true.
Proof.
  destruct (X27_logout (Auth.envAt 1700000070000) Auth.bobRegistered) as [Hok _].
  destruct (Hok eq_refl eq_refl) as [Hrun _].
  destruct (X27_logout (Auth.envUnremovable 1700000070000) Auth.bobRegistered) as [_ Hfail].
  destruct (Hfail Auth.storageDown eq_refl) as (Hthrow & _ & Hauth & _).
  split; [unfold Auth.next; now rewrite Hrun|]. split; [exact Hthrow|].
  unfold Auth.isUserAuthenticated. rewrite Hauth. vm_compute. reflexivity.
Defined.

(** ** SwapService *)

Lemma swap_rethrown (B : Type) (label : jsstring) (e e' : JsError) (s : Swap.State) :
  Swap.andThen (Swap.lift (console_error label e)) (fun _ => @Swap.raise B e') s
  = (Throw e',
     Swap.mkState
       (mkWorld (wallets (Swap.world s)) (encryptionKey (Swap.world s))
                (console (Swap.world s) ++ [ConsoleError label e]) (network (Swap.world s)))
       (Swap.swapTransactions s)).
Proof. reflexivity. Qed.

Lemma swap_state_eta (s : Swap.State) :
  Swap.mkState (Swap.world s) (Swap.swapTransactions s) = s.
Proof. now destruct s. Qed.

(** X28: the guards of [executeSwap] come first. When one of the two wallet
    ids is unknown, or the two wallets belong to different users, the call
    throws the generic Error('Failed to execute swap'), records no swap,
    leaves every wallet as it was and sends no request: the balance is not
    even refreshed. *)
Theorem X28_swap_guards (env : Swap.Env) (fromWalletId toWalletId : jsstring)
  (fromAmount toAmount : Q) (s : Swap.State) :
  getWallet fromWalletId (Swap.world s) = None
  \/ getWallet toWalletId (Swap.world s) = None
  \/ (exists fromWallet toWallet,
         getWallet fromWalletId (Swap.world s) = Some fromWallet
         /\ getWallet toWalletId (Swap.world s) = Some toWallet
         /\ Wallet.userId fromWallet <> Wallet.userId toWallet) ->
  Swap.outcome (Swap.executeSwap env fromWalletId toWalletId fromAmount toAmount) s
  = Throw (Error (str "Failed to execute swap") None)
  /\ Swap.swapTransactions
       (Swap.next (Swap.executeSwap env fromWalletId toWalletId fromAmount toAmount) s)
     = Swap.swapTransactions s
  /\ registry (Swap.world
                 (Swap.next (Swap.executeSwap env fromWalletId toWalletId fromAmount toAmount)
                    s))
     = registry (Swap.world s)
  /\ network (Swap.world
                (Swap.next (Swap.executeSwap env fromWalletId toWalletId fromAmount toAmount)
                   s))
     = network (Swap.world s).
Proof.
  intros Hguard.
  assert (Hrun : exists cause,
             Swap.executeSwap env fromWalletId toWalletId fromAmount toAmount s
             = (Throw (Error (str "Failed to execute swap") None),
                Swap.mkState
                  (mkWorld (wallets (Swap.world s)) (encryptionKey (Swap.world s))
                     (console (Swap.world s)
                      ++ [ConsoleError (str "Failed to execute swap:") cause])
                     (network (Swap.world s)))
                  (Swap.swapTransactions s))).
  { unfold Swap.executeSwap, Swap.attempt. unfold Swap.andThen at 1, Swap.get.
    destruct Hguard as [Hfrom|[Hto|(fw & tw & Hfrom & Hto & Hdiff)]].
    - rewrite Hfrom. eexists. change (Swap.raise ?e ?s0) with (@Throw Swap.SwapTransaction.t e, s0).
      cbv iota. now rewrite swap_rethrown.
    - rewrite Hto. destruct (getWallet fromWalletId (Swap.world s)); eexists;
        change (Swap.raise ?e ?s0) with (@Throw Swap.SwapTransaction.t e, s0);
        cbv iota; now rewrite swap_rethrown.
    - rewrite Hfrom, Hto.
      assert (Hne : streq (Wallet.userId fw) (Wallet.userId tw) = false)
        by now apply streq_neq.
      rewrite Hne. cbn [negb]. cbv iota. eexists.
      change (Swap.raise ?e ?s0) with (@Throw Swap.SwapTransaction.t e, s0).
      cbv iota. now rewrite swap_rethrown. }
  destruct Hrun as [cause Hrun].
  unfold Swap.outcome, Swap.next. rewrite Hrun. cbn. auto.
Qed.

Lemma X28_swap_guards_witness :
  Swap.outcome (Swap.executeSwap (Swap.envWith balanceEnvOnline (1 # 2)) ethWalletId
                  otherWalletId (1 # 2)%Q 100%Q)
    (Swap.mkState worldTwoUsers [])
  = Throw (Error (str "Failed to execute swap") None)
  /\ network (Swap.world
                (Swap.next (Swap.executeSwap (Swap.envWith balanceEnvOnline (1 # 2))
                              ethWalletId otherWalletId (1 # 2)%Q 100%Q)
                   (Swap.mkState worldTwoUsers [])))
     = [].
Proof.
  destruct (X28_swap_guards (Swap.envWith balanceEnvOnline (1 # 2)) ethWalletId otherWalletId
              (1 # 2)%Q 100%Q (Swap.mkState worldTwoUsers []))
    as (Hthrow & _ & _ & Hnet).
  - right. right.
    let f := eval vm_compute in (getWallet ethWalletId worldTwoUsers) in
    let t := eval vm_compute in (getWallet otherWalletId worldTwoUsers) in
    match f with
    | Some ?fw => match t with Some ?tw => exists fw, tw end
    end.
    split; [vm_compute; reflexivity|]. split; [vm_compute; reflexivity|]. discriminate.
  - split; [exact Hthrow|]. rewrite Hnet. reflexivity.
Defined.

(** The refresh that [executeSwap] asks of WalletService. *)
Lemma swap_getBalance_run (benv : BalanceEnv) (walletId : jsstring) (s : Swap.State)
  (wallet : Wallet) :
  getWallet walletId (Swap.world s) = Some wallet ->
  exists current w1,
    result (getBalance benv walletId) (Swap.world s) = Return current
    /\ wallets w1 = wallets (Swap.world s)
    /\ encryptionKey w1 = encryptionKey (Swap.world s)
    /\ Swap.lift (getBalance benv walletId) s
       = (Return current,
          Swap.mkState
            (mkWorld (JsMap.set walletId
                        (Wallet.set_updatedAt (balance_Date benv)
                           (Wallet.set_balance current wallet))
                        (wallets (Swap.world s)))
                     (encryptionKey (Swap.world s)) (console w1) (network w1))
            (Swap.swapTransactions s)).
Proof.
  unfold getWallet. intros Hget.
  destruct (queryBalance benv wallet (Swap.world s)) as [[current|e] w1] eqn:Hq.
  2: { destruct (queryBalance_never_throws benv wallet (Swap.world s)) as [b Hb].
       unfold result in Hb. rewrite Hq in Hb. discriminate. }
  pose proof (queryBalance_keeps_wallets benv wallet (Swap.world s)) as Hkw.
  pose proof (queryBalance_keeps_key benv wallet (Swap.world s)) as Hkk.
  rewrite Hq in Hkw, Hkk. cbn [snd] in Hkw, Hkk.
  exists current, w1. unfold result, Swap.lift.
  rewrite (getBalance_run benv walletId (Swap.world s) w1 wallet current Hget Hq).
  cbn [fst snd]. rewrite Hkw, Hkk. auto.
Qed.

(** X29: the balance that [executeSwap] checks is the one it has just asked
    the chain for. That refresh is recorded in the registry before the check;
    when the refreshed balance is less than [fromAmount] the call throws the
    generic error and records no swap, and the wallet keeps the refreshed
    balance. When the chain cannot be reached the refreshed balance is 0, so
    every swap of a positive amount is refused and the stored balance of the
    source wallet is left at 0. *)
Theorem X29_swap_checks_refreshed_balance (env : Swap.Env)
  (fromWalletId toWalletId : jsstring) (fromAmount toAmount current : Q) (s : Swap.State)
  (fromWallet toWallet : Wallet) :
  getWallet fromWalletId (Swap.world s) = Some fromWallet ->
  getWallet toWalletId (Swap.world s) = Some toWallet ->
  Wallet.userId fromWallet = Wallet.userId toWallet ->
  result (getBalance (Swap.balanceEnv env) fromWalletId) (Swap.world s) = Return current ->
  (current < fromAmount)%Q ->
  Swap.outcome (Swap.executeSwap env fromWalletId toWalletId fromAmount toAmount) s
  = Throw (Error (str "Failed to execute swap") None)
  /\ Swap.swapTransactions
       (Swap.next (Swap.executeSwap env fromWalletId toWalletId fromAmount toAmount) s)
     = Swap.swapTransactions s
  /\ getWallet fromWalletId
       (Swap.world
          (Swap.next (Swap.executeSwap env fromWalletId toWalletId fromAmount toAmount) s))
     = Some (Wallet.set_updatedAt (balance_Date (Swap.balanceEnv env))
               (Wallet.set_balance current fromWallet))
  /\ (chainQueryFails (Swap.balanceEnv env) fromWallet -> current = 0%Q).
Proof.
  intros Hfrom Hto Huser Hcurrent Hless.
  destruct (swap_getBalance_run (Swap.balanceEnv env) fromWalletId s fromWallet Hfrom)
    as (current' & w1 & Hres & Hkw & Hkk & Hlift).
  rewrite Hcurrent in Hres. injection Hres as <-.
  assert (Hrun : Swap.executeSwap env fromWalletId toWalletId fromAmount toAmount s
                 = (Throw (Error (str "Failed to execute swap") None),
                    Swap.mkState
                      (mkWorld (JsMap.set fromWalletId
                                  (Wallet.set_updatedAt (balance_Date (Swap.balanceEnv env))
                                     (Wallet.set_balance current fromWallet))
                                  (wallets (Swap.world s)))
                         (encryptionKey (Swap.world s))
                         (console w1
                          ++ [ConsoleError (str "Failed to execute swap:")
                                (Error (str "Insufficient balance") None)])
                         (network w1))
                      (Swap.swapTransactions s))).
  { unfold Swap.executeSwap, Swap.attempt. unfold Swap.andThen at 1, Swap.get.
    rewrite Hfrom, Hto, Huser, streq_refl. cbn [negb]. cbv iota.
    unfold Swap.andThen at 1. rewrite Hlift.
    rewrite (Qle_bool_false fromAmount current Hless). cbn [negb]. cbv iota.
    change (Swap.raise ?e ?s0) with (@Throw Swap.SwapTransaction.t e, s0). cbv iota.
    now rewrite swap_rethrown. }
  unfold Swap.outcome, Swap.next. rewrite Hrun. cbn [fst snd Swap.world Swap.swapTransactions].
  split; [reflexivity|]. split; [reflexivity|]. split.
  - unfold getWallet. cbn [wallets]. apply get_set_same.
  - intros Hfail.
    destruct (getBalance_found (Swap.balanceEnv env) fromWalletId (Swap.world s) fromWallet
                Hfrom) as (b & Hb & Hres & _).
    rewrite (queryBalance_failed _ _ _ Hfail) in Hb. rewrite Hcurrent in Hres. congruence.
Qed.

Lemma X29_swap_checks_refreshed_balance_witness :
  Swap.outcome (Swap.executeSwap (Swap.envWith balanceEnvOffline (1 # 2)) ethWalletId
                  solWalletId (1 # 1000)%Q 3%Q)
    (Swap.mkState worldEthFunded [])
  = Throw (Error (str "Failed to execute swap") None)
  /\ option_map Wallet.balance (getWallet ethWalletId worldEthFunded) = Some (3 # 2)%Q
  /\ option_map Wallet.balance
       (getWallet ethWalletId
          (Swap.world
             (Swap.next (Swap.executeSwap (Swap.envWith balanceEnvOffline (1 # 2)) ethWalletId
                           solWalletId (1 # 1000)%Q 3%Q)
                (Swap.mkState worldEthFunded []))))
     = Some 0%Q.
Proof.
  let f := eval vm_compute in (getWallet ethWalletId worldEthFunded) in
  let t := eval vm_compute in (getWallet solWalletId worldEthFunded) in
  match f with
  | Some ?fw =>
      match t with
      | Some ?tw =>
          destruct (X29_swap_checks_refreshed_balance (Swap.envWith balanceEnvOffline (1 # 2))
                      ethWalletId solWalletId (1 # 1000)%Q 3%Q 0%Q
                      (Swap.mkState worldEthFunded []) fw tw)
            as (Hthrow & _ & Hstored & _)
      end
  end.
  - vm_compute. reflexivity.
  - vm_compute. reflexivity.
  - reflexivity.
  - vm_compute. reflexivity.
  - reflexivity.
  - split; [exact Hthrow|]. split; [vm_compute; reflexivity|].
    rewrite Hstored. reflexivity.
Defined.

Lemma assign_balance_run (walletId : jsstring) (b : Wallet -> Q) (s : Swap.State)
  (wallet : Wallet) :
  getWallet walletId (Swap.world s) = Some wallet ->
  Swap.assign_balance walletId b s
  = (Return tt,
     Swap.mkState
       (mkWorld (JsMap.set walletId (Wallet.set_balance (b wallet) wallet)
                   (wallets (Swap.world s)))
                (encryptionKey (Swap.world s)) (console (Swap.world s))
                (network (Swap.world s)))
       (Swap.swapTransactions s)).
Proof.
  intros Hget. unfold Swap.assign_balance, Swap.andThen, Swap.get. now rewrite Hget.
Qed.

Lemma update_stored_run (now : N) (walletId : jsstring) (s : Swap.State) (wallet : Wallet) :
  getWallet walletId (Swap.world s) = Some wallet ->
  Wallet.id wallet = walletId ->
  Swap.update_stored now walletId s
  = (Return tt,
     Swap.mkState
       (mkWorld (JsMap.set walletId (Wallet.set_updatedAt now wallet)
                   (wallets (Swap.world s)))
                (encryptionKey (Swap.world s)) (console (Swap.world s))
                (network (Swap.world s)))
       (Swap.swapTransactions s)).
Proof.
  intros Hget Hid. unfold Swap.update_stored, Swap.andThen, Swap.get. rewrite Hget.
  unfold Swap.lift, updateWallet, wallets_set. cbn [fst snd Wallet.id Wallet.set_updatedAt].
  now rewrite Hid.
Qed.

Lemma get_set_other (V : Type) (k k' : jsstring) (v : V) (m : JsMap.t V) :
  k <> k' -> JsMap.get k' (JsMap.set k v m) = JsMap.get k' m.
Proof.
  intros Hne. rewrite get_set. destruct (streq k k') eqn:E; [|reflexivity].
  apply streq_eq in E. contradiction.
Qed.

(** X30: how a swap is settled. Between two different wallets of one user,
    with a refreshed balance that covers [fromAmount], [executeSwap] does not
    throw: it returns the swap, which is then found under its id. When the
    draw is above 0.1 the swap is completed: the source wallet holds the
    refreshed balance less [fromAmount] and the destination wallet its
    balance plus [toAmount], the amount passed by the caller, to which no
    exchange rate or fee is applied. Otherwise the swap is failed and the
    destination wallet is untouched. No other wallet changes in either case. *)
Theorem X30_swap_settlement (env : Swap.Env) (fromWalletId toWalletId : jsstring)
  (fromAmount toAmount current : Q) (s : Swap.State) (fromWallet toWallet : Wallet) :
  one_record_per_id (Swap.world s) ->
  fromWalletId <> toWalletId ->
  getWallet fromWalletId (Swap.world s) = Some fromWallet ->
  getWallet toWalletId (Swap.world s) = Some toWallet ->
  Wallet.userId fromWallet = Wallet.userId toWallet ->
  result (getBalance (Swap.balanceEnv env) fromWalletId) (Swap.world s) = Return current ->
  (fromAmount <= current)%Q ->
  exists swap,
    Swap.outcome (Swap.executeSwap env fromWalletId toWalletId fromAmount toAmount) s
    = Return swap
    /\ Swap.getSwapTransaction (Swap.SwapTransaction.id swap)
         (Swap.next (Swap.executeSwap env fromWalletId toWalletId fromAmount toAmount) s)
       = Some swap
    /\ Swap.SwapTransaction.id swap = str "swap_" ++ decimal (Swap.swap_Date_now env)
    /\ Swap.SwapTransaction.fromAmount swap = fromAmount
    /\ Swap.SwapTransaction.toAmount swap = toAmount
    /\ (if Qle_bool (Swap.Math_random env) (1 # 10)
        then
          Swap.SwapTransaction.status swap = Swap.FAILED
          /\ option_map Wallet.balance
               (getWallet fromWalletId
                  (Swap.world
                     (Swap.next (Swap.executeSwap env fromWalletId toWalletId fromAmount
                                   toAmount) s)))
             = Some current
          /\ getWallet toWalletId
               (Swap.world
                  (Swap.next (Swap.executeSwap env fromWalletId toWalletId fromAmount
                                toAmount) s))
             = Some toWallet
        else
          Swap.SwapTransaction.status swap = Swap.COMPLETED
          /\ option_map Wallet.balance
               (getWallet fromWalletId
                  (Swap.world
                     (Swap.next (Swap.executeSwap env fromWalletId toWalletId fromAmount
                                   toAmount) s)))
             = Some (current - fromAmount)%Q
          /\ option_map Wallet.balance
               (getWallet toWalletId
                  (Swap.world
                     (Swap.next (Swap.executeSwap env fromWalletId toWalletId fromAmount
                                   toAmount) s)))
             = Some (Wallet.balance toWallet + toAmount)%Q)
    /\ (forall other, other <> fromWalletId -> other <> toWalletId ->
          getWallet other
            (Swap.world
               (Swap.next (Swap.executeSwap env fromWalletId toWalletId fromAmount toAmount)
                  s))
          = getWallet other (Swap.world s)).
Proof.
  intros Hw Hne Hfrom Hto Huser Hcurrent Hle.
  pose proof (get_id _ _ _ Hw Hfrom) as Hfid.
  pose proof (get_id _ _ _ Hw Hto) as Htid.
  destruct (swap_getBalance_run (Swap.balanceEnv env) fromWalletId s fromWallet Hfrom)
    as (current' & w1 & Hres & Hkw & Hkk & Hlift).
  rewrite Hcurrent in Hres. injection Hres as <-.
  apply Qle_bool_iff in Hle.
  unfold Swap.outcome, Swap.next.
  remember (Swap.executeSwap env fromWalletId toWalletId fromAmount toAmount s) as r eqn:Hr.
  unfold Swap.executeSwap, Swap.attempt in Hr. unfold Swap.andThen at 1, Swap.get in Hr.
  rewrite Hfrom, Hto, Huser, streq_refl in Hr. cbn [negb] in Hr. cbv iota in Hr.
  unfold Swap.andThen at 1 in Hr. rewrite Hlift in Hr.
  rewrite Hle in Hr. cbn [negb] in Hr. cbv iota in Hr.
  unfold Swap.andThen at 1, Swap.swaps_set in Hr.
  cbn [Swap.world Swap.swapTransactions Swap.SwapTransaction.id] in Hr.
  unfold Swap.simulateSwapExecution, Swap.attempt in Hr.
  destruct (Qle_bool (Swap.Math_random env) (1 # 10)) eqn:Hdraw;
    cbn [negb] in Hr; cbv iota in Hr.
  - (* the swap fails *)
    unfold Swap.andThen, Swap.swaps_set, Swap.pure in Hr.
    cbn [Swap.world Swap.swapTransactions Swap.SwapTransaction.id
         Swap.SwapTransaction.set_status] in Hr.
    subst r. eexists. unfold Swap.getSwapTransaction.
    cbn [fst snd Swap.world Swap.swapTransactions Swap.SwapTransaction.id
         Swap.SwapTransaction.fromAmount Swap.SwapTransaction.toAmount
         Swap.SwapTransaction.status].
    split; [reflexivity|]. split; [apply get_set_same|].
    repeat (split; [reflexivity|]). split; [split; [reflexivity|split]|].
    + unfold getWallet. cbn [wallets]. now rewrite get_set_same.
    + unfold getWallet. cbn [wallets]. now rewrite (get_set_other _ _ _ _ _ Hne).
    + intros other H1 H2. unfold getWallet. cbn [wallets].
      apply get_set_other. congruence.
  - (* the swap completes *)
    unfold Swap.andThen at 1, Swap.get in Hr.
    cbn [Swap.world Swap.SwapTransaction.fromWalletId Swap.SwapTransaction.toWalletId
         Swap.SwapTransaction.set_txHash Swap.SwapTransaction.set_status
         Swap.SwapTransaction.fromAmount Swap.SwapTransaction.toAmount
         Swap.SwapTransaction.id] in Hr.
    set (from1 := Wallet.set_updatedAt (balance_Date (Swap.balanceEnv env))
                    (Wallet.set_balance current fromWallet)) in *.
    unfold getWallet in Hr at 1. cbn [wallets] in Hr. rewrite get_set_same in Hr.
    unfold getWallet in Hr at 1. cbn [wallets] in Hr.
    rewrite (get_set_other _ _ _ _ _ Hne) in Hr.
    change (JsMap.get toWalletId (wallets (Swap.world s)))
      with (getWallet toWalletId (Swap.world s)) in Hr.
    rewrite Hto in Hr.
    unfold Swap.andThen at 1 in Hr. unfold Swap.andThen at 1 in Hr.
    rewrite (assign_balance_run fromWalletId _ _ from1) in Hr
      by (unfold getWallet; cbn [Swap.world wallets]; apply get_set_same).
    cbn [Swap.world Swap.swapTransactions wallets encryptionKey console network] in Hr.
    unfold Swap.andThen at 1 in Hr.
    rewrite (assign_balance_run toWalletId _ _ toWallet) in Hr
      by (unfold getWallet; cbn [Swap.world wallets];
          now rewrite !(get_set_other _ _ _ _ _ Hne)).
    cbn [Swap.world Swap.swapTransactions wallets encryptionKey console network] in Hr.
    unfold Swap.andThen at 1 in Hr.
    rewrite (update_stored_run _ fromWalletId _
               (Wallet.set_balance (Wallet.balance from1 - fromAmount)%Q from1)) in Hr
      by (try (unfold getWallet; cbn [Swap.world wallets];
               rewrite (get_set_other _ toWalletId fromWalletId)
                 by (intro; apply Hne; congruence);
               apply get_set_same);
          exact Hfid).
    cbn [Swap.world Swap.swapTransactions wallets encryptionKey console network] in Hr.
    rewrite (update_stored_run _ toWalletId _
               (Wallet.set_balance (Wallet.balance toWallet + toAmount)%Q toWallet)) in Hr
      by (try (unfold getWallet; cbn [Swap.world wallets];
               rewrite (get_set_other _ fromWalletId toWalletId) by exact Hne;
               apply get_set_same);
          exact Htid).
    cbn [Swap.world Swap.swapTransactions wallets encryptionKey console network] in Hr.
    unfold Swap.andThen, Swap.swaps_set, Swap.pure in Hr.
    cbn [Swap.world Swap.swapTransactions] in Hr.
    subst r. eexists. unfold Swap.getSwapTransaction.
    cbn [fst snd Swap.world Swap.swapTransactions Swap.SwapTransaction.id
         Swap.SwapTransaction.fromAmount Swap.SwapTransaction.toAmount
         Swap.SwapTransaction.status].
    split; [reflexivity|]. split; [apply get_set_same|].
    repeat (split; [reflexivity|]). split; [split; [reflexivity|split]|].
    + unfold getWallet. cbn [wallets].
      rewrite (get_set_other _ toWalletId fromWalletId) by (intro; apply Hne; congruence).
      now rewrite get_set_same.
    + unfold getWallet. cbn [wallets]. now rewrite get_set_same.
    + intros other H1 H2. unfold getWallet. cbn [wallets].
      rewrite !get_set_other; congruence.
Qed.

Lemma worldEthFunded_one_record : one_record_per_id worldEthFunded.
Proof.
  split.
  - vm_compute. repeat constructor; simpl; intuition discriminate.
  - vm_compute. repeat constructor.
Qed.

Lemma X30_swap_settlement_witness :
  exists swap,
    Swap.outcome (Swap.executeSwap (Swap.envWith balanceEnvOnline (1 # 2)) ethWalletId
                    solWalletId 1%Q 1000%Q)
      (Swap.mkState worldEthFunded []) = Return swap
    /\ Swap.SwapTransaction.status swap = Swap.COMPLETED
    /\ option_map Wallet.balance
         (getWallet ethWalletId
            (Swap.world
               (Swap.next (Swap.executeSwap (Swap.envWith balanceEnvOnline (1 # 2))
                             ethWalletId solWalletId 1%Q 1000%Q)
                  (Swap.mkState worldEthFunded []))))
       = Some ((5 # 2) - 1)%Q
    /\ option_map Wallet.balance
         (getWallet solWalletId
            (Swap.world
               (Swap.next (Swap.executeSwap (Swap.envWith balanceEnvOnline (1 # 2))
                             ethWalletId solWalletId 1%Q 1000%Q)
                  (Swap.mkState worldEthFunded []))))
       = Some (0 + 1000)%Q.
Proof.
  let f := eval vm_compute in (getWallet ethWalletId worldEthFunded) in
  let t := eval vm_compute in (getWallet solWalletId worldEthFunded) in
  match f with
  | Some ?fw =>
      match t with
      | Some ?tw =>
          destruct (X30_swap_settlement (Swap.envWith balanceEnvOnline (1 # 2))
                      ethWalletId solWalletId 1%Q 1000%Q (5 # 2)%Q
                      (Swap.mkState worldEthFunded []) fw tw)
            as (swap & Hout & _ & _ & _ & _ & Hcase & _)
      end
  end.
  - exact worldEthFunded_one_record.
  - discriminate.
  - vm_compute. reflexivity.
  - vm_compute. reflexivity.
  - reflexivity.
  - vm_compute. reflexivity.
  - discriminate.
  - change (Qle_bool (Swap.Math_random (Swap.envWith balanceEnvOnline (1 # 2))) (1 # 10))
      with false in Hcase.
    cbv iota in Hcase. destruct Hcase as (Hstatus & Hfrom & Hto).
    exists swap. split; [exact Hout|]. split; [exact Hstatus|].
    split; [exact Hfrom|exact Hto].
Defined.
